(** * OneBot channel adapter (package channels): flexible decoding, event
    normalisation, de-duplication window, group trigger, outbound requests.

    The development follows the Go source function by function.  Go strings
    are byte sequences and are modelled by [string] (a list of 8-bit
    [ascii]); [int64] values are modelled in [Z] with the wrap-around written
    out where the code can overflow; a Go result pair [(v, err)] is a pair
    whose second component is [None] for a nil error. *)

From Stdlib Require Import ZArith Ascii String DecimalString DecimalPos DecimalZ Lia.
From stdpp Require Import base tactics option list strings gmap.

Local Open Scope string_scope.
Local Open Scope Z_scope.

(** ** Bytes and strings (packages strings, unicode, utf8) *)

Module Strings.

Definition byte (c : ascii) : Z := Z.of_N (N_of_ascii c).

Definition len (s : string) : nat := String.length s.

(** [s[n:]] for [n <= len s]. *)
Fixpoint drop (n : nat) (s : string) : string :=
  match n, s with
  | O, _ => s
  | S k, String _ r => drop k r
  | S _, EmptyString => EmptyString
  end.

(** [s[:n]] for [n <= len s]. *)
Fixpoint take (n : nat) (s : string) : string :=
  match n, s with
  | S k, String c r => String c (take k r)
  | _, _ => EmptyString
  end.

Definition rev (s : string) : string :=
  string_of_list_ascii (List.rev (list_ascii_of_string s)).

(** strings.HasPrefix *)
Definition HasPrefix (s prefix : string) : bool := String.prefix prefix s.

(** strings.TrimPrefix *)
Definition TrimPrefix (s prefix : string) : string :=
  if HasPrefix s prefix then drop (len prefix) s else s.

(** strings.Contains: some suffix of [s] starts with [substr]. *)
Fixpoint Contains (s substr : string) : bool :=
  if HasPrefix s substr then true
  else match s with
       | EmptyString => false
       | String _ r => Contains r substr
       end.

(** The left-to-right, non-overlapping replacement loop of
    strings.Replace; [skip] counts the bytes of a match still to be
    passed over. *)
Fixpoint replaceFrom (old new : string) (skip : nat) (s : string) : string :=
  match s with
  | EmptyString => EmptyString
  | String c r =>
      match skip with
      | S k => replaceFrom old new k r
      | O =>
          if HasPrefix s old
          then new ++ replaceFrom old new (len old - 1) r
          else String c (replaceFrom old new 0 r)
      end
  end.

(** strings.ReplaceAll.  Every call site passes a non-empty [old] (the
    mention token); Go returns [s] when [old = new], and its insertion of
    [new] around every rune for an empty [old] is not needed here. *)
Definition ReplaceAll (s old new : string) : string :=
  match old with
  | EmptyString => s
  | _ => replaceFrom old new 0 s
  end.

(** The asciiSpace table of package strings. *)
Definition asciiSpace (b : Z) : bool :=
  (b =? 9) || (b =? 10) || (b =? 11) || (b =? 12) || (b =? 13) || (b =? 32).

(** The three-byte UTF-8 encodings of the runes of unicode.White_Space
    above Latin-1: U+1680, U+2000..U+200A, U+2028, U+2029, U+202F, U+205F,
    U+3000. *)
Definition space3 (a b c : Z) : bool :=
  ((a =? 0xE1) && (b =? 0x9A) && (c =? 0x80))
  || ((a =? 0xE2) && (b =? 0x80)
      && (((0x80 <=? c) && (c <=? 0x8A)) || (c =? 0xA8) || (c =? 0xA9) || (c =? 0xAF)))
  || ((a =? 0xE2) && (b =? 0x81) && (c =? 0x9F))
  || ((a =? 0xE3) && (b =? 0x80) && (c =? 0x80)).

(** The two-byte encodings of U+0085 and U+00A0. *)
Definition space2 (a b : Z) : bool :=
  (a =? 0xC2) && ((b =? 0x85) || (b =? 0xA0)).

(** Width in bytes of the white-space rune that [s] starts with
    (utf8.DecodeRuneInString then unicode.IsSpace), 0 when the first rune
    is not white space. *)
Definition leadingSpace (s : string) : nat :=
  match s with
  | EmptyString => 0%nat
  | String a r =>
      if asciiSpace (byte a) then 1%nat
      else match r with
           | EmptyString => 0%nat
           | String b r' =>
               if space2 (byte a) (byte b) then 2%nat
               else match r' with
                    | EmptyString => 0%nat
                    | String c _ =>
                        if space3 (byte a) (byte b) (byte c) then 3%nat else 0%nat
                    end
           end
  end.

(** Width of the white-space rune that ends the string whose bytes, last
    byte first, are [s] (utf8.DecodeLastRuneInString then
    unicode.IsSpace). *)
Definition trailingSpace (s : string) : nat :=
  match s with
  | EmptyString => 0%nat
  | String a r =>
      if asciiSpace (byte a) then 1%nat
      else match r with
           | EmptyString => 0%nat
           | String b r' =>
               if space2 (byte b) (byte a) then 2%nat
               else match r' with
                    | EmptyString => 0%nat
                    | String c _ =>
                        if space3 (byte c) (byte b) (byte a) then 3%nat else 0%nat
                    end
           end
  end.

(** Drop white-space runes while [width] finds one; the fuel is the
    number of bytes left, which bounds the number of runes. *)
Fixpoint trimWhile (width : string -> nat) (fuel : nat) (s : string) : string :=
  match fuel with
  | O => s
  | S k =>
      match width s with
      | O => s
      | n => trimWhile width k (drop n s)
      end
  end.

Definition TrimLeftSpace (s : string) : string :=
  trimWhile leadingSpace (len s) s.

Definition TrimRightSpace (s : string) : string :=
  rev (trimWhile trailingSpace (len s) (rev s)).

(** strings.TrimSpace: leading and trailing Unicode white space removed. *)
Definition TrimSpace (s : string) : string :=
  TrimRightSpace (TrimLeftSpace s).

End Strings.

(** ** Number conversions (package strconv) *)

Module Strconv.
Import Strings.

Inductive numErrKind := ErrSyntax | ErrRange.

(** *strconv.NumError *)
Record NumError := mkNumError
  { ne_Func : string; ne_Num : string; ne_Err : numErrKind }.

Definition maxUint64 : Z := 2 ^ 64 - 1.

(** [lower(c)]: c | ('x' - 'X') *)
Definition lower (c : Z) : Z := Z.lor c 32.

(** The digit value ParseUint gives a byte, before the check against the
    base; [None] is the default branch of its switch. *)
Definition digitOf (c : Z) : option Z :=
  if (48 <=? c) && (c <=? 57) then Some (c - 48)
  else if (97 <=? lower c) && (lower c <=? 122) then Some (lower c - 97 + 10)
  else None.

(** The loop of ParseUint for base 10 and bit size 64: [n] is the value
    read so far. *)
Fixpoint parseUintLoop (s0 s : string) (n : Z) : Z * option NumError :=
  match s with
  | EmptyString => (n, None)
  | String c r =>
      match digitOf (byte c) with
      | None => (0, Some (mkNumError "ParseUint" s0 ErrSyntax))
      | Some d =>
          if 10 <=? d then (0, Some (mkNumError "ParseUint" s0 ErrSyntax))
          else if maxUint64 / 10 + 1 <=? n
          then (maxUint64, Some (mkNumError "ParseUint" s0 ErrRange))
          else
            let n10 := n * 10 in
            let n1 := (n10 + d) mod 2 ^ 64 in
            if (n1 <? n10) || (maxUint64 <? n1)
            then (maxUint64, Some (mkNumError "ParseUint" s0 ErrRange))
            else parseUintLoop s0 r n1
      end
  end.

(** strconv.ParseUint(s, 10, 64) *)
Definition ParseUint (s : string) : Z * option NumError :=
  match s with
  | EmptyString => (0, Some (mkNumError "ParseUint" s ErrSyntax))
  | _ => parseUintLoop s s 0
  end.

(** strconv.ParseInt(s, 10, 64).  On a range error the result is the
    nearest bound together with the error, as in Go. *)
Definition ParseInt (s0 : string) : Z * option NumError :=
  match s0 with
  | EmptyString => (0, Some (mkNumError "ParseInt" s0 ErrSyntax))
  | String c r =>
      let neg := byte c =? 45 in
      let s := if (byte c =? 43) || neg then r else s0 in
      let '(un, err) := ParseUint s in
      match err with
      | Some (mkNumError _ _ ErrSyntax) =>
          (0, Some (mkNumError "ParseInt" s0 ErrSyntax))
      | _ =>
          let cutoff := 2 ^ 63 in
          if negb neg && (cutoff <=? un)
          then (cutoff - 1, Some (mkNumError "ParseInt" s0 ErrRange))
          else if neg && (cutoff <? un)
          then (- cutoff, Some (mkNumError "ParseInt" s0 ErrRange))
          else (if neg then - un else un, None)
      end
  end.

(** strconv.FormatInt(i, 10), also the [%d] verb of fmt. *)
Definition FormatInt (i : Z) : string := NilZero.string_of_int (Z.to_int i).

End Strconv.

(** ** JSON values and decoding (package encoding/json) *)

Module Json.
Import Strings Strconv.

(** A json.RawMessage is the byte text of one value of a frame.  The model
    keeps the bytes, which the code measures with [len] and prints with
    [string(raw)], next to the value json.Unmarshal reads from them:
    [JInvalid] when the bytes are not one well-formed JSON value (the nil
    RawMessage of an absent key is [Raw "" JInvalid]).  A number keeps its
    literal [lit]; [shown] is what the [%v] verb of fmt prints for the
    float64 the literal decodes to, [None] when strconv.ParseFloat rejects
    the literal as out of range. *)
Inductive RawMessage : Type :=
| Raw (bytes : string) (shape : jshape)
with jshape : Type :=
| JInvalid
| JNull
| JBool (b : bool)
| JNumber (lit : string) (shown : option string)
| JString (s : string)
| JArray (elems : list RawMessage)
| JObject (members : list (string * RawMessage)).

Definition bytes_of (raw : RawMessage) : string :=
  match raw with Raw b _ => b end.

Definition shape_of (raw : RawMessage) : jshape :=
  match raw with Raw _ sh => sh end.

(** The nil RawMessage: the key was absent from the frame. *)
Definition nilRaw : RawMessage := Raw "" JInvalid.

(** The Go [error] values this file meets: a *strconv.NumError, a
    *json.SyntaxError, a *json.UnmarshalTypeError (the code reads the
    fields of neither, so they carry none), and the results of fmt.Errorf
    without and with a wrapped cause. *)
Inductive error : Type :=
| ErrNum (e : NumError)
| ErrSyntaxJSON
| ErrUnmarshalType
| Errorf (msg : string)
| ErrorfWrap (before : string) (cause : error) (after : string).

(** json.Unmarshal(raw, &n) for [n int64]; the first component is [n]
    after the call.  null leaves [n] alone without error; a number is
    read with ParseInt on its literal; every other value is a type
    error. *)
Definition Unmarshal_int64 (raw : RawMessage) (n : Z) : Z * option error :=
  match shape_of raw with
  | JInvalid => (n, Some ErrSyntaxJSON)
  | JNull => (n, None)
  | JNumber lit _ =>
      match ParseInt lit with
      | (v, None) => (v, None)
      | (_, Some _) => (n, Some ErrUnmarshalType)
      end
  | _ => (n, Some ErrUnmarshalType)
  end.

(** json.Unmarshal(raw, &s) for [s string]. *)
Definition Unmarshal_string (raw : RawMessage) (s : string) : string * option error :=
  match shape_of raw with
  | JInvalid => (s, Some ErrSyntaxJSON)
  | JNull => (s, None)
  | JString v => (v, None)
  | _ => (s, Some ErrUnmarshalType)
  end.

(** Decoding into [any] fails on a number outside float64. *)
Fixpoint floatsOK (raw : RawMessage) : bool :=
  match raw with
  | Raw _ sh =>
      match sh with
      | JInvalid => false
      | JNumber _ shown => match shown with Some _ => true | None => false end
      | JArray elems => forallb floatsOK elems
      | JObject members => forallb (fun kv => floatsOK (snd kv)) members
      | _ => true
      end
  end.

(** A Go map filled member by member: a repeated key keeps its last
    value. *)
Definition decodeMap (members : list (string * RawMessage)) : gmap string RawMessage :=
  foldl (fun m kv => <[fst kv := snd kv]> m) ∅ members.

(** One element of a [[]map[string]any]: an object becomes its map, null
    the nil map (which reads as empty). *)
Definition decodeSegment (elem : RawMessage) : gmap string RawMessage :=
  match shape_of elem with
  | JObject members => decodeMap members
  | _ => ∅
  end.

Definition segmentOK (elem : RawMessage) : bool :=
  match shape_of elem with
  | JObject members => forallb (fun kv => floatsOK (snd kv)) members
  | JNull => true
  | _ => false
  end.

(** json.Unmarshal(raw, &segments) for [segments []map[string]any].  The
    decoder goes on after a type error and reports the first one at the
    end; the caller reads the slice only when the error is nil. *)
Definition Unmarshal_segments (raw : RawMessage)
  : list (gmap string RawMessage) * option error :=
  match shape_of raw with
  | JInvalid => ([], Some ErrSyntaxJSON)
  | JNull => ([], None)
  | JArray elems =>
      (map decodeSegment elems,
       if forallb segmentOK elems then None
       else Some ErrUnmarshalType)
  | _ => ([], Some ErrUnmarshalType)
  end.

(** [v.(string)] on a map entry: the comma-ok type assertion. *)
Definition assertString (v : option RawMessage) : string * bool :=
  match v with
  | Some (Raw _ (JString s)) => (s, true)
  | _ => ("", false)
  end.

(** [v.(map[string]any)]: [None] is the nil map of a failed assertion. *)
Definition assertMap (v : option RawMessage) : option (gmap string RawMessage) :=
  match v with
  | Some (Raw _ (JObject members)) => Some (decodeMap members)
  | _ => None
  end.

(** Insertion of a printed map entry in key order, a later value for the
    same key replacing the earlier one. *)
Fixpoint insertEntry (k v : string) (l : list (string * string)) : list (string * string) :=
  match l with
  | [] => [(k, v)]
  | (k', v') :: r =>
      match String.compare k k' with
      | Lt => (k, v) :: l
      | Eq => (k, v) :: r
      | Gt => (k', v') :: insertEntry k v r
      end
  end.

Definition joinSpace (l : list string) : string :=
  match l with
  | [] => ""
  | x :: r => fold_left (fun acc y => acc ++ " " ++ y) r x
  end.

(** fmt.Sprintf("%v", v) for a decoded [any]: nil prints as [<nil>], a
    string as itself, a float64 in its shortest [%g] form, a slice as
    [[a b]], a map as [map[k:v ...]] in key order. *)
Fixpoint sprintV (v : RawMessage) : string :=
  match v with
  | Raw _ sh =>
      match sh with
      | JInvalid => "<nil>"
      | JNull => "<nil>"
      | JBool b => if b then "true" else "false"
      | JNumber _ shown => match shown with Some g => g | None => "<nil>" end
      | JString s => s
      | JArray elems => "[" ++ joinSpace (map sprintV elems) ++ "]"
      | JObject members =>
          let printed := map (fun kv => (fst kv, sprintV (snd kv))) members in
          let sorted := fold_left (fun acc kv => insertEntry (fst kv) (snd kv) acc) printed [] in
          "map[" ++ joinSpace (map (fun kv => fst kv ++ ":" ++ snd kv) sorted) ++ "]"
      end
  end.

(** [%v] of a map read: a missing key reads as nil. *)
Definition sprintVal (v : option RawMessage) : string :=
  match v with
  | Some r => sprintV r
  | None => "<nil>"
  end.

(** Field-name folding of the struct decoder: ASCII letters to upper
    case, and the two runes whose case folding is an ASCII letter, U+017F
    (long s, bytes C5 BF) and U+212A (Kelvin sign, bytes E2 84 AA).  Other
    bytes are kept: they never fold to ASCII, so they never make a key
    equal to an ASCII field name. *)
Fixpoint foldName (s : string) : string :=
  match s with
  | EmptyString => EmptyString
  | String a r =>
      let x := byte a in
      if (97 <=? x) && (x <=? 122)
      then String (ascii_of_N (Z.to_N (x - 32))) (foldName r)
      else
        match r with
        | String b r' =>
            if (x =? 0xC5) && (byte b =? 0xBF) then String "S"%char (foldName r')
            else
              match r' with
              | String c r'' =>
                  if (x =? 0xE2) && (byte b =? 0x84) && (byte c =? 0xAA)
                  then String "K"%char (foldName r'')
                  else String a (foldName r)
              | EmptyString => String a (foldName r)
              end
        | EmptyString => String a (foldName r)
        end
  end.

(** First error wins: [d.saveError]. *)
Definition saveError (saved : option error) (e : error) : option error :=
  match saved with
  | Some _ => saved
  | None => Some e
  end.

End Json.

(** ** Runes (package unicode/utf8, conversions between string and []rune) *)

Module Utf8.
Import Strings.

Definition RuneError : Z := 0xFFFD.

Definition MaxRune : Z := 0x10FFFF.

(** A continuation byte. *)
Definition cont (b : Z) : bool := (0x80 <=? b) && (b <=? 0xBF).

(** utf8.DecodeRuneInString: the rune [s] starts with and its width in
    bytes.  An encoding that is cut short, not the shortest one, of a
    surrogate or above MaxRune gives [(RuneError, 1)]; the empty string
    gives [(RuneError, 0)]. *)
Definition DecodeRuneInString (s : string) : Z * nat :=
  match s with
  | EmptyString => (RuneError, 0%nat)
  | String a r =>
      let b0 := byte a in
      if b0 <? 0x80 then (b0, 1%nat)
      else if (0xC2 <=? b0) && (b0 <=? 0xDF) then
        match r with
        | String b _ =>
            let b1 := byte b in
            if cont b1
            then (Z.lor (Z.shiftl (Z.land b0 0x1F) 6) (Z.land b1 0x3F), 2%nat)
            else (RuneError, 1%nat)
        | EmptyString => (RuneError, 1%nat)
        end
      else if (0xE0 <=? b0) && (b0 <=? 0xEF) then
        match r with
        | String b (String c _) =>
            let b1 := byte b in
            let b2 := byte c in
            let lo := if b0 =? 0xE0 then 0xA0 else 0x80 in
            let hi := if b0 =? 0xED then 0x9F else 0xBF in
            if (lo <=? b1) && (b1 <=? hi) && cont b2
            then (Z.lor (Z.lor (Z.shiftl (Z.land b0 0x0F) 12)
                           (Z.shiftl (Z.land b1 0x3F) 6))
                    (Z.land b2 0x3F), 3%nat)
            else (RuneError, 1%nat)
        | _ => (RuneError, 1%nat)
        end
      else if (0xF0 <=? b0) && (b0 <=? 0xF4) then
        match r with
        | String b (String c (String d _)) =>
            let b1 := byte b in
            let b2 := byte c in
            let b3 := byte d in
            let lo := if b0 =? 0xF0 then 0x90 else 0x80 in
            let hi := if b0 =? 0xF4 then 0x8F else 0xBF in
            if (lo <=? b1) && (b1 <=? hi) && cont b2 && cont b3
            then (Z.lor (Z.lor (Z.lor (Z.shiftl (Z.land b0 0x07) 18)
                                  (Z.shiftl (Z.land b1 0x3F) 12))
                           (Z.shiftl (Z.land b2 0x3F) 6))
                    (Z.land b3 0x3F), 4%nat)
            else (RuneError, 1%nat)
        | _ => (RuneError, 1%nat)
        end
      else (RuneError, 1%nat)
  end.

Definition chr (b : Z) : ascii := ascii_of_N (Z.to_N b).

(** utf8.AppendRune on an empty slice: the encoding of [r], that of
    RuneError for a surrogate and for a value outside 0 .. MaxRune. *)
Definition EncodeRune (r : Z) : string :=
  let three (r : Z) :=
    String (chr (Z.lor 0xE0 (Z.shiftr r 12)))
      (String (chr (Z.lor 0x80 (Z.land (Z.shiftr r 6) 0x3F)))
         (String (chr (Z.lor 0x80 (Z.land r 0x3F))) "")) in
  if (0 <=? r) && (r <=? 0x7F) then String (chr r) ""
  else if (0 <=? r) && (r <=? 0x7FF) then
    String (chr (Z.lor 0xC0 (Z.shiftr r 6)))
      (String (chr (Z.lor 0x80 (Z.land r 0x3F))) "")
  else if (r <? 0) || (MaxRune <? r) || ((0xD800 <=? r) && (r <=? 0xDFFF))
  then three RuneError
  else if r <=? 0xFFFF then three r
  else
    String (chr (Z.lor 0xF0 (Z.shiftr r 18)))
      (String (chr (Z.lor 0x80 (Z.land (Z.shiftr r 12) 0x3F)))
         (String (chr (Z.lor 0x80 (Z.land (Z.shiftr r 6) 0x3F)))
            (String (chr (Z.lor 0x80 (Z.land r 0x3F))) ""))).

(** [[]rune(s)]: rune after rune; the fuel is the number of bytes left. *)
Fixpoint runesFrom (fuel : nat) (s : string) : list Z :=
  match fuel with
  | O => []
  | S k =>
      match s with
      | EmptyString => []
      | _ =>
          let '(r, w) := DecodeRuneInString s in
          r :: runesFrom k (drop w s)
      end
  end.

Definition runes (s : string) : list Z := runesFrom (len s) s.

(** [string(rs)] for [rs []rune]. *)
Definition stringOfRunes (rs : list Z) : string :=
  fold_right (fun r acc => EncodeRune r ++ acc) "" rs.

End Utf8.

Import Strings Strconv Json Utf8.

(** ** Package channels: the OneBot adapter *)

(** *** Wire and event records *)

Record BotStatus := mkBotStatus { Online : bool; Good : bool }.

Record oneBotRawEvent := mkRawEvent
  { raw_PostType : string;
    raw_MessageType : string;
    raw_SubType : string;
    raw_MessageID : RawMessage;
    raw_UserID : RawMessage;
    raw_GroupID : RawMessage;
    raw_RawMessage : string;
    raw_Message : RawMessage;
    raw_Sender : RawMessage;
    raw_SelfID : RawMessage;
    raw_Time : RawMessage;
    raw_MetaEventType : string;
    raw_Echo : string;
    raw_RetCode : RawMessage;
    raw_Status : BotStatus }.

Record oneBotSender := mkSender
  { sender_UserID : RawMessage;
    sender_Nickname : string;
    sender_Card : string }.

(** The zero value [var sender oneBotSender]. *)
Definition zeroSender : oneBotSender := mkSender nilRaw "" "".

Record oneBotEvent := mkEvent
  { evt_PostType : string;
    evt_MessageType : string;
    evt_SubType : string;
    evt_MessageID : string;
    evt_UserID : Z;
    evt_GroupID : Z;
    evt_Content : string;
    evt_RawContent : string;
    evt_IsBotMentioned : bool;
    evt_Sender : oneBotSender;
    evt_SelfID : Z;
    evt_Time : Z;
    evt_MetaEventType : string }.

Record oneBotSendPrivateMsgParams := mkPrivateParams
  { priv_UserID : Z; priv_Message : string }.

Record oneBotSendGroupMsgParams := mkGroupParams
  { group_GroupID : Z; group_Message : string }.

(** The [any] in the [Params] field holds one of the two parameter
    structs. *)
Inductive sendParams :=
| PrivateParams (p : oneBotSendPrivateMsgParams)
| GroupParams (p : oneBotSendGroupMsgParams).

Record oneBotAPIRequest := mkRequest
  { req_Action : string; req_Params : sendParams; req_Echo : string }.

(** bus.OutboundMessage, as far as this file reads it. *)
Record OutboundMessage := mkOutbound
  { out_ChatID : string; out_Content : string }.

(** *** FlexibleDecoder *)

Definition parseJSONInt64 (raw : RawMessage) : Z * option error :=
  if (len (bytes_of raw) =? 0)%nat then (0, None)
  else
    match Unmarshal_int64 raw 0 with
    | (n, None) => (n, None)
    | (_, Some _) =>
        match Unmarshal_string raw "" with
        | (s, None) =>
            let '(v, err) := ParseInt s in (v, option_map ErrNum err)
        | (_, Some _) =>
            (0, Some (Errorf ("cannot parse as int64: " ++ bytes_of raw)))
        end
    end.

Definition parseJSONString (raw : RawMessage) : string :=
  if (len (bytes_of raw) =? 0)%nat then ""
  else
    match Unmarshal_string raw "" with
    | (s, None) => s
    | (_, Some _) => bytes_of raw
    end.

(** *** EventNormalizer *)

Record parseMessageResult := mkParsed
  { Text : string; IsBotMentioned : bool }.

(** fmt.Sprintf("[CQ:at,qq=%d]", selfID) *)
Definition cqAtToken (selfID : Z) : string :=
  "[CQ:at,qq=" ++ FormatInt selfID ++ "]".

(** One turn of the loop over the segments: [acc] is [(text, mentioned)]. *)
Definition segmentStep (selfID : Z) (selfIDStr : string)
    (acc : string * bool) (seg : gmap string RawMessage) : string * bool :=
  let '(text, mentioned) := acc in
  let segType := fst (assertString (seg !! "type")) in
  let data := assertMap (seg !! "data") in
  if String.eqb segType "text" then
    match data with
    | Some d =>
        match assertString (d !! "text") with
        | (t, true) => (text ++ t, mentioned)
        | (_, false) => (text, mentioned)
        end
    | None => (text, mentioned)
    end
  else if String.eqb segType "at" then
    match data with
    | Some d =>
        if 0 <? selfID then
          let qqVal := sprintVal (d !! "qq") in
          if String.eqb qqVal selfIDStr || String.eqb qqVal "all"
          then (text, true)
          else (text, mentioned)
        else (text, mentioned)
    | None => (text, mentioned)
    end
  else (text, mentioned).

Definition parseMessageContentEx (raw : RawMessage) (selfID : Z) : parseMessageResult :=
  if (len (bytes_of raw) =? 0)%nat then mkParsed "" false
  else
    match Unmarshal_string raw "" with
    | (s, None) =>
        if 0 <? selfID then
          let cqAt := cqAtToken selfID in
          if Contains s cqAt
          then mkParsed (TrimSpace (ReplaceAll s cqAt "")) true
          else mkParsed s false
        else mkParsed s false
    | (_, Some _) =>
        match Unmarshal_segments raw with
        | (segments, None) =>
            let selfIDStr := FormatInt selfID in
            let '(text, mentioned) :=
              fold_left (segmentStep selfID selfIDStr) segments ("", false) in
            mkParsed (TrimSpace text) mentioned
        | (_, Some _) => mkParsed "" false
        end
    end.

(** The struct decoder on one member of the sender object.  [user_id] is a
    RawMessage and takes the bytes of any value; [nickname] and [card] are
    strings: null leaves them alone, a non-string records a type error and
    decoding goes on. *)
Definition storeSenderField (acc : oneBotSender * option error)
    (kv : string * RawMessage) : oneBotSender * option error :=
  let '(sender, saved) := acc in
  let name := foldName (fst kv) in
  let v := snd kv in
  if String.eqb name "USER_ID" then
    (mkSender v (sender_Nickname sender) (sender_Card sender), saved)
  else if String.eqb name "NICKNAME" then
    match shape_of v with
    | JString s => (mkSender (sender_UserID sender) s (sender_Card sender), saved)
    | JNull => (sender, saved)
    | _ => (sender, saveError saved ErrUnmarshalType)
    end
  else if String.eqb name "CARD" then
    match shape_of v with
    | JString s => (mkSender (sender_UserID sender) (sender_Nickname sender) s, saved)
    | JNull => (sender, saved)
    | _ => (sender, saveError saved ErrUnmarshalType)
    end
  else (sender, saved).

(** json.Unmarshal(raw, &sender) for [sender oneBotSender]; the first
    component is [sender] after the call. *)
Definition Unmarshal_sender (raw : RawMessage) (sender : oneBotSender)
  : oneBotSender * option error :=
  match shape_of raw with
  | JInvalid => (sender, Some ErrSyntaxJSON)
  | JNull => (sender, None)
  | JObject members => fold_left storeSenderField members (sender, None)
  | _ => (sender, Some ErrUnmarshalType)
  end.

(** The method reads nothing of its receiver.  Go returns [(nil, err)] or
    [(&evt, nil)]: [inr err] or [inl evt] here; log calls are left out. *)
Definition normalizeMessageEvent (raw : oneBotRawEvent) : oneBotEvent + error :=
  match parseJSONInt64 (raw_UserID raw) with
  | (_, Some err) =>
      inr (ErrorfWrap "parse user_id: " err
             (" (raw: " ++ bytes_of (raw_UserID raw) ++ ")"))
  | (userID, None) =>
      let groupID := fst (parseJSONInt64 (raw_GroupID raw)) in
      let selfID := fst (parseJSONInt64 (raw_SelfID raw)) in
      let ts := fst (parseJSONInt64 (raw_Time raw)) in
      let messageID := parseJSONString (raw_MessageID raw) in
      let parsed := parseMessageContentEx (raw_Message raw) selfID in
      let '(content, isBotMentioned) :=
        if String.eqb (raw_RawMessage raw) "" then
          (Text parsed, IsBotMentioned parsed)
        else if 0 <? selfID then
          let cqAt := cqAtToken selfID in
          if Contains (raw_RawMessage raw) cqAt
          then (TrimSpace (ReplaceAll (raw_RawMessage raw) cqAt ""), true)
          else (raw_RawMessage raw, IsBotMentioned parsed)
        else (raw_RawMessage raw, IsBotMentioned parsed) in
      let sender :=
        if (0 <? len (bytes_of (raw_Sender raw)))%nat
        then fst (Unmarshal_sender (raw_Sender raw) zeroSender)
        else zeroSender in
      inl (mkEvent (raw_PostType raw) (raw_MessageType raw) (raw_SubType raw)
             messageID userID groupID content (raw_RawMessage raw)
             isBotMentioned sender selfID ts (raw_MetaEventType raw))
  end.

(** *** TriggerClassifier *)

(** The loop over [c.config.GroupTriggerPrefix]. *)
Fixpoint triggerLoop (content : string) (prefixes : list string) : bool * string :=
  match prefixes with
  | [] => (false, content)
  | prefix :: rest =>
      if String.eqb prefix "" then triggerLoop content rest
      else if HasPrefix content prefix
      then (true, TrimSpace (TrimPrefix content prefix))
      else triggerLoop content rest
  end.

Definition checkGroupTrigger (groupTriggerPrefix : list string)
    (content : string) (isBotMentioned : bool) : bool * string :=
  if isBotMentioned then (true, TrimSpace content)
  else triggerLoop content groupTriggerPrefix.

(** *** OutboundSender: destination addressing *)

(** Go returns [("", nil, err)] or [(action, params, nil)]: [inr err] or
    [inl (action, params)] here. *)
Definition buildSendRequest (msg : OutboundMessage)
  : (string * sendParams) + error :=
  let chatID := out_ChatID msg in
  if (6 <? len chatID)%nat && String.eqb (take 6 chatID) "group:" then
    match ParseInt (drop 6 chatID) with
    | (_, Some _) => inr (Errorf ("invalid group ID in chatID: " ++ chatID))
    | (groupID, None) =>
        inl ("send_group_msg", GroupParams (mkGroupParams groupID (out_Content msg)))
    end
  else if (8 <? len chatID)%nat && String.eqb (take 8 chatID) "private:" then
    match ParseInt (drop 8 chatID) with
    | (_, Some _) => inr (Errorf ("invalid user ID in chatID: " ++ chatID))
    | (userID, None) =>
        inl ("send_private_msg", PrivateParams (mkPrivateParams userID (out_Content msg)))
    end
  else
    match ParseInt chatID with
    | (_, Some _) => inr (Errorf ("invalid chatID for OneBot: " ++ chatID))
    | (userID, None) =>
        inl ("send_private_msg", PrivateParams (mkPrivateParams userID (out_Content msg)))
    end.

(** *** The channel object *)

(** config.OneBotConfig, the fields this file reads. *)
Record OneBotConfig := mkConfig
  { cfg_WSUrl : string;
    cfg_AccessToken : string;
    cfg_ReconnectInterval : Z;
    cfg_GroupTriggerPrefix : list string }.

(** A live *websocket.Conn, named by the number of the dial that made it. *)
Definition Conn : Type := nat.

(** [running] is the flag of the embedded BaseChannel.  [dedupIdx] is a Go
    [int] that only ever holds an index into the ring.  The context and
    the two locks have no counterpart, the methods being run one at a
    time. *)
Record OneBotChannel := mkChannel
  { running : bool;
    config : OneBotConfig;
    conn : option Conn;
    dedup : gset string;
    dedupRing : list string;
    dedupIdx : nat;
    echoCounter : Z }.

Definition dedupSize : nat := 1024.

Definition NewOneBotChannel (cfg : OneBotConfig) : OneBotChannel :=
  mkChannel false cfg None ∅ (replicate dedupSize "") 0 0.

Definition setDedup (c : OneBotChannel) (d : gset string) (ring : list string)
    (idx : nat) : OneBotChannel :=
  mkChannel (running c) (config c) (conn c) d ring idx (echoCounter c).

Definition setConn (c : OneBotChannel) (k : option Conn) : OneBotChannel :=
  mkChannel (running c) (config c) k (dedup c) (dedupRing c) (dedupIdx c)
    (echoCounter c).

Definition setRunning (c : OneBotChannel) (b : bool) : OneBotChannel :=
  mkChannel b (config c) (conn c) (dedup c) (dedupRing c) (dedupIdx c)
    (echoCounter c).

Definition setEchoCounter (c : OneBotChannel) (n : Z) : OneBotChannel :=
  mkChannel (running c) (config c) (conn c) (dedup c) (dedupRing c) (dedupIdx c) n.

(** *** Deduplicator *)

(** The result is [None] where Go panics: the ring read at an index out of
    range. *)
Definition isDuplicate (c : OneBotChannel) (messageID : string)
  : option (bool * OneBotChannel) :=
  if String.eqb messageID "" || String.eqb messageID "0" then Some (false, c)
  else if bool_decide (messageID ∈ dedup c) then Some (true, c)
  else
    match dedupRing c !! dedupIdx c with
    | None => None
    | Some old =>
        let d := if String.eqb old "" then dedup c else dedup c ∖ {[old]} in
        Some (false,
              setDedup c ({[messageID]} ∪ d)
                (<[dedupIdx c := messageID]> (dedupRing c))
                ((dedupIdx c + 1) mod length (dedupRing c))%nat)
    end.

(** A sequence of calls, with the results in call order. *)
Fixpoint isDuplicateAll (c : OneBotChannel) (ids : list string)
  : option (list bool * OneBotChannel) :=
  match ids with
  | [] => Some ([], c)
  | id :: rest =>
      match isDuplicate c id with
      | None => None
      | Some (b, c') =>
          match isDuplicateAll c' rest with
          | None => None
          | Some (bs, c'') => Some (b :: bs, c'')
          end
      end
  end.

(** The ids held in non-empty ring slots. *)
Definition nonEmptySlots (c : OneBotChannel) : list string :=
  filter (fun s => s ≠ "") (dedupRing c).

(** *** Dispatcher *)

(** The arguments of one [c.HandleMessage] call, the hand-over to the bus
    (BaseChannel is outside this file). *)
Record busCall := mkCall
  { call_senderID : string;
    call_chatID : string;
    call_content : string;
    call_media : list string;
    call_metadata : gmap string string }.

(** The tail of handleMessage after the switch. *)
Definition forward (evt : oneBotEvent) (senderID chatID content : string)
    (metadata : gmap string string) : busCall :=
  let metadata :=
    if negb (String.eqb (sender_Nickname (evt_Sender evt)) "")
    then <["nickname" := sender_Nickname (evt_Sender evt)]> metadata
    else metadata in
  mkCall senderID chatID content [] metadata.

(** The second component is the bus call made, if any; log calls are left
    out. *)
Definition handleMessage (c : OneBotChannel) (evt : oneBotEvent)
  : option (OneBotChannel * option busCall) :=
  match isDuplicate c (evt_MessageID evt) with
  | None => None
  | Some (true, c') => Some (c', None)
  | Some (false, c') =>
      let content := evt_Content evt in
      if String.eqb content "" then Some (c', None)
      else
        let senderID := FormatInt (evt_UserID evt) in
        let metadata : gmap string string :=
          {["message_id" := evt_MessageID evt]} in
        if String.eqb (evt_MessageType evt) "private" then
          Some (c', Some (forward evt senderID ("private:" ++ senderID) content metadata))
        else if String.eqb (evt_MessageType evt) "group" then
          let groupIDStr := FormatInt (evt_GroupID evt) in
          let chatID := "group:" ++ groupIDStr in
          let metadata := <["group_id" := groupIDStr]> metadata in
          let senderUserID := fst (parseJSONInt64 (sender_UserID (evt_Sender evt))) in
          let metadata :=
            if 0 <? senderUserID
            then <["sender_user_id" := FormatInt senderUserID]> metadata
            else metadata in
          let metadata :=
            if negb (String.eqb (sender_Card (evt_Sender evt)) "")
            then <["sender_name" := sender_Card (evt_Sender evt)]> metadata
            else if negb (String.eqb (sender_Nickname (evt_Sender evt)) "")
            then <["sender_name" := sender_Nickname (evt_Sender evt)]> metadata
            else metadata in
          let '(triggered, strippedContent) :=
            checkGroupTrigger (cfg_GroupTriggerPrefix (config c')) content
              (evt_IsBotMentioned evt) in
          if negb triggered then Some (c', None)
          else Some (c', Some (forward evt senderID chatID strippedContent metadata))
        else Some (c', None)
  end.

(** *** Connection handle and OutboundSender *)

(** [connect]: [dial] is what the dialer returned. *)
Definition connect (c : OneBotChannel) (dial : Conn + error)
  : OneBotChannel * option error :=
  match dial with
  | inr err => (c, Some err)
  | inl k => (setConn c (Some k), None)
  end.

(** The read-error path of [listen]: the handle is closed and cleared. *)
Definition listenReadError (c : OneBotChannel) : OneBotChannel :=
  setConn c None.

Definition Stop (c : OneBotChannel) : OneBotChannel * option error :=
  (setConn (setRunning c false) None, None).

(** [c.echoCounter++] on an int64. *)
Definition wrapInt64 (n : Z) : Z := (n + 2 ^ 63) mod 2 ^ 64 - 2 ^ 63.

(** [Start]: [dial] is what the dialer returned to the one synchronous
    connect; the listener and the reconnect loop it spawns act on the
    channel through [connect] and [listenReadError]. *)
Definition Start (c : OneBotChannel) (dial : Conn + error)
  : OneBotChannel * option error :=
  if String.eqb (cfg_WSUrl (config c)) ""
  then (c, Some (Errorf "OneBot ws_url not configured"))
  else
    let c1 := fst (connect c dial) in
    if 0 <? cfg_ReconnectInterval (config c1) then (setRunning c1 true, None)
    else
      match conn c1 with
      | None =>
          (c1, Some (Errorf "failed to connect to OneBot and reconnect is disabled"))
      | Some _ => (setRunning c1 true, None)
      end.

(** The echo token of counter value [k]: fmt.Sprintf("send_%d", k). *)
Definition echoOf (k : Z) : string := "send_" ++ FormatInt k.

(** [Send]: [writeErr] is what conn.WriteMessage returned.  The second
    component is the request built (json.Marshal cannot fail on these
    parameter structs), whether or not the write went through. *)
Definition Send (c : OneBotChannel) (msg : OutboundMessage) (writeErr : option error)
  : OneBotChannel * option oneBotAPIRequest * option error :=
  if negb (running c) then (c, None, Some (Errorf "OneBot channel not running"))
  else
    match conn c with
    | None => (c, None, Some (Errorf "OneBot WebSocket not connected"))
    | Some _ =>
        match buildSendRequest msg with
        | inr err => (c, None, Some err)
        | inl (action, params) =>
            let c' := setEchoCounter c (wrapInt64 (echoCounter c + 1)) in
            let echo := echoOf (echoCounter c') in
            (c', Some (mkRequest action params echo), writeErr)
        end
    end.

(** What can happen to the connection and the sender between two
    observations of the channel. *)
Inductive op :=
| OpStart (dial : Conn + error)
| OpConnect (dial : Conn + error)
| OpReadError
| OpStop
| OpSend (msg : OutboundMessage) (writeErr : option error).

(** One operation: the channel after it and the request it built, if
    any. *)
Definition applyOp (c : OneBotChannel) (o : op)
  : OneBotChannel * option oneBotAPIRequest :=
  match o with
  | OpStart dial => (fst (Start c dial), None)
  | OpConnect dial => (fst (connect c dial), None)
  | OpReadError => (listenReadError c, None)
  | OpStop => (fst (Stop c), None)
  | OpSend msg writeErr => fst (Send c msg writeErr)
  end.

(** A run of operations, with the requests built in order. *)
Fixpoint runOps (c : OneBotChannel) (ops : list op)
  : OneBotChannel * list oneBotAPIRequest :=
  match ops with
  | [] => (c, [])
  | o :: rest =>
      let '(c1, r) := applyOp c o in
      let '(c2, rs) := runOps c1 rest in
      (c2, match r with Some q => q :: rs | None => rs end)
  end.

(** *** Log helper *)

(** [truncate]: [n] is a Go [int]; [None] where Go panics, on
    [runes[:n]] for a negative [n]. *)
Definition truncate (s : string) (n : Z) : option string :=
  let rs := runes s in
  if Z.of_nat (length rs) <=? n then Some s
  else if n <? 0 then None
  else Some (stringOfRunes (firstn (Z.to_nat n) rs) ++ "...").

(** *** Listener and raw-event dispatch *)

(** The zero value [var raw oneBotRawEvent]. *)
Definition zeroRawEvent : oneBotRawEvent :=
  mkRawEvent "" "" "" nilRaw nilRaw nilRaw "" nilRaw nilRaw nilRaw nilRaw "" ""
    nilRaw (mkBotStatus false false).

(** The syntax check json.Unmarshal makes before it decodes anything: the
    bytes are one well-formed value all the way down. *)
Fixpoint checkValid (raw : RawMessage) : bool :=
  match raw with
  | Raw _ sh =>
      match sh with
      | JInvalid => false
      | JArray elems => forallb checkValid elems
      | JObject members => forallb (fun kv => checkValid (snd kv)) members
      | _ => true
      end
  end.

(** The struct decoder on a string field: a JSON string is stored, null
    leaves the field alone, any other value records a type error and
    decoding goes on. *)
Definition storeString (old : string) (v : RawMessage) (saved : option error)
  : string * option error :=
  match shape_of v with
  | JString s => (s, saved)
  | JNull => (old, saved)
  | _ => (old, saveError saved ErrUnmarshalType)
  end.

(** The same on a bool field. *)
Definition storeBool (old : bool) (v : RawMessage) (saved : option error)
  : bool * option error :=
  match shape_of v with
  | JBool b => (b, saved)
  | JNull => (old, saved)
  | _ => (old, saveError saved ErrUnmarshalType)
  end.

(** One member of the [status] object. *)
Definition storeStatusField (acc : BotStatus * option error)
    (kv : string * RawMessage) : BotStatus * option error :=
  let '(st, saved) := acc in
  let name := foldName (fst kv) in
  if String.eqb name "ONLINE" then
    let '(b, e) := storeBool (Online st) (snd kv) saved in (mkBotStatus b (Good st), e)
  else if String.eqb name "GOOD" then
    let '(b, e) := storeBool (Good st) (snd kv) saved in (mkBotStatus (Online st) b, e)
  else (st, saved).

(** The struct decoder on the [Status BotStatus] field. *)
Definition storeStatus (old : BotStatus) (v : RawMessage) (saved : option error)
  : BotStatus * option error :=
  match shape_of v with
  | JObject members => fold_left storeStatusField members (old, saved)
  | JNull => (old, saved)
  | _ => (old, saveError saved ErrUnmarshalType)
  end.

(** One member of a frame, stored in the field of [oneBotRawEvent] whose
    json tag it matches (exactly or after folding); a RawMessage field
    takes the bytes of any value, null included; a member that matches no
    tag is skipped. *)
Definition storeRawEventField (acc : oneBotRawEvent * option error)
    (kv : string * RawMessage) : oneBotRawEvent * option error :=
  let '(r, saved) := acc in
  let name := foldName (fst kv) in
  let v := snd kv in
  if String.eqb name "POST_TYPE" then
    let '(s, e) := storeString (raw_PostType r) v saved in
    (mkRawEvent s (raw_MessageType r) (raw_SubType r) (raw_MessageID r)
       (raw_UserID r) (raw_GroupID r) (raw_RawMessage r) (raw_Message r)
       (raw_Sender r) (raw_SelfID r) (raw_Time r) (raw_MetaEventType r)
       (raw_Echo r) (raw_RetCode r) (raw_Status r), e)
  else if String.eqb name "MESSAGE_TYPE" then
    let '(s, e) := storeString (raw_MessageType r) v saved in
    (mkRawEvent (raw_PostType r) s (raw_SubType r) (raw_MessageID r)
       (raw_UserID r) (raw_GroupID r) (raw_RawMessage r) (raw_Message r)
       (raw_Sender r) (raw_SelfID r) (raw_Time r) (raw_MetaEventType r)
       (raw_Echo r) (raw_RetCode r) (raw_Status r), e)
  else if String.eqb name "SUB_TYPE" then
    let '(s, e) := storeString (raw_SubType r) v saved in
    (mkRawEvent (raw_PostType r) (raw_MessageType r) s (raw_MessageID r)
       (raw_UserID r) (raw_GroupID r) (raw_RawMessage r) (raw_Message r)
       (raw_Sender r) (raw_SelfID r) (raw_Time r) (raw_MetaEventType r)
       (raw_Echo r) (raw_RetCode r) (raw_Status r), e)
  else if String.eqb name "MESSAGE_ID" then
    (mkRawEvent (raw_PostType r) (raw_MessageType r) (raw_SubType r) v
       (raw_UserID r) (raw_GroupID r) (raw_RawMessage r) (raw_Message r)
       (raw_Sender r) (raw_SelfID r) (raw_Time r) (raw_MetaEventType r)
       (raw_Echo r) (raw_RetCode r) (raw_Status r), saved)
  else if String.eqb name "USER_ID" then
    (mkRawEvent (raw_PostType r) (raw_MessageType r) (raw_SubType r)
       (raw_MessageID r) v (raw_GroupID r) (raw_RawMessage r) (raw_Message r)
       (raw_Sender r) (raw_SelfID r) (raw_Time r) (raw_MetaEventType r)
       (raw_Echo r) (raw_RetCode r) (raw_Status r), saved)
  else if String.eqb name "GROUP_ID" then
    (mkRawEvent (raw_PostType r) (raw_MessageType r) (raw_SubType r)
       (raw_MessageID r) (raw_UserID r) v (raw_RawMessage r) (raw_Message r)
       (raw_Sender r) (raw_SelfID r) (raw_Time r) (raw_MetaEventType r)
       (raw_Echo r) (raw_RetCode r) (raw_Status r), saved)
  else if String.eqb name "RAW_MESSAGE" then
    let '(s, e) := storeString (raw_RawMessage r) v saved in
    (mkRawEvent (raw_PostType r) (raw_MessageType r) (raw_SubType r)
       (raw_MessageID r) (raw_UserID r) (raw_GroupID r) s (raw_Message r)
       (raw_Sender r) (raw_SelfID r) (raw_Time r) (raw_MetaEventType r)
       (raw_Echo r) (raw_RetCode r) (raw_Status r), e)
  else if String.eqb name "MESSAGE" then
    (mkRawEvent (raw_PostType r) (raw_MessageType r) (raw_SubType r)
       (raw_MessageID r) (raw_UserID r) (raw_GroupID r) (raw_RawMessage r) v
       (raw_Sender r) (raw_SelfID r) (raw_Time r) (raw_MetaEventType r)
       (raw_Echo r) (raw_RetCode r) (raw_Status r), saved)
  else if String.eqb name "SENDER" then
    (mkRawEvent (raw_PostType r) (raw_MessageType r) (raw_SubType r)
       (raw_MessageID r) (raw_UserID r) (raw_GroupID r) (raw_RawMessage r)
       (raw_Message r) v (raw_SelfID r) (raw_Time r) (raw_MetaEventType r)
       (raw_Echo r) (raw_RetCode r) (raw_Status r), saved)
  else if String.eqb name "SELF_ID" then
    (mkRawEvent (raw_PostType r) (raw_MessageType r) (raw_SubType r)
       (raw_MessageID r) (raw_UserID r) (raw_GroupID r) (raw_RawMessage r)
       (raw_Message r) (raw_Sender r) v (raw_Time r) (raw_MetaEventType r)
       (raw_Echo r) (raw_RetCode r) (raw_Status r), saved)
  else if String.eqb name "TIME" then
    (mkRawEvent (raw_PostType r) (raw_MessageType r) (raw_SubType r)
       (raw_MessageID r) (raw_UserID r) (raw_GroupID r) (raw_RawMessage r)
       (raw_Message r) (raw_Sender r) (raw_SelfID r) v (raw_MetaEventType r)
       (raw_Echo r) (raw_RetCode r) (raw_Status r), saved)
  else if String.eqb name "META_EVENT_TYPE" then
    let '(s, e) := storeString (raw_MetaEventType r) v saved in
    (mkRawEvent (raw_PostType r) (raw_MessageType r) (raw_SubType r)
       (raw_MessageID r) (raw_UserID r) (raw_GroupID r) (raw_RawMessage r)
       (raw_Message r) (raw_Sender r) (raw_SelfID r) (raw_Time r) s
       (raw_Echo r) (raw_RetCode r) (raw_Status r), e)
  else if String.eqb name "ECHO" then
    let '(s, e) := storeString (raw_Echo r) v saved in
    (mkRawEvent (raw_PostType r) (raw_MessageType r) (raw_SubType r)
       (raw_MessageID r) (raw_UserID r) (raw_GroupID r) (raw_RawMessage r)
       (raw_Message r) (raw_Sender r) (raw_SelfID r) (raw_Time r)
       (raw_MetaEventType r) s (raw_RetCode r) (raw_Status r), e)
  else if String.eqb name "RETCODE" then
    (mkRawEvent (raw_PostType r) (raw_MessageType r) (raw_SubType r)
       (raw_MessageID r) (raw_UserID r) (raw_GroupID r) (raw_RawMessage r)
       (raw_Message r) (raw_Sender r) (raw_SelfID r) (raw_Time r)
       (raw_MetaEventType r) (raw_Echo r) v (raw_Status r), saved)
  else if String.eqb name "STATUS" then
    let '(st, e) := storeStatus (raw_Status r) v saved in
    (mkRawEvent (raw_PostType r) (raw_MessageType r) (raw_SubType r)
       (raw_MessageID r) (raw_UserID r) (raw_GroupID r) (raw_RawMessage r)
       (raw_Message r) (raw_Sender r) (raw_SelfID r) (raw_Time r)
       (raw_MetaEventType r) (raw_Echo r) (raw_RetCode r) st, e)
  else (r, saved).

(** json.Unmarshal(message, &raw) for [raw oneBotRawEvent]; the first
    component is [raw] after the call.  Nothing is decoded from bytes that
    fail the syntax check; the first type error is the one returned, the
    other members having been decoded all the same. *)
Definition Unmarshal_rawEvent (message : RawMessage) (raw : oneBotRawEvent)
  : oneBotRawEvent * option error :=
  if negb (checkValid message) then (raw, Some ErrSyntaxJSON)
  else
    match shape_of message with
    | JNull => (raw, None)
    | JObject members => fold_left storeRawEventField members (raw, None)
    | _ => (raw, Some ErrUnmarshalType)
    end.

(** [handleMetaEvent] writes one log line, chosen by the meta event type,
    and touches nothing else. *)
Definition handleMetaEvent (c : OneBotChannel) (raw : oneBotRawEvent)
  : OneBotChannel := c.

(** The switch on [raw.PostType]; as in [handleMessage] the second
    component is the bus call made, if any. *)
Definition handleRawEvent (c : OneBotChannel) (raw : oneBotRawEvent)
  : option (OneBotChannel * option busCall) :=
  if String.eqb (raw_PostType raw) "message" then
    match normalizeMessageEvent raw with
    | inr _ => Some (c, None)
    | inl evt => handleMessage c evt
    end
  else if String.eqb (raw_PostType raw) "meta_event" then
    Some (handleMetaEvent c raw, None)
  else Some (c, None).

(** What one ReadMessage call of the listener returned. *)
Inductive readResult :=
| ReadFrame (message : RawMessage)
| ReadError (err : error).

(** The body of the [listen] loop on a frame that was read without
    error. *)
Definition listenFrame (c : OneBotChannel) (message : RawMessage)
  : option (OneBotChannel * option busCall) :=
  match Unmarshal_rawEvent message zeroRawEvent with
  | (_, Some _) => Some (c, None)
  | (raw, None) =>
      if negb (String.eqb (raw_Echo raw) "")
         || Online (raw_Status raw) || Good (raw_Status raw)
      then Some (c, None)
      else handleRawEvent c raw
  end.

(** [listen]: [reads] holds the results of the ReadMessage calls in order.
    The loop ends on a nil handle and on a read error, which closes and
    clears the handle; when [reads] runs out the listener is waiting in
    ReadMessage.  The bus calls made come back in order. *)
Fixpoint listen (c : OneBotChannel) (reads : list readResult)
  : option (OneBotChannel * list busCall) :=
  match reads with
  | [] => Some (c, [])
  | r :: rest =>
      match conn c with
      | None => Some (c, [])
      | Some _ =>
          match r with
          | ReadError _ => Some (listenReadError c, [])
          | ReadFrame message =>
              match listenFrame c message with
              | None => None
              | Some (c1, call) =>
                  match listen c1 rest with
                  | None => None
                  | Some (c2, calls) =>
                      Some (c2, match call with
                                | Some q => q :: calls
                                | None => calls
                                end)
                  end
              end
          end
      end
  end.

(** *** ConnectionSupervisor: the reconnect loop *)

(** [time.Second] in nanoseconds, the unit of time.Duration. *)
Definition Second : Z := 1000000000.

(** The tick interval of [reconnectLoop]:
    [time.Duration(c.config.ReconnectInterval) * time.Second], an int64
    product, raised to five seconds when below. *)
Definition reconnectInterval (cfg : OneBotConfig) : Z :=
  let interval := wrapInt64 (cfg_ReconnectInterval cfg * Second) in
  if interval <? 5 * Second then 5 * Second else interval.

(** One tick of [reconnectLoop]: a dial is made only when the handle is
    nil; [dial] is what it returned. *)
Definition reconnectTick (c : OneBotChannel) (dial : Conn + error)
  : OneBotChannel :=
  match conn c with
  | None => fst (connect c dial)
  | Some _ => c
  end.

(** ** Package utils: requests with retry *)

Module Utils.

Definition maxRetries : nat := 3.

Definition StatusOK : Z := 200.

Definition StatusTooManyRequests : Z := 429.

Definition shouldRetry (statusCode : Z) : bool :=
  (statusCode =? StatusTooManyRequests) || (500 <=? statusCode).

(** An *http.Response as far as the loop reads it; [resp_id] tells the
    responses of one run apart. *)
Record Response := mkResponse { resp_id : nat; StatusCode : Z }.

(** What [client.Do] returned: a response with a nil error, or an error,
    with which a response may still come. *)
Inductive doResult :=
| DoOk (resp : Response)
| DoErr (resp : option Response) (err : error).

(** What ended a [sleepWithCtx]. *)
Inductive sleepResult :=
| TimerFired
| CtxDone (err : error).

(** [sleepWithCtx]: [ctx.Err()] when the context ended first. *)
Definition sleepWithCtx (outcome : sleepResult) : option error :=
  match outcome with
  | TimerFired => None
  | CtxDone err => Some err
  end.

(** What a run of [DoRequestWithRetry] returned and did: the calls of
    [client.Do] made, the response bodies it closed and the sleeps it
    asked for, in nanoseconds, both in order. *)
Record retryRun := mkRun
  { run_resp : option Response;
    run_err : option error;
    run_attempts : nat;
    run_closed : list Response;
    run_slept : list Z }.

Section Retry.
(** The outcome of the [i]-th [client.Do] and of the sleep after it. *)
Variable do : nat → doResult.
Variable sleep : nat → sleepResult.

(** The loop [for i := range maxRetries] from turn [i] on, [n] turns
    being left; [resp] and [err] are the variables of that name. *)
Fixpoint retryLoop (n i : nat) (resp : option Response) (err : option error)
    (closed : list Response) (slept : list Z) : retryRun :=
  match n with
  | O => mkRun resp err i closed slept
  | S n' =>
      let closed :=
        match resp with
        | Some r => if (0 <? i)%nat then (closed ++ [r])%list else closed
        | None => closed
        end in
      let '(resp, err) :=
        match do i with
        | DoOk r => (Some r, None)
        | DoErr r e => (r, Some e)
        end in
      let done :=
        match resp, err with
        | Some r, None =>
            (StatusCode r =? StatusOK) || negb (shouldRetry (StatusCode r))
        | _, _ => false
        end in
      if done then mkRun resp err (S i) closed slept
      else if (i <? maxRetries - 1)%nat then
        let d := 1000000000 * Z.of_nat (i + 1) in
        match sleepWithCtx (sleep i) with
        | Some e =>
            mkRun None (Some (ErrorfWrap "failed to sleep: " e "")) (S i)
              closed (slept ++ [d])%list
        | None => retryLoop n' (S i) resp None closed (slept ++ [d])%list
        end
      else retryLoop n' (S i) resp err closed slept
  end.

Definition DoRequestWithRetry : retryRun :=
  retryLoop maxRetries 0 None None [] [].

End Retry.

End Utils.

(** ** Values and vocabulary of the statements *)

(** *** Wire values used in statements and examples *)

Definition dquote : string := String "034"%char "".

(** The JSON text of a string without characters to escape. *)
Definition quoted (s : string) : string := dquote ++ s ++ dquote.

(** The frame value ["s"]. *)
Definition rawString (s : string) : RawMessage := Raw (quoted s) (JString s).

(** The frame value of a number written [lit], printed [g] by [%v]. *)
Definition rawNumber (lit g : string) : RawMessage := Raw lit (JNumber lit (Some g)).

(** The frame value [null]. *)
Definition rawNull : RawMessage := Raw "null" JNull.

(** The frame value of an object with the given members, in order. *)
Definition rawObject (text : string) (members : list (string * RawMessage)) : RawMessage :=
  Raw text (JObject members).

(** A raw event with nothing but the given fields set. *)
Definition rawMessageEvent (messageType : string) (messageID userID groupID : RawMessage)
    (rawMessage : string) (message sender selfID : RawMessage) : oneBotRawEvent :=
  mkRawEvent "message" messageType "" messageID userID groupID rawMessage
    message sender selfID nilRaw "" "" nilRaw (mkBotStatus false false).

(** *** Vocabulary of the statements *)

(** A range error of strconv, the one failure on which ParseInt returns a
    value other than 0. *)
Definition isRangeError (e : error) : bool :=
  match e with
  | ErrNum (mkNumError _ _ ErrRange) => true
  | _ => false
  end.

(** A configured prefix that does not fire: empty, or not a prefix of the
    content. *)
Definition skipped (content prefix : string) : Prop :=
  prefix = "" ∨ HasPrefix content prefix = false.

(** The states a channel goes through: made by [NewOneBotChannel], then
    any run of de-duplication checks, message dispatches and connection or
    send operations. *)
Inductive reachable : OneBotChannel → Prop :=
| reach_new (cfg : OneBotConfig) : reachable (NewOneBotChannel cfg)
| reach_isDuplicate (c : OneBotChannel) (id : string) (b : bool) (c' : OneBotChannel) :
    reachable c → isDuplicate c id = Some (b, c') → reachable c'
| reach_op (c : OneBotChannel) (o : op) :
    reachable c → reachable (fst (applyOp c o)).

(** The invariant of the de-duplication state: a ring of [dedupSize]
    slots, the cursor inside it, the presence set holding exactly the
    non-empty slot contents, and no id in two slots. *)
Record dedupInv (c : OneBotChannel) : Prop := mkDedupInv
  { inv_len : length (dedupRing c) = dedupSize;
    inv_idx : (dedupIdx c < dedupSize)%nat;
    inv_set : ∀ x : string, x ∈ dedup c ↔ x ≠ "" ∧ x ∈ dedupRing c;
    inv_once : ∀ (i j : nat) (x : string),
        dedupRing c !! i = Some x → dedupRing c !! j = Some x → x ≠ "" → i = j }.

(** An id the window treats as an id. *)
Definition validID (id : string) : Prop := id ≠ "" ∧ id ≠ "0".

#[global] Instance validID_dec (id : string) : Decision (validID id).
Proof. unfold validID. apply _. Defined.

#[global] Instance skipped_dec (content prefix : string) :
  Decision (skipped content prefix).
Proof. unfold skipped. apply _. Defined.

(** The state an inserting call leaves when the slot under the cursor held
    [old]: the body of [isDuplicate] after its two early returns. *)
Definition inserted (c : OneBotChannel) (id old : string) : OneBotChannel :=
  setDedup c
    ({[id]} ∪ (if String.eqb old "" then dedup c else dedup c ∖ {[old]}))
    (<[dedupIdx c := id]> (dedupRing c))
    ((dedupIdx c + 1) mod length (dedupRing c))%nat.

(** A wire value that stands for an integer, in the words of the
    FlexibleDecoder contract: absent, null, a number or a string, the last
    two with a literal or content that ParseInt accepts. *)
Definition coercibleInt64 (raw : RawMessage) : Prop :=
  bytes_of raw = ""
  ∨ match shape_of raw with
    | JNull => True
    | JNumber lit _ => snd (ParseInt lit) = None
    | JString s => snd (ParseInt s) = None
    | _ => False
    end.

#[global] Instance coercibleInt64_dec (raw : RawMessage) :
  Decision (coercibleInt64 raw).
Proof.
  unfold coercibleInt64. destruct (shape_of raw); apply _.
Defined.

(** The two strings a sender object can set: each is empty or the value of
    a string member whose key folds to the field name. *)
Definition fromMember (field : string) (value : string)
    (members : list (string * RawMessage)) : Prop :=
  value = ""
  ∨ ∃ (k b : string), (k, Raw b (JString value)) ∈ members ∧ foldName k = field.

(** The slot [d] places ahead of the cursor: the one the [(d+1)]-th
    insertion from now overwrites. *)
Definition slotAhead (c : OneBotChannel) (d : nat) : nat :=
  ((dedupIdx c + d) mod length (dedupRing c))%nat.

(** The number of calls of a run that were answered "not a duplicate";
    only those can insert. *)
Fixpoint notDuplicates (bs : list bool) : nat :=
  match bs with
  | [] => 0%nat
  | b :: rest => ((if b then 0 else 1) + notDuplicates rest)%nat
  end.

(** [n] ids that differ from each other: m1, m2, ... *)
Definition freshIDs (n : nat) : list string :=
  map (fun k => "m" ++ FormatInt (Z.of_nat k)) (seq 1 n).

(** A configuration to run examples on. *)
Definition exampleConfig : OneBotConfig :=
  mkConfig "ws://127.0.0.1:3001" "" 5 ["!bot "].

(** A normalized group event with the given id and content. *)
Definition exampleEvent (messageID content : string) : oneBotEvent :=
  mkEvent "message" "group" "" messageID 123 456 content content false
    zeroSender 42 0 "".

(** The sender object {"nickname":"bob","card":5}: the card is not a
    string. *)
Definition senderBadCard : RawMessage :=
  rawObject ("{" ++ quoted "nickname" ++ ":" ++ quoted "bob" ++ ","
             ++ quoted "card" ++ ":5}")
    [("nickname", rawString "bob"); ("card", rawNumber "5" "5")].

(** A group message whose group_id is the string "9223372036854775808",
    one above the largest int64, and whose sender is [senderBadCard]. *)
Definition overflowEvent : oneBotRawEvent :=
  rawMessageEvent "group" (rawNumber "1" "1") (rawNumber "123" "123")
    (rawString "9223372036854775808") "hi" (rawString "hi") senderBadCard
    (rawNumber "42" "42").

(** A group message to bot 42 whose raw_message and message fields
    differ. *)
Definition mentionEvent : oneBotRawEvent :=
  rawMessageEvent "group" (rawNumber "7" "7") (rawNumber "123" "123")
    (rawNumber "456" "456") "[CQ:at,qq=42] hi " (rawString "other") nilRaw
    (rawNumber "42" "42").

(** The same message without a raw_message field. *)
Definition structuredEvent : oneBotRawEvent :=
  rawMessageEvent "group" (rawNumber "7" "7") (rawNumber "123" "123")
    (rawNumber "456" "456") "" (rawString "other") nilRaw
    (rawNumber "42" "42").

(** Start on connection 1, a send, a read error, a reconnect as connection
    2, a second send. *)
Definition reconnectTrace : list op :=
  [ OpStart (inl 1%nat);
    OpSend (mkOutbound "private:123" "one") None;
    OpReadError;
    OpConnect (inl 2%nat);
    OpSend (mkOutbound "private:123" "two") None ].

(** *** Vocabulary of the listener and dispatcher statements *)

(** An int64 value. *)
Definition int64 (n : Z) : Prop := - 2 ^ 63 <= n < 2 ^ 63.

(** The event a frame brings to [handleMessage], when it gets that far:
    the frame decodes, is no API response, is a message event and
    normalises. *)
Definition frameEvent (message : RawMessage) : option oneBotEvent :=
  match Unmarshal_rawEvent message zeroRawEvent with
  | (raw, None) =>
      if negb (String.eqb (raw_Echo raw) "")
         || Online (raw_Status raw) || Good (raw_Status raw)
      then None
      else if String.eqb (raw_PostType raw) "message" then
        match normalizeMessageEvent raw with
        | inl evt => Some evt
        | inr _ => None
        end
      else None
  | (_, Some _) => None
  end.

(** An operation that calls [Start]. *)
Definition isStart (o : op) : bool :=
  match o with
  | OpStart _ => true
  | _ => false
  end.

(** An operation whose dial gives a connection. *)
Definition dials (o : op) : bool :=
  match o with
  | OpStart (inl _) | OpConnect (inl _) => true
  | _ => false
  end.







(** A string of ASCII characters only. *)
Definition asciiOnly (s : string) : Prop :=
  Forall (fun a => byte a < 0x80) (list_ascii_of_string s).

(** An attempt that ends the retry loop: a response without error whose
    status is 200 or not worth a retry. *)
Definition isFinal (r : Utils.doResult) : bool :=
  match r with
  | Utils.DoOk resp =>
      (Utils.StatusCode resp =? Utils.StatusOK)
      || negb (Utils.shouldRetry (Utils.StatusCode resp))
  | Utils.DoErr _ _ => false
  end.

(** The response an attempt came with. *)
Definition responseOf (r : Utils.doResult) : option Utils.Response :=
  match r with
  | Utils.DoOk resp => Some resp
  | Utils.DoErr resp _ => resp
  end.

(** The error an attempt came with. *)
Definition errorOf (r : Utils.doResult) : option error :=
  match r with
  | Utils.DoOk _ => None
  | Utils.DoErr _ err => Some err
  end.

(** A server that answers every request with the same status. *)
Definition alwaysStatus (status : Z) (i : nat) : Utils.doResult :=
  Utils.DoOk (Utils.mkResponse i status).

(** A server that answers 503 and then, from the second request on, 200. *)
Definition recovering (i : nat) : Utils.doResult :=
  Utils.DoOk (Utils.mkResponse i (if (i =? 0)%nat then 503 else 200)).

(** A normalized private event from user 123 with the given id and
    content. *)
Definition privateEvent (messageID content : string) : oneBotEvent :=
  mkEvent "message" "private" "" messageID 123 0 content content false
    zeroSender 42 0 "".

(** A raw private message from user 123 whose id, the number 0, means
    "no id". *)
Definition unnumberedEvent : oneBotRawEvent :=
  rawMessageEvent "private" (rawNumber "0" "0") (rawNumber "123" "123") nilRaw
    "hello" nilRaw nilRaw (rawNumber "42" "42").


(** The private message frame
    {"post_type":"message","message_type":"private","message_id":id,
     "user_id":123,"raw_message":text,"self_id":42}. *)
Definition privateFrame (id text : string) : RawMessage :=
  rawObject ("{" ++ quoted "post_type" ++ ":" ++ quoted "message" ++ ","
             ++ quoted "message_type" ++ ":" ++ quoted "private" ++ ","
             ++ quoted "message_id" ++ ":" ++ id ++ ","
             ++ quoted "user_id" ++ ":123,"
             ++ quoted "raw_message" ++ ":" ++ quoted text ++ ","
             ++ quoted "self_id" ++ ":42}")
    [("post_type", rawString "message");
     ("message_type", rawString "private");
     ("message_id", rawNumber id id);
     ("user_id", rawNumber "123" "123");
     ("raw_message", rawString text);
     ("self_id", rawNumber "42" "42")].

(** The API response frame {"status":"ok","retcode":0,"echo":"send_1"}. *)
Definition responseFrame : RawMessage :=
  rawObject ("{" ++ quoted "status" ++ ":" ++ quoted "ok" ++ ","
             ++ quoted "retcode" ++ ":0," ++ quoted "echo" ++ ":"
             ++ quoted "send_1" ++ "}")
    [("status", rawString "ok"); ("retcode", rawNumber "0" "0");
     ("echo", rawString "send_1")].

(** A new channel after a [Start] that connected. *)
Definition startedChannel : OneBotChannel :=
  fst (Start (NewOneBotChannel exampleConfig) (inl 1%nat)).

(** * Properties *)

(** ** Strings *)

Lemma append_cons (a : ascii) (s t : string) :
  String a s ++ t = String a (s ++ t).
Proof. reflexivity. Qed.

Lemma append_empty (t : string) : "" ++ t = t.
Proof. reflexivity. Qed.

Lemma take_drop (n : nat) (s : string) : take n s ++ drop n s = s.
Proof.
  revert s; induction n as [|n IH]; intros [|a r]; try reflexivity.
  cbn [take drop]. now rewrite append_cons, IH.
Qed.

Lemma len_app (s t : string) : len (s ++ t) = (len s + len t)%nat.
Proof.
  unfold len. induction s as [|a s IH]; [reflexivity|].
  rewrite append_cons. cbn [String.length]. lia.
Qed.

Lemma HasPrefix_app (p s : string) : HasPrefix (p ++ s) p = true.
Proof.
  unfold HasPrefix. induction p as [|a p IH].
  - now destruct s.
  - rewrite append_cons. cbn [String.prefix].
    destruct (ascii_dec a a); [exact IH | congruence].
Qed.

Lemma drop_app (p s : string) : drop (len p) (p ++ s) = s.
Proof. induction p as [|a p IH]; [reflexivity | exact IH]. Qed.

(** ** strconv.ParseInt *)

Lemma ParseInt_empty : snd (ParseInt "") ≠ None.
Proof. discriminate. Qed.

Lemma ParseInt_ok_nonempty (s : string) (n : Z) :
  ParseInt s = (n, None) → s ≠ "".
Proof. intros H ->. discriminate H. Qed.

(** A string that starts with a letter is no decimal integer. *)
Lemma ParseInt_letter (a : ascii) (r : string) :
  97 <= byte a <= 122 → snd (ParseInt (String a r)) ≠ None.
Proof.
  intros Ha. unfold ParseInt.
  assert (E1 : (byte a =? 45) = false) by lia.
  assert (E2 : (byte a =? 43) = false) by lia.
  rewrite E1, E2. cbn [orb]. unfold ParseUint. cbn [parseUintLoop].
  unfold digitOf.
  assert (E3 : (48 <=? byte a) && (byte a <=? 57) = false) by lia.
  rewrite E3.
  assert (E4 : lower (byte a) = byte a).
  { clear -Ha. revert Ha. unfold lower, byte.
    destruct a as [[] [] [] [] [] [] [] []]; vm_compute; intros [H1 H2];
      first [ reflexivity
            | exfalso; apply H1; reflexivity
            | exfalso; apply H2; reflexivity ]. }
  rewrite E4.
  assert (E5 : (97 <=? byte a) && (byte a <=? 122) = true) by lia.
  rewrite E5.
  assert (E6 : (10 <=? byte a - 97 + 10) = true) by lia.
  rewrite E6. discriminate.
Qed.

(** One turn of the ParseUint loop on a decimal digit that fits. *)
Lemma parseUintLoop_step (s0 : string) (c : ascii) (r : string) (n d : Z) :
  digitOf (byte c) = Some d → 0 <= d < 10 → 0 <= n →
  n * 10 + d <= maxUint64 →
  parseUintLoop s0 (String c r) n = parseUintLoop s0 r (n * 10 + d).
Proof.
  intros Hd Hr Hn Hmax. cbn [parseUintLoop]. rewrite Hd.
  unfold maxUint64 in *. change (2 ^ 64) with 18446744073709551616 in *.
  replace (10 <=? d) with false by lia.
  replace (18446744073709551616 - 1) with 18446744073709551615 in * by lia.
  change (18446744073709551615 / 10 + 1) with 1844674407370955162.
  replace (1844674407370955162 <=? n) with false by lia.
  cbv zeta. rewrite Z.mod_small by lia.
  replace (n * 10 + d <? n * 10) with false by lia.
  replace (18446744073709551615 <? n * 10 + d) with false by lia.
  reflexivity.
Qed.

Lemma of_uint_acc_mono (d : Decimal.uint) (acc : positive) :
  (acc <= Pos.of_uint_acc d acc)%positive.
Proof.
  revert acc. induction d as [|d IH|d IH|d IH|d IH|d IH|d IH|d IH|d IH|d IH|d IH];
    intros acc; cbn [Pos.of_uint_acc]; [lia|..];
    match goal with |- (_ <= Pos.of_uint_acc _ ?a)%positive =>
      specialize (IH a); lia end.
Qed.

Ltac digit_step IH :=
  match goal with
  | |- parseUintLoop ?s0 (String ?c ?r) ?n = (Z.pos (Pos.of_uint_acc ?d ?a), None) =>
      pose proof (of_uint_acc_mono d a);
      let v := eval vm_compute in (digitOf (byte c)) in
      match v with
      | Some ?k =>
          rewrite (parseUintLoop_step s0 c r n k)
            by (first [reflexivity | unfold maxUint64 in *; lia]);
          replace (n * 10 + k) with (Z.pos a) by lia;
          apply IH; assumption
      end
  end.

(** The loop reads back the digits of a decimal numeral. *)
Lemma parseUintLoop_digits (s0 : string) (d : Decimal.uint) (acc : positive) :
  Z.pos (Pos.of_uint_acc d acc) <= maxUint64 →
  parseUintLoop s0 (NilEmpty.string_of_uint d) (Z.pos acc)
  = (Z.pos (Pos.of_uint_acc d acc), None).
Proof.
  revert acc. induction d as [|d IH|d IH|d IH|d IH|d IH|d IH|d IH|d IH|d IH|d IH];
    intros acc Hmax; cbn [Pos.of_uint_acc NilEmpty.string_of_uint] in *;
    [reflexivity | digit_step IH ..].
Qed.

Lemma parseUintLoop_numeral (s0 : string) (d : Decimal.uint) :
  Z.of_N (Pos.of_uint d) <= maxUint64 →
  parseUintLoop s0 (NilEmpty.string_of_uint d) 0 = (Z.of_N (Pos.of_uint d), None).
Proof.
  induction d as [|d IH|d IH|d IH|d IH|d IH|d IH|d IH|d IH|d IH|d IH];
    intros Hmax; cbn [Pos.of_uint NilEmpty.string_of_uint Z.of_N] in *;
    [reflexivity | | ..].
  - rewrite (parseUintLoop_step s0 _ _ 0 0) by (first [reflexivity | unfold maxUint64; lia]).
    now apply IH.
  - pose proof (of_uint_acc_mono d 1).
    rewrite (parseUintLoop_step s0 _ _ 0 1) by (first [reflexivity | lia]).
    now apply parseUintLoop_digits.
  - pose proof (of_uint_acc_mono d 2).
    rewrite (parseUintLoop_step s0 _ _ 0 2) by (first [reflexivity | lia]).
    now apply parseUintLoop_digits.
  - pose proof (of_uint_acc_mono d 3).
    rewrite (parseUintLoop_step s0 _ _ 0 3) by (first [reflexivity | lia]).
    now apply parseUintLoop_digits.
  - pose proof (of_uint_acc_mono d 4).
    rewrite (parseUintLoop_step s0 _ _ 0 4) by (first [reflexivity | lia]).
    now apply parseUintLoop_digits.
  - pose proof (of_uint_acc_mono d 5).
    rewrite (parseUintLoop_step s0 _ _ 0 5) by (first [reflexivity | lia]).
    now apply parseUintLoop_digits.
  - pose proof (of_uint_acc_mono d 6).
    rewrite (parseUintLoop_step s0 _ _ 0 6) by (first [reflexivity | lia]).
    now apply parseUintLoop_digits.
  - pose proof (of_uint_acc_mono d 7).
    rewrite (parseUintLoop_step s0 _ _ 0 7) by (first [reflexivity | lia]).
    now apply parseUintLoop_digits.
  - pose proof (of_uint_acc_mono d 8).
    rewrite (parseUintLoop_step s0 _ _ 0 8) by (first [reflexivity | lia]).
    now apply parseUintLoop_digits.
  - pose proof (of_uint_acc_mono d 9).
    rewrite (parseUintLoop_step s0 _ _ 0 9) by (first [reflexivity | lia]).
    now apply parseUintLoop_digits.
Qed.

(** The numeral of a positive number: not empty, and it starts with a
    digit. *)
Lemma numeral_head (p : positive) :
  ∃ c r, NilEmpty.string_of_uint (Pos.to_uint p) = String c r
         ∧ 48 <= byte c <= 57.
Proof.
  pose proof (Unsigned.to_uint_nonnil p) as Hn.
  destruct (Pos.to_uint p); [congruence | ..];
    cbn [NilEmpty.string_of_uint]; eexists _, _; (split; [reflexivity | vm_compute; intuition congruence]).
Qed.

Lemma ParseUint_numeral (p : positive) :
  Z.pos p <= maxUint64 →
  ParseUint (NilEmpty.string_of_uint (Pos.to_uint p)) = (Z.pos p, None).
Proof.
  intros Hmax. destruct (numeral_head p) as (c & r & E & _).
  unfold ParseUint. rewrite E at 1. rewrite parseUintLoop_numeral.
  - now rewrite Unsigned.of_to.
  - now rewrite Unsigned.of_to.
Qed.

(** ParseInt reads back what FormatInt prints, for every int64. *)
Lemma ParseInt_FormatInt (n : Z) :
  - 2 ^ 63 <= n < 2 ^ 63 → ParseInt (FormatInt n) = (n, None).
Proof.
  intros Hn. unfold FormatInt. destruct n as [|p|p]; [reflexivity | |].
  - cbn [Z.to_int NilZero.string_of_int]. unfold NilZero.string_of_uint.
    pose proof (Unsigned.to_uint_nonnil p) as Hnil.
    replace (match Pos.to_uint p with Decimal.Nil => "0" | _ => NilEmpty.string_of_uint (Pos.to_uint p) end)
      with (NilEmpty.string_of_uint (Pos.to_uint p)) by (destruct (Pos.to_uint p); congruence).
    destruct (numeral_head p) as (c & r & E & Hc).
    unfold ParseInt. rewrite E. rewrite <- E.
    replace (byte c =? 45) with false by lia.
    replace (byte c =? 43) with false by lia. cbn [orb].
    rewrite ParseUint_numeral by (unfold maxUint64; lia).
    replace (2 ^ 63 <=? Z.pos p) with false by lia. reflexivity.
  - cbn [Z.to_int NilZero.string_of_int]. unfold NilZero.string_of_uint.
    pose proof (Unsigned.to_uint_nonnil p) as Hnil.
    replace (match Pos.to_uint p with Decimal.Nil => "0" | _ => NilEmpty.string_of_uint (Pos.to_uint p) end)
      with (NilEmpty.string_of_uint (Pos.to_uint p)) by (destruct (Pos.to_uint p); congruence).
    unfold ParseInt. change (byte "-" =? 45) with true.
    change (byte "-" =? 43) with false. cbn [orb negb andb].
    rewrite ParseUint_numeral by (unfold maxUint64; lia).
    replace (2 ^ 63 <? Z.pos p) with false by lia. reflexivity.
Qed.

Lemma FormatInt_inj (n m : Z) : FormatInt n = FormatInt m → n = m.
Proof.
  unfold FormatInt. intros E.
  assert (Hnil : ∀ z, Z.to_int z ≠ Decimal.Pos Decimal.Nil
                      ∧ Z.to_int z ≠ Decimal.Neg Decimal.Nil).
  { intros [|p|p]; cbn [Z.to_int]; split; try discriminate;
      intros [= H]; now apply (Unsigned.to_uint_nonnil p). }
  apply (f_equal NilZero.int_of_string) in E.
  rewrite !NilZero.isi in E by apply Hnil.
  injection E as E. now apply DecimalZ.to_int_inj.
Qed.

(** One turn of the ParseUint loop on a decimal digit that takes the value
    beyond uint64. *)
Lemma parseUintLoop_overflow (s0 : string) (c : ascii) (r : string) (n d : Z) :
  digitOf (byte c) = Some d → 0 <= d < 10 → 0 <= n <= maxUint64 →
  maxUint64 < n * 10 + d →
  parseUintLoop s0 (String c r) n
  = (maxUint64, Some (mkNumError "ParseUint" s0 ErrRange)).
Proof.
  intros Hd Hr Hn Hmax. cbn [parseUintLoop]. rewrite Hd.
  unfold maxUint64 in *. change (2 ^ 64) with 18446744073709551616 in *.
  replace (10 <=? d) with false by lia.
  replace (18446744073709551616 - 1) with 18446744073709551615 in * by lia.
  change (18446744073709551615 / 10 + 1) with 1844674407370955162.
  destruct (1844674407370955162 <=? n) eqn:E; [reflexivity|].
  apply Z.leb_gt in E. cbv zeta.
  replace ((n * 10 + d) mod 18446744073709551616)
    with (n * 10 + d - 18446744073709551616).
  2:{ symmetry. rewrite <- (Z.mod_small (n * 10 + d - 18446744073709551616)
                              18446744073709551616) by lia.
      replace (n * 10 + d) with (n * 10 + d - 18446744073709551616
                                 + 1 * 18446744073709551616) at 1 by lia.
      now rewrite Z.mod_add by lia. }
  replace (n * 10 + d - 18446744073709551616 <? n * 10) with true by lia.
  reflexivity.
Qed.

Ltac overflow_step IH :=
  match goal with
  | H : maxUint64 < Z.pos (Pos.of_uint_acc ?d ?a)
    |- parseUintLoop ?s0 (String ?c ?r) ?n = _ =>
      let v := eval vm_compute in (digitOf (byte c)) in
      match v with
      | Some ?k =>
          destruct (Z_le_gt_dec (n * 10 + k) maxUint64);
          [ rewrite (parseUintLoop_step s0 c r n k)
              by (first [reflexivity | unfold maxUint64 in *; lia]);
            replace (n * 10 + k) with (Z.pos a) in * by lia;
            apply IH; assumption
          | apply (parseUintLoop_overflow s0 c r n k);
            first [reflexivity | unfold maxUint64 in *; lia] ]
      end
  end.

(** The loop stops with a range error on a numeral beyond uint64. *)
Lemma parseUintLoop_digits_overflow (s0 : string) (d : Decimal.uint) (acc : positive) :
  Z.pos acc <= maxUint64 →
  maxUint64 < Z.pos (Pos.of_uint_acc d acc) →
  parseUintLoop s0 (NilEmpty.string_of_uint d) (Z.pos acc)
  = (maxUint64, Some (mkNumError "ParseUint" s0 ErrRange)).
Proof.
  revert acc. induction d as [|d IH|d IH|d IH|d IH|d IH|d IH|d IH|d IH|d IH|d IH];
    intros acc Hacc Hmax; cbn [Pos.of_uint_acc NilEmpty.string_of_uint] in *;
    [lia | overflow_step IH ..].
Qed.

Lemma parseUintLoop_numeral_overflow (s0 : string) (d : Decimal.uint) :
  maxUint64 < Z.of_N (Pos.of_uint d) →
  parseUintLoop s0 (NilEmpty.string_of_uint d) 0
  = (maxUint64, Some (mkNumError "ParseUint" s0 ErrRange)).
Proof.
  assert (Hm : 9 < maxUint64) by (unfold maxUint64; lia).
  induction d as [|d IH|d IH|d IH|d IH|d IH|d IH|d IH|d IH|d IH|d IH];
    intros Hmax; cbn [Pos.of_uint NilEmpty.string_of_uint Z.of_N] in *;
    [lia | | ..].
  - rewrite (parseUintLoop_step s0 _ _ 0 0) by (first [reflexivity | lia]).
    now apply IH.
  - rewrite (parseUintLoop_step s0 _ _ 0 1) by (first [reflexivity | lia]).
    apply parseUintLoop_digits_overflow; [lia | exact Hmax].
  - rewrite (parseUintLoop_step s0 _ _ 0 2) by (first [reflexivity | lia]).
    apply parseUintLoop_digits_overflow; [lia | exact Hmax].
  - rewrite (parseUintLoop_step s0 _ _ 0 3) by (first [reflexivity | lia]).
    apply parseUintLoop_digits_overflow; [lia | exact Hmax].
  - rewrite (parseUintLoop_step s0 _ _ 0 4) by (first [reflexivity | lia]).
    apply parseUintLoop_digits_overflow; [lia | exact Hmax].
  - rewrite (parseUintLoop_step s0 _ _ 0 5) by (first [reflexivity | lia]).
    apply parseUintLoop_digits_overflow; [lia | exact Hmax].
  - rewrite (parseUintLoop_step s0 _ _ 0 6) by (first [reflexivity | lia]).
    apply parseUintLoop_digits_overflow; [lia | exact Hmax].
  - rewrite (parseUintLoop_step s0 _ _ 0 7) by (first [reflexivity | lia]).
    apply parseUintLoop_digits_overflow; [lia | exact Hmax].
  - rewrite (parseUintLoop_step s0 _ _ 0 8) by (first [reflexivity | lia]).
    apply parseUintLoop_digits_overflow; [lia | exact Hmax].
  - rewrite (parseUintLoop_step s0 _ _ 0 9) by (first [reflexivity | lia]).
    apply parseUintLoop_digits_overflow; [lia | exact Hmax].
Qed.

Lemma ParseUint_numeral_overflow (p : positive) :
  maxUint64 < Z.pos p →
  ParseUint (NilEmpty.string_of_uint (Pos.to_uint p))
  = (maxUint64,
     Some (mkNumError "ParseUint" (NilEmpty.string_of_uint (Pos.to_uint p)) ErrRange)).
Proof.
  intros Hmax. destruct (numeral_head p) as (c & r & E & _).
  unfold ParseUint. rewrite E at 1.
  rewrite parseUintLoop_numeral_overflow by (now rewrite Unsigned.of_to).
  reflexivity.
Qed.

(** A decimal integer outside int64 is a range error, with the bound on
    its side. *)
Lemma ParseInt_FormatInt_range (n : Z) :
  ¬ (- 2 ^ 63 <= n < 2 ^ 63) →
  ParseInt (FormatInt n)
  = (if n <? 0 then - 2 ^ 63 else 2 ^ 63 - 1,
     Some (mkNumError "ParseInt" (FormatInt n) ErrRange)).
Proof.
  intros Hn. unfold FormatInt. destruct n as [|p|p]; [lia | |].
  - cbn [Z.to_int NilZero.string_of_int]. unfold NilZero.string_of_uint.
    pose proof (Unsigned.to_uint_nonnil p) as Hnil.
    replace (match Pos.to_uint p with Decimal.Nil => "0" | _ => NilEmpty.string_of_uint (Pos.to_uint p) end)
      with (NilEmpty.string_of_uint (Pos.to_uint p)) by (destruct (Pos.to_uint p); congruence).
    destruct (numeral_head p) as (c & r & E & Hc).
    unfold ParseInt. rewrite E. rewrite <- E.
    replace (byte c =? 45) with false by lia.
    replace (byte c =? 43) with false by lia. cbn [orb negb andb].
    replace (Z.pos p <? 0) with false by lia.
    destruct (Z_le_gt_dec (Z.pos p) maxUint64).
    + rewrite ParseUint_numeral by assumption.
      replace (2 ^ 63 <=? Z.pos p) with true by lia. reflexivity.
    + rewrite ParseUint_numeral_overflow by lia. reflexivity.
  - cbn [Z.to_int NilZero.string_of_int]. unfold NilZero.string_of_uint.
    pose proof (Unsigned.to_uint_nonnil p) as Hnil.
    replace (match Pos.to_uint p with Decimal.Nil => "0" | _ => NilEmpty.string_of_uint (Pos.to_uint p) end)
      with (NilEmpty.string_of_uint (Pos.to_uint p)) by (destruct (Pos.to_uint p); congruence).
    unfold ParseInt. change (byte "-" =? 45) with true.
    change (byte "-" =? 43) with false. cbn [orb negb andb].
    change (Z.neg p <? 0) with true. cbv iota.
    destruct (Z_le_gt_dec (Z.pos p) maxUint64).
    + rewrite ParseUint_numeral by assumption.
      replace (2 ^ 63 <? Z.pos p) with true by lia. reflexivity.
    + rewrite ParseUint_numeral_overflow by lia. reflexivity.
Qed.

(** ** C1: the integer-target flexible decoder *)

Lemma len_zero (s : string) : (len s =? 0)%nat = true ↔ s = "".
Proof. destruct s; cbn; split; congruence. Qed.

Lemma len_nonzero (s : string) : s ≠ "" → (len s =? 0)%nat = false.
Proof. destruct s; cbn; congruence. Qed.

Lemma FormatInt_nonempty (n : Z) : FormatInt n ≠ "".
Proof.
  unfold FormatInt. destruct n as [|p|p]; cbn; try discriminate.
  unfold NilZero.string_of_uint.
  pose proof (Unsigned.to_uint_nonnil p). destruct (Pos.to_uint p); cbn; congruence.
Qed.

(** The decoder succeeds exactly on the wire values the contract calls
    coercible. *)
Lemma parseJSONInt64_coercible (raw : RawMessage) :
  snd (parseJSONInt64 raw) = None ↔ coercibleInt64 raw.
Proof.
  destruct raw as [b sh]. unfold parseJSONInt64, coercibleInt64.
  cbn [bytes_of shape_of].
  destruct (len b =? 0)%nat eqn:Hlen.
  { apply len_zero in Hlen as ->. cbn. intuition. }
  assert (Hb : b ≠ "") by (intros ->; discriminate Hlen).
  unfold Unmarshal_int64, Unmarshal_string. cbn [shape_of].
  destruct sh as [| |x|lit g|s|l|m]; cbn [snd];
    try (split; [discriminate | intros [H|H]; [congruence | contradiction]]).
  - split; [now right | reflexivity].
  - destruct (ParseInt lit) as [v [e|]]; cbn [snd].
    + split; [discriminate | intros [H|H]; [congruence | discriminate H]].
    + split; [now right | reflexivity].
  - destruct (ParseInt s) as [v [e|]]; cbn [snd option_map].
    + split; [discriminate | intros [H|H]; [congruence | discriminate H]].
    + split; [now right | reflexivity].
Qed.

(** C1 (amended: the string content is parsed as it stands, not trimmed,
    and only a number whose literal is a decimal int64 is taken).  An
    absent or null value gives 0 without error.  A JSON number gives what
    ParseInt reads from its literal, so every int64 written in decimal
    gives itself, and a literal ParseInt rejects (fraction, exponent, out
    of range) gives the "cannot parse" error.  A JSON string gives the
    result of ParseInt on its content, untrimmed.  An error comes back
    exactly when the direct numeric decode fails and the string path fails
    too, in its decode or in its parse; that is, exactly when the value is
    not coercible. *)
Theorem C1_parseJSONInt64 (raw : RawMessage) :
  (bytes_of raw = "" ∨ shape_of raw = JNull → parseJSONInt64 raw = (0, None))
  ∧ (∀ lit g, bytes_of raw ≠ "" → shape_of raw = JNumber lit g →
       (∀ n, ParseInt lit = (n, None) → parseJSONInt64 raw = (n, None))
       ∧ (snd (ParseInt lit) ≠ None →
          parseJSONInt64 raw
          = (0, Some (Errorf ("cannot parse as int64: " ++ bytes_of raw)))))
  ∧ (∀ s, bytes_of raw ≠ "" → shape_of raw = JString s →
       parseJSONInt64 raw = (fst (ParseInt s), option_map ErrNum (snd (ParseInt s))))
  ∧ (snd (parseJSONInt64 raw) ≠ None
     ↔ bytes_of raw ≠ ""
       ∧ snd (Unmarshal_int64 raw 0) ≠ None
       ∧ (snd (Unmarshal_string raw "") ≠ None
          ∨ snd (ParseInt (fst (Unmarshal_string raw ""))) ≠ None))
  ∧ (snd (parseJSONInt64 raw) = None ↔ coercibleInt64 raw)
  ∧ (∀ n g, - 2 ^ 63 <= n < 2 ^ 63 →
       parseJSONInt64 (rawNumber (FormatInt n) g) = (n, None)
       ∧ parseJSONInt64 (rawString (FormatInt n)) = (n, None)).
Proof.
  split; [|split; [|split; [|split; [|split; [apply parseJSONInt64_coercible|]]]]];
    destruct raw as [b sh]; cbn [bytes_of shape_of]; unfold parseJSONInt64;
    cbn [bytes_of].
  - intros [-> | ->]; [reflexivity|]. destruct (len b =? 0)%nat; reflexivity.
  - intros lit g Hb ->. rewrite (len_nonzero _ Hb).
    unfold Unmarshal_int64, Unmarshal_string. cbn [shape_of]. split.
    + intros n ->. reflexivity.
    + intros He. destruct (ParseInt lit) as [v [e|]]; [reflexivity | now elim He].
  - intros s Hb ->. rewrite (len_nonzero _ Hb).
    unfold Unmarshal_int64, Unmarshal_string. cbn [shape_of].
    destruct (ParseInt s) as [v e]. reflexivity.
  - destruct (len b =? 0)%nat eqn:Hlen.
    { apply len_zero in Hlen as ->. cbn. intuition congruence. }
    assert (Hb : b ≠ "") by (intros ->; discriminate Hlen).
    unfold Unmarshal_int64, Unmarshal_string. cbn [shape_of].
    destruct sh as [| |x|lit g|s|l|m]; cbn [fst snd];
      try (split; [intros _; repeat split; try assumption; try discriminate; left; discriminate
                  | intros _; discriminate]).
    + split; [intros H; now elim H | intros (_ & H & _); now elim H].
    + destruct (ParseInt lit) as [v [e|]]; cbn [snd].
      * split; [intros _; repeat split; try assumption; try discriminate; left; discriminate
               | intros _; discriminate].
      * split; [intros H; now elim H | intros (_ & H & _); now elim H].
    + destruct (ParseInt s) as [v [e|]]; cbn [snd option_map].
      * split; [intros _; repeat split; try assumption; try discriminate; right; discriminate
               | intros _; discriminate].
      * split; [intros H; now elim H | intros (_ & _ & [H | H]); now elim H].
  - intros n g Hn. pose proof (ParseInt_FormatInt n Hn) as Hp.
    pose proof (FormatInt_nonempty n) as Hne. split.
    + unfold rawNumber. cbn [bytes_of]. rewrite (len_nonzero _ Hne).
      unfold Unmarshal_int64. cbn [shape_of]. now rewrite Hp.
    + unfold rawString. cbn [bytes_of].
      replace (len (quoted (FormatInt n)) =? 0)%nat with false by reflexivity.
      unfold Unmarshal_int64, Unmarshal_string. cbn [shape_of].
      now rewrite Hp.
Qed.

(** The decoder on 5, "5", an absent value and "abc". *)
Lemma C1_parseJSONInt64_witness :
  parseJSONInt64 (rawNumber "5" "5") = (5, None)
  ∧ parseJSONInt64 (rawString "5") = (5, None)
  ∧ parseJSONInt64 nilRaw = (0, None)
  ∧ snd (parseJSONInt64 (rawString "abc")) ≠ None.
Proof.
  destruct (C1_parseJSONInt64 (rawNumber "5" "5")) as (_ & Hnum & _).
  destruct (C1_parseJSONInt64 (rawString "5")) as (_ & _ & Hstr & _).
  destruct (C1_parseJSONInt64 nilRaw) as (Hnil & _).
  destruct (C1_parseJSONInt64 (rawString "abc")) as (_ & _ & _ & Herr & _).
  split; [|split; [|split]].
  - apply (Hnum "5" (Some "5")); [discriminate | reflexivity | reflexivity].
  - apply (Hstr "5"); [discriminate | reflexivity].
  - apply Hnil. now left.
  - apply Herr. split; [discriminate | split; [discriminate | right; discriminate]].
Defined.

(** C1 as stated fails on a string with surrounding white space: the
    trimmed content of " 5" would parse to 5, the decoder reports a syntax
    error.  It also fails on the JSON number 1.5, which gives an error and
    not that number. *)
Lemma C1_trimmed_counterexample :
  ParseInt (TrimSpace " 5") = (5, None)
  ∧ parseJSONInt64 (rawString " 5")
    = (0, Some (ErrNum (mkNumError "ParseInt" " 5" ErrSyntax)))
  ∧ parseJSONInt64 (rawNumber "1.5" "1.5")
    = (0, Some (Errorf "cannot parse as int64: 1.5")).
Proof. repeat split. Qed.

(** ** C5: what makes normalisation fail *)

(** ParseInt returns a value other than 0 with an error only for a range
    error, and then the nearest int64 bound. *)
Lemma ParseInt_error_value (s : string) (v : Z) (ne : NumError) :
  ParseInt s = (v, Some ne) →
  match ne_Err ne with
  | ErrSyntax => v = 0
  | ErrRange => v = 2 ^ 63 - 1 ∨ v = - 2 ^ 63
  end.
Proof.
  unfold ParseInt. destruct s as [|a r]; [now intros [= <- <-]|].
  destruct (ParseUint _) as [un [[f nn [|]]|]]; cbv zeta; intros E;
    repeat match type of E with
      | context [if ?b then _ else _] => destruct b
      end;
    first [discriminate E | injection E as <- <-; cbn [ne_Err]; auto].
Qed.

Lemma parseJSONInt64_error_value (raw : RawMessage) (e : error) :
  snd (parseJSONInt64 raw) = Some e →
  if isRangeError e
  then fst (parseJSONInt64 raw) = 2 ^ 63 - 1 ∨ fst (parseJSONInt64 raw) = - 2 ^ 63
  else fst (parseJSONInt64 raw) = 0.
Proof.
  unfold parseJSONInt64. destruct (len (bytes_of raw) =? 0)%nat; [discriminate|].
  destruct (Unmarshal_int64 raw 0) as [n [e1|]]; [|discriminate].
  destruct (Unmarshal_string raw "") as [s [e2|]]; [now intros [= <-]|].
  destruct (ParseInt s) as [v [ne|]] eqn:Hp; cbn [fst snd option_map]; [|discriminate].
  intros [= <-]. pose proof (ParseInt_error_value s v ne Hp) as Hv.
  destruct ne as [f nn [|]]; exact Hv.
Qed.

(** What the struct decoder leaves in the two string fields of a
    sender. *)
Lemma Unmarshal_sender_fields (members : list (string * RawMessage)) :
  fromMember "NICKNAME"
    (sender_Nickname (fst (fold_left storeSenderField members (zeroSender, None))))
    members
  ∧ fromMember "CARD"
      (sender_Card (fst (fold_left storeSenderField members (zeroSender, None))))
      members.
Proof.
  induction members as [|[k v] l IH] using rev_ind; [split; now left|].
  rewrite fold_left_app. cbn [fold_left].
  destruct (fold_left storeSenderField l (zeroSender, None)) as [sdr saved].
  cbn [fst] in IH. destruct IH as [Hn Hc].
  assert (Hmono : ∀ f x, fromMember f x l → fromMember f x (l ++ [(k, v)])%list).
  { intros f x [-> | (k' & b & Hin & Hf)]; [now left|].
    right. exists k', b. split; [|exact Hf]. apply elem_of_app. now left. }
  assert (Hlast : ∀ f b x, foldName k = f → v = Raw b (JString x) →
                           fromMember f x (l ++ [(k, v)])%list).
  { intros f b x Hf ->. right. exists k, b. split; [|exact Hf].
    apply elem_of_app. right. now apply list_elem_of_singleton. }
  unfold storeSenderField. cbn [fst snd].
  destruct (String.eqb_spec (foldName k) "USER_ID") as [_|_];
    [cbn [fst sender_Nickname sender_Card]; split; now apply Hmono|].
  destruct (String.eqb_spec (foldName k) "NICKNAME") as [En|_].
  { destruct v as [b [| |x|lit g|x|es|ms]];
      cbn [shape_of fst sender_Nickname sender_Card];
      (split; [first [now apply (Hlast _ b x) | now apply Hmono] | now apply Hmono]). }
  destruct (String.eqb_spec (foldName k) "CARD") as [Ec|_].
  { destruct v as [b [| |x|lit g|x|es|ms]];
      cbn [shape_of fst sender_Nickname sender_Card];
      (split; [now apply Hmono | first [now apply (Hlast _ b x) | now apply Hmono]]). }
  cbn [fst]. split; now apply Hmono.
Qed.

(** C5 (amended: a field that fails to coerce is 0 except after a range
    error of strconv.ParseInt, where it is the int64 bound ParseInt
    returned with the error, and a failing sender object keeps the members
    that did decode).  Normalisation returns an error exactly when user_id
    is not coercible.  Otherwise an event is returned whatever group_id,
    self_id, time and sender hold: each of group_id, self_id and time is
    the value its decoder returned, 0 after any failure but a range error,
    and 9223372036854775807 or -9223372036854775808 after a range error;
    the sender is what json.Unmarshal left in the zero sender, error or
    not: the zero sender when the value is no JSON object, and for an
    object a nickname and a card that are each empty or the string value
    of a member of that name.  A range error comes from the string path
    only: the value is a JSON string on whose content ParseInt reports
    ErrRange, and the field holds the value ParseInt returned with it.
    Every integer outside int64 sent as a JSON string in the decimal form
    FormatInt writes is such a case and leaves the bound on its side. *)
Theorem C5_normalize_failure (raw : oneBotRawEvent) :
  ((∃ e, normalizeMessageEvent raw = inr e) ↔ ¬ coercibleInt64 (raw_UserID raw))
  ∧ (coercibleInt64 (raw_UserID raw) →
     ∃ evt, normalizeMessageEvent raw = inl evt
       ∧ evt_UserID evt = fst (parseJSONInt64 (raw_UserID raw))
       ∧ (∀ e, snd (parseJSONInt64 (raw_GroupID raw)) = Some e →
               if isRangeError e
               then evt_GroupID evt = 2 ^ 63 - 1 ∨ evt_GroupID evt = - 2 ^ 63
               else evt_GroupID evt = 0)
       ∧ (∀ e, snd (parseJSONInt64 (raw_SelfID raw)) = Some e →
               if isRangeError e
               then evt_SelfID evt = 2 ^ 63 - 1 ∨ evt_SelfID evt = - 2 ^ 63
               else evt_SelfID evt = 0)
       ∧ (∀ e, snd (parseJSONInt64 (raw_Time raw)) = Some e →
               if isRangeError e
               then evt_Time evt = 2 ^ 63 - 1 ∨ evt_Time evt = - 2 ^ 63
               else evt_Time evt = 0)
       ∧ evt_Sender evt
         = (if (0 <? len (bytes_of (raw_Sender raw)))%nat
            then fst (Unmarshal_sender (raw_Sender raw) zeroSender)
            else zeroSender)
       ∧ ((∀ m, shape_of (raw_Sender raw) ≠ JObject m) →
          evt_Sender evt = zeroSender)
       ∧ (∀ m, shape_of (raw_Sender raw) = JObject m →
               fromMember "NICKNAME" (sender_Nickname (evt_Sender evt)) m
               ∧ fromMember "CARD" (sender_Card (evt_Sender evt)) m))
  ∧ (∀ (f : RawMessage) (e : error),
        snd (parseJSONInt64 f) = Some e → isRangeError e = true →
        ∃ (s : string) (ne : NumError),
          shape_of f = JString s ∧ e = ErrNum ne ∧ ne_Err ne = ErrRange
          ∧ ParseInt s = (fst (parseJSONInt64 f), Some ne))
  ∧ (∀ (b : string) (n : Z),
        b ≠ "" → ¬ (- 2 ^ 63 <= n < 2 ^ 63) →
        parseJSONInt64 (Raw b (JString (FormatInt n)))
        = (if n <? 0 then - 2 ^ 63 else 2 ^ 63 - 1,
           Some (ErrNum (mkNumError "ParseInt" (FormatInt n) ErrRange)))).
Proof.
  split; [|split; [|split]].
  - rewrite <- parseJSONInt64_coercible. unfold normalizeMessageEvent.
    destruct (parseJSONInt64 (raw_UserID raw)) as [userID [err|]]; cbn [snd].
    + split; [discriminate | eauto].
    + destruct (if String.eqb (raw_RawMessage raw) "" then _ else _) as [content mentioned].
      split; [intros [e He]; discriminate He | intros H; now elim H].
  - rewrite <- parseJSONInt64_coercible. unfold normalizeMessageEvent.
    destruct (parseJSONInt64 (raw_UserID raw)) as [userID [err|]] eqn:Hu; cbn [fst snd];
      [discriminate|].
    destruct (if String.eqb (raw_RawMessage raw) "" then _ else _) as [content mentioned].
    intros _.
    eexists. split; [reflexivity|]. cbn [evt_UserID evt_GroupID evt_SelfID evt_Time evt_Sender].
    split; [reflexivity|].
    split; [intros e He; exact (parseJSONInt64_error_value _ e He)|].
    split; [intros e He; exact (parseJSONInt64_error_value _ e He)|].
    split; [intros e He; exact (parseJSONInt64_error_value _ e He)|].
    split; [reflexivity|].
    destruct (0 <? len (bytes_of (raw_Sender raw)))%nat.
    + unfold Unmarshal_sender. split.
      * intros Hobj. destruct (shape_of (raw_Sender raw)); try reflexivity.
        now elim (Hobj members).
      * intros m ->. apply Unmarshal_sender_fields.
    + split; [reflexivity|]. intros m _. split; now left.
  - intros f e. unfold parseJSONInt64.
    destruct (len (bytes_of f) =? 0)%nat; [discriminate|].
    destruct (Unmarshal_int64 f 0) as [n [e1|]]; [|discriminate].
    unfold Unmarshal_string.
    destruct (shape_of f) as [| |x|lit g|s|l|m]; cbn [fst snd];
      try (intros [= <-]; discriminate).
    destruct (ParseInt s) as [v [ne|]] eqn:Hp; cbn [fst snd option_map]; [|discriminate].
    intros [= <-]. destruct ne as [fn nm [|]]; cbn [isRangeError]; [discriminate|].
    intros _. exists s, (mkNumError fn nm ErrRange). repeat split. exact Hp.
  - intros b n Hb Hn. unfold parseJSONInt64. cbn [bytes_of].
    rewrite (len_nonzero _ Hb). unfold Unmarshal_int64, Unmarshal_string.
    cbn [shape_of]. now rewrite (ParseInt_FormatInt_range n Hn).
Qed.

(** A message whose group_id is the string "abc" and whose sender is the
    number 5: the event is returned with group_id 0 and an empty sender.
    With the group_id "99999999999999999999x", which is no decimal integer
    but overflows before the x is read, the event carries an int64 bound;
    and the string "9223372036854775808" decodes to the largest int64 with
    a range error. *)
Lemma C5_normalize_failure_witness :
  (∃ evt,
      normalizeMessageEvent
        (rawMessageEvent "group" (rawNumber "1" "1") (rawString "123")
           (rawString "abc") "hi" nilRaw (rawNumber "5" "5") nilRaw)
      = inl evt
      ∧ evt_UserID evt = 123 ∧ evt_GroupID evt = 0 ∧ evt_Sender evt = zeroSender)
  ∧ (∃ evt,
        normalizeMessageEvent
          (rawMessageEvent "group" (rawNumber "1" "1") (rawString "123")
             (rawString "99999999999999999999x") "hi" nilRaw nilRaw nilRaw)
        = inl evt
        ∧ (evt_GroupID evt = 2 ^ 63 - 1 ∨ evt_GroupID evt = - 2 ^ 63))
  ∧ parseJSONInt64 (rawString "9223372036854775808")
    = (9223372036854775807,
       Some (ErrNum (mkNumError "ParseInt" "9223372036854775808" ErrRange))).
Proof.
  split; [|split].
  - destruct (C5_normalize_failure
                (rawMessageEvent "group" (rawNumber "1" "1") (rawString "123")
                   (rawString "abc") "hi" nilRaw (rawNumber "5" "5") nilRaw))
      as (_ & H & _).
    destruct H as (evt & E & Hu & Hg & _ & _ & _ & Hs & _).
    { right. reflexivity. }
    exists evt. split; [exact E|]. split; [exact Hu|]. split.
    + apply (Hg (ErrNum (mkNumError "ParseInt" "abc" ErrSyntax))). reflexivity.
    + apply Hs. intros m. discriminate.
  - destruct (C5_normalize_failure
                (rawMessageEvent "group" (rawNumber "1" "1") (rawString "123")
                   (rawString "99999999999999999999x") "hi" nilRaw nilRaw nilRaw))
      as (_ & H & _).
    destruct H as (evt & E & _ & Hg & _).
    { right. reflexivity. }
    exists evt. split; [exact E|].
    apply (Hg (ErrNum (mkNumError "ParseInt" "99999999999999999999x" ErrRange))).
    vm_compute. reflexivity.
  - destruct (C5_normalize_failure
                (rawMessageEvent "group" nilRaw nilRaw nilRaw "" nilRaw nilRaw nilRaw))
      as (_ & _ & _ & H).
    apply (H (quoted "9223372036854775808") 9223372036854775808);
      [discriminate | lia].
Defined.

(** C5 as stated fails on [overflowEvent]: group_id and sender both fail to
    decode, yet the event carries group_id 9223372036854775807 and the
    sender's nickname. *)
Lemma C5_left_zero_counterexample :
  parseJSONInt64 (raw_GroupID overflowEvent)
  = (9223372036854775807,
     Some (ErrNum (mkNumError "ParseInt" "9223372036854775808" ErrRange)))
  ∧ snd (Unmarshal_sender (raw_Sender overflowEvent) zeroSender)
    = Some ErrUnmarshalType
  ∧ ∃ evt, normalizeMessageEvent overflowEvent = inl evt
           ∧ evt_GroupID evt = 9223372036854775807
           ∧ sender_Nickname (evt_Sender evt) = "bob".
Proof.
  split; [vm_compute; reflexivity|]. split; [vm_compute; reflexivity|].
  eexists. split; [vm_compute; reflexivity|]. split; reflexivity.
Qed.

(** ** C6: raw_message before the structured decode *)

(** C6. In a normalised event the content comes from raw_message whenever
    that field is not empty: with the token [CQ:at,qq=<selfID>] removed and
    the result trimmed when selfID > 0 and the token occurs, as it stands
    otherwise, whatever the message field holds; the decode of the message
    field gives the content only when raw_message is empty. *)
Theorem C6_raw_message_first (raw : oneBotRawEvent) (evt : oneBotEvent) :
  normalizeMessageEvent raw = inl evt →
  (raw_RawMessage raw ≠ "" →
   evt_Content evt
   = if (0 <? fst (parseJSONInt64 (raw_SelfID raw)))
        && Contains (raw_RawMessage raw)
             (cqAtToken (fst (parseJSONInt64 (raw_SelfID raw))))
     then TrimSpace (ReplaceAll (raw_RawMessage raw)
                       (cqAtToken (fst (parseJSONInt64 (raw_SelfID raw)))) "")
     else raw_RawMessage raw)
  ∧ (raw_RawMessage raw = "" →
     evt_Content evt
     = Text (parseMessageContentEx (raw_Message raw)
               (fst (parseJSONInt64 (raw_SelfID raw)))))
  ∧ evt_RawContent evt = raw_RawMessage raw.
Proof.
  unfold normalizeMessageEvent.
  destruct (parseJSONInt64 (raw_UserID raw)) as [userID [err|]]; [discriminate|].
  destruct (String.eqb_spec (raw_RawMessage raw) "") as [Heq|Hne].
  - intros [= <-]. cbn [evt_Content evt_RawContent].
    split; [intros H; now elim H|]. split; reflexivity.
  - destruct (0 <? fst (parseJSONInt64 (raw_SelfID raw))); cbn [andb];
      [destruct (Contains _ _)|]; intros [= <-]; cbn [evt_Content evt_RawContent];
      (split; [reflexivity|]); (split; [intros H; now elim Hne | reflexivity]).
Qed.

(** With raw_message "[CQ:at,qq=42] hi " and message "other" the content
    is "hi"; without raw_message it is "other". *)
Lemma C6_raw_message_first_witness :
  (∃ evt, normalizeMessageEvent mentionEvent = inl evt ∧ evt_Content evt = "hi")
  ∧ (∃ evt, normalizeMessageEvent structuredEvent = inl evt
            ∧ evt_Content evt = "other").
Proof.
  split.
  - destruct (normalizeMessageEvent mentionEvent) as [evt|e] eqn:E; [|discriminate E].
    exists evt. split; [reflexivity|].
    destruct (C6_raw_message_first mentionEvent evt E) as (H & _).
    rewrite H by discriminate. reflexivity.
  - destruct (normalizeMessageEvent structuredEvent) as [evt|e] eqn:E; [|discriminate E].
    exists evt. split; [reflexivity|].
    destruct (C6_raw_message_first structuredEvent evt E) as (_ & H & _).
    rewrite H by reflexivity. reflexivity.
Defined.

(** ** The de-duplication window *)

Lemma validID_eqb (id : string) :
  validID id → String.eqb id "" || String.eqb id "0" = false.
Proof.
  intros [H1 H2]. apply String.eqb_neq in H1, H2. now rewrite H1, H2.
Qed.

Lemma dedupSize_pos : (0 < dedupSize)%nat.
Proof. unfold dedupSize. lia. Qed.

Lemma dedupInv_new (cfg : OneBotConfig) : dedupInv (NewOneBotChannel cfg).
Proof.
  constructor; cbn [NewOneBotChannel dedupRing dedupIdx dedup].
  - apply length_replicate.
  - apply dedupSize_pos.
  - intros x. split; [intros H; now apply not_elem_of_empty in H|].
    intros [Hx Hin]. apply elem_of_replicate in Hin as [-> _]. congruence.
  - intros i j x Hi _ Hx. apply lookup_replicate in Hi as [-> _]. congruence.
Qed.

(** What an inserting call does to the state. *)
Lemma isDuplicate_insert (c : OneBotChannel) (id : string) :
  validID id → id ∉ dedup c → dedupInv c →
  ∃ old, dedupRing c !! dedupIdx c = Some old
    ∧ isDuplicate c id
      = Some (false, inserted c id old).
Proof.
  intros Hv Hnot Hinv. unfold isDuplicate.
  rewrite (validID_eqb _ Hv). rewrite bool_decide_eq_false_2 by exact Hnot.
  destruct (lookup_lt_is_Some_2 (dedupRing c) (dedupIdx c)) as [old Hold].
  { rewrite (inv_len _ Hinv). apply (inv_idx _ Hinv). }
  exists old. split; [exact Hold|]. now rewrite Hold.
Qed.

(** The three ways a call can go. *)
Lemma isDuplicate_cases (c : OneBotChannel) (id : string) :
  dedupInv c →
  (¬ validID id ∧ isDuplicate c id = Some (false, c))
  ∨ (validID id ∧ id ∈ dedup c ∧ isDuplicate c id = Some (true, c))
  ∨ (validID id ∧ (id ∉ dedup c)
     ∧ (∃ old, dedupRing c !! dedupIdx c = Some old
        ∧ isDuplicate c id = Some (false, inserted c id old))).
Proof.
  intros Hinv.
  destruct (String.eqb_spec id "") as [->|H1].
  { left. split; [intros [H _]; congruence | reflexivity]. }
  destruct (String.eqb_spec id "0") as [->|H2].
  { left. split; [intros [_ H]; congruence | reflexivity]. }
  assert (Hv : validID id) by (split; assumption).
  destruct (decide (id ∈ dedup c)) as [Hin|Hnot].
  - right; left. repeat split; try assumption. unfold isDuplicate.
    rewrite (validID_eqb _ Hv). now rewrite bool_decide_eq_true_2.
  - right; right. repeat split; try assumption.
    now apply isDuplicate_insert.
Qed.

Lemma dedupInv_insert (c : OneBotChannel) (id old : string) :
  dedupInv c → validID id → id ∉ dedup c →
  dedupRing c !! dedupIdx c = Some old →
  dedupInv (inserted c id old).
Proof.
  intros [Hlen Hidx Hset Honce] [Hid _] Hnot Hold.
  assert (Hlt : (dedupIdx c < length (dedupRing c))%nat) by (rewrite Hlen; exact Hidx).
  constructor; unfold inserted; cbn [setDedup dedupRing dedupIdx dedup].
  - now rewrite length_insert.
  - rewrite Hlen. apply Nat.mod_upper_bound. pose proof dedupSize_pos. lia.
  - intros x. rewrite elem_of_union, elem_of_singleton, list_elem_of_lookup.
    split.
    + intros [-> | Hx].
      * split; [exact Hid|]. exists (dedupIdx c). now apply list_lookup_insert_eq.
      * assert (Hd : x ∈ dedup c ∧ x ≠ old).
        { destruct (String.eqb_spec old "") as [->|Hne].
          - split; [exact Hx|]. apply Hset in Hx. tauto.
          - apply elem_of_difference in Hx as [Hx Hxo]. split; [exact Hx|].
            intros ->. apply Hxo. now apply elem_of_singleton. }
        destruct Hd as [Hd Hxo]. apply Hset in Hd as [Hx0 Hin]. split; [exact Hx0|].
        apply list_elem_of_lookup in Hin as [j Hj]. exists j.
        rewrite list_lookup_insert_ne; [exact Hj|]. intros <-. congruence.
    + intros [Hx0 [j Hj]].
      destruct (decide (dedupIdx c = j)) as [<-|Hne].
      * rewrite list_lookup_insert_eq in Hj by exact Hlt. left. congruence.
      * rewrite list_lookup_insert_ne in Hj by exact Hne. right.
        assert (Hin : x ∈ dedup c).
        { apply Hset. split; [exact Hx0|]. apply list_elem_of_lookup. eauto. }
        destruct (String.eqb_spec old "") as [->|Hold0]; [exact Hin|].
        apply elem_of_difference. split; [exact Hin|].
        intros Hxo. apply elem_of_singleton in Hxo as ->.
        apply Hne. now apply (Honce _ _ old).
  - intros i j x Hi Hj Hx.
    destruct (decide (dedupIdx c = i)) as [Ei|Ni];
      destruct (decide (dedupIdx c = j)) as [Ej|Nj]; [congruence | | |].
    + subst i. rewrite list_lookup_insert_eq in Hi by exact Hlt.
      rewrite list_lookup_insert_ne in Hj by exact Nj.
      exfalso. apply Hnot. apply Hset. split; [congruence|].
      apply list_elem_of_lookup. exists j. congruence.
    + subst j. rewrite list_lookup_insert_eq in Hj by exact Hlt.
      rewrite list_lookup_insert_ne in Hi by exact Ni.
      exfalso. apply Hnot. apply Hset. split; [congruence|].
      apply list_elem_of_lookup. exists i. congruence.
    + rewrite list_lookup_insert_ne in Hi by exact Ni.
      rewrite list_lookup_insert_ne in Hj by exact Nj.
      now apply (Honce _ _ x).
Qed.

Lemma dedupInv_isDuplicate (c : OneBotChannel) (id : string) (b : bool) (c' : OneBotChannel) :
  dedupInv c → isDuplicate c id = Some (b, c') → dedupInv c'.
Proof.
  intros Hinv Hcall.
  destruct (isDuplicate_cases c id Hinv)
    as [[_ E] | [(_ & _ & E) | (Hv & Hnot & old & Hold & E)]];
    rewrite E in Hcall; injection Hcall as <- <-; try exact Hinv.
  now apply dedupInv_insert.
Qed.

(** The connection and send operations leave the de-duplication state
    alone. *)
Lemma applyOp_dedup (c : OneBotChannel) (o : op) :
  dedup (fst (applyOp c o)) = dedup c
  ∧ dedupRing (fst (applyOp c o)) = dedupRing c
  ∧ dedupIdx (fst (applyOp c o)) = dedupIdx c.
Proof.
  destruct o as [dial|dial| | |msg w]; cbn [applyOp].
  - unfold Start. destruct (String.eqb _ ""); [now cbn|].
    destruct dial as [k|e]; cbn [connect fst];
      destruct (0 <? _); cbn; try (repeat split; reflexivity);
      destruct (conn c); cbn; repeat split; reflexivity.
  - destruct dial; cbn; repeat split; reflexivity.
  - cbn; repeat split; reflexivity.
  - cbn; repeat split; reflexivity.
  - unfold Send. destruct (negb (running c)); [now cbn|].
    destruct (conn c); [|now cbn].
    destruct (buildSendRequest msg) as [[a prm]|e]; cbn; repeat split; reflexivity.
Qed.

Lemma dedupInv_applyOp (c : OneBotChannel) (o : op) :
  dedupInv c → dedupInv (fst (applyOp c o)).
Proof.
  intros [Hlen Hidx Hset Honce].
  destruct (applyOp_dedup c o) as (Ed & Er & Ei).
  constructor; rewrite ?Ed, ?Er, ?Ei; assumption.
Qed.

Lemma reachable_dedupInv (c : OneBotChannel) : reachable c → dedupInv c.
Proof.
  induction 1 as [cfg | c id b c' _ IH Hcall | c o _ IH].
  - apply dedupInv_new.
  - exact (dedupInv_isDuplicate c id b c' IH Hcall).
  - now apply dedupInv_applyOp.
Qed.

Lemma mod_wrap (a n : nat) : (n <= a < 2 * n)%nat → (a mod n = a - n)%nat.
Proof.
  intros H. replace a with (a - n + 1 * n)%nat at 1 by lia.
  rewrite Nat.Div0.mod_add. apply Nat.mod_small. lia.
Qed.

Lemma mod_shift_ne (i d n : nat) :
  (i < n)%nat → (0 < d < n)%nat → ((i + d) mod n)%nat ≠ i.
Proof.
  intros Hi Hd. destruct (decide (i + d < n)%nat).
  - rewrite Nat.mod_small by lia. lia.
  - rewrite mod_wrap by lia. lia.
Qed.

Lemma mod_shift_step (i d n : nat) :
  (0 < d)%nat → (((i + 1) mod n + (d - 1)) mod n = (i + d) mod n)%nat.
Proof.
  intros Hd. rewrite Nat.Div0.add_mod_idemp_l. f_equal. lia.
Qed.

Lemma mod_shift_back (i n : nat) :
  (i < n)%nat → (((i + 1) mod n + (n - 1)) mod n = i)%nat.
Proof.
  intros Hi. rewrite Nat.Div0.add_mod_idemp_l.
  replace (i + 1 + (n - 1))%nat with (i + 1 * n)%nat by lia.
  rewrite Nat.Div0.mod_add. now apply Nat.mod_small.
Qed.

Section Insertion.
Variables (c : OneBotChannel) (id old : string).
Hypothesis Hinv : dedupInv c.
Hypothesis Hnew : id ∉ dedup c.
Hypothesis Hold : dedupRing c !! dedupIdx c = Some old.

(** The id just written is the last one the cursor will reach. *)
Lemma insert_written :
  dedupRing (inserted c id old) !! slotAhead (inserted c id old) (dedupSize - 1)
  = Some id.
Proof using Hinv.
  destruct Hinv as [Hlen Hidx _ _].
  unfold slotAhead, inserted. cbn [setDedup dedupRing dedupIdx].
  rewrite length_insert, Hlen, mod_shift_back by exact Hidx.
  apply list_lookup_insert_eq. now rewrite Hlen.
Qed.

(** An id further ahead of the cursor is one place nearer afterwards. *)
Lemma insert_ahead (x : string) (d : nat) :
  (0 < d < dedupSize)%nat →
  dedupRing c !! slotAhead c d = Some x →
  dedupRing (inserted c id old) !! slotAhead (inserted c id old) (d - 1) = Some x.
Proof using Hinv.
  destruct Hinv as [Hlen Hidx _ _]. intros Hd Hx.
  unfold slotAhead, inserted in *. cbn [setDedup dedupRing dedupIdx].
  rewrite length_insert, Hlen in *. rewrite mod_shift_step by lia.
  rewrite list_lookup_insert_ne; [exact Hx|].
  intros E. symmetry in E. revert E. now apply mod_shift_ne.
Qed.

(** The id under the cursor leaves the presence set. *)
Lemma insert_evicts : old ≠ "" → old ∉ dedup (inserted c id old).
Proof using Hinv Hnew Hold.
  intros Hne. unfold inserted. cbn [setDedup dedup].
  apply String.eqb_neq in Hne as Hb. rewrite Hb.
  assert (Hin : old ∈ dedup c).
  { apply (inv_set _ Hinv). split; [exact Hne|].
    apply list_elem_of_lookup. eauto. }
  intros H. apply elem_of_union in H as [H|H].
  - apply elem_of_singleton in H. congruence.
  - apply elem_of_difference in H as [_ H]. apply H. now apply elem_of_singleton.
Qed.

(** The new id is in the set and in the slot the cursor was on. *)
Lemma insert_records :
  id ∈ dedup (inserted c id old)
  ∧ dedupRing (inserted c id old) !! dedupIdx c = Some id.
Proof using Hinv.
  unfold inserted. cbn [setDedup dedup dedupRing]. split.
  - apply elem_of_union. left. now apply elem_of_singleton.
  - apply list_lookup_insert_eq. rewrite (inv_len _ Hinv). apply (inv_idx _ Hinv).
Qed.
End Insertion.

Lemma slotAhead_zero (c : OneBotChannel) :
  dedupInv c → slotAhead c 0 = dedupIdx c.
Proof.
  intros [Hlen Hidx _ _]. unfold slotAhead.
  rewrite Nat.add_0_r. apply Nat.mod_small. now rewrite Hlen.
Qed.

Lemma held_is_present (c : OneBotChannel) (x : string) (i : nat) :
  dedupInv c → x ≠ "" → dedupRing c !! i = Some x → x ∈ dedup c.
Proof.
  intros Hinv Hx Hi. apply (inv_set _ Hinv). split; [exact Hx|].
  apply list_elem_of_lookup. eauto.
Qed.

Lemma isDuplicateAll_cons (c : OneBotChannel) (y : string) (ys : list string)
    (bs : list bool) (c2 : OneBotChannel) :
  isDuplicateAll c (y :: ys) = Some (bs, c2) →
  ∃ b c1 bs', isDuplicate c y = Some (b, c1)
              ∧ isDuplicateAll c1 ys = Some (bs', c2) ∧ bs = b :: bs'.
Proof.
  cbn [isDuplicateAll]. destruct (isDuplicate c y) as [[b c1]|]; [|discriminate].
  destruct (isDuplicateAll c1 ys) as [[bs' c2']|] eqn:E2; [|discriminate].
  intros E. injection E as <- <-. exists b, c1, bs'. repeat split. exact E2.
Qed.

(** No call on a state that satisfies the invariant panics. *)
Lemma isDuplicateAll_total (ys : list string) (c : OneBotChannel) :
  dedupInv c → ∃ bs c2, isDuplicateAll c ys = Some (bs, c2) ∧ dedupInv c2.
Proof.
  revert c. induction ys as [|y ys IH]; intros c Hinv; [now exists [], c|].
  assert (∃ b c1, isDuplicate c y = Some (b, c1)) as (b & c1 & E).
  { destruct (isDuplicate_cases c y Hinv)
      as [[_ E] | [(_ & _ & E) | (_ & _ & old & _ & E)]]; eauto. }
  destruct (IH c1 (dedupInv_isDuplicate _ _ _ _ Hinv E)) as (bs & c2 & E2 & Hinv2).
  exists (b :: bs), c2. cbn [isDuplicateAll]. now rewrite E, E2.
Qed.

(** An id [d] places ahead of the cursor survives every run with at most
    [d] insertions. *)
Lemma ahead_survives (x : string) (ys : list string) :
  ∀ (c : OneBotChannel) (d : nat) (bs : list bool) (c2 : OneBotChannel),
    dedupInv c → x ≠ "" → (d < dedupSize)%nat →
    dedupRing c !! slotAhead c d = Some x →
    isDuplicateAll c ys = Some (bs, c2) →
    (notDuplicates bs <= d)%nat →
    x ∈ dedup c2.
Proof.
  induction ys as [|y ys IH]; intros c d bs c2 Hinv Hx Hd Hat Hrun Hcount.
  - injection Hrun as <- <-. exact (held_is_present c x _ Hinv Hx Hat).
  - apply isDuplicateAll_cons in Hrun as (b & c1 & bs' & E & Hrest & ->).
    cbn [notDuplicates] in Hcount.
    destruct (isDuplicate_cases c y Hinv)
      as [[_ E'] | [(_ & _ & E') | (Hv & Hnot & old & Hold & E')]];
      rewrite E' in E; injection E as <- <-.
    + apply (IH c d bs' c2); try assumption. lia.
    + apply (IH c d bs' c2); try assumption.
    + apply (IH _ (d - 1)%nat bs' c2 (dedupInv_insert c y old Hinv Hv Hnot Hold));
        try assumption; try lia.
      apply insert_ahead; try assumption. lia.
Qed.

(** An id [d] places ahead of the cursor is gone after [d + 1]
    insertions. *)
Lemma ahead_evicted (x : string) (ys : list string) :
  ∀ (c : OneBotChannel) (d : nat) (bs : list bool) (c2 : OneBotChannel),
    dedupInv c → x ≠ "" → (d < dedupSize)%nat →
    dedupRing c !! slotAhead c d = Some x →
    Forall validID ys →
    isDuplicateAll c ys = Some (bs, c2) →
    Forall (eq false) bs →
    length ys = S d →
    x ∉ dedup c2.
Proof.
  induction ys as [|y ys IH]; intros c d bs c2 Hinv Hx Hd Hat Hval Hrun Hall Hlen;
    [discriminate|].
  apply isDuplicateAll_cons in Hrun as (b & c1 & bs' & E & Hrest & ->).
  apply Forall_cons in Hval as [Hv Hval]. apply Forall_cons in Hall as [<- Hall].
  destruct (isDuplicate_cases c y Hinv)
    as [[Hnv _] | [(_ & _ & E') | (_ & Hnot & old & Hold & E')]];
    [now elim Hnv | rewrite E' in E; discriminate E |].
  rewrite E' in E. injection E as <-.
  destruct d as [|d].
  - destruct ys; [|discriminate]. injection Hrest as _ <-.
    rewrite (slotAhead_zero c Hinv) in Hat.
    assert (old = x) as -> by congruence.
    now apply insert_evicts.
  - apply (IH _ d bs' c2 (dedupInv_insert c y old Hinv Hv Hnot Hold));
      try assumption; try lia.
    + replace d with (S d - 1)%nat by lia.
      apply insert_ahead; try assumption. lia.
    + cbn in Hlen. lia.
Qed.

Lemma isDuplicate_present (c : OneBotChannel) (x : string) :
  validID x → x ∈ dedup c → isDuplicate c x = Some (true, c).
Proof.
  intros Hv Hin. unfold isDuplicate. rewrite (validID_eqb _ Hv).
  now rewrite bool_decide_eq_true_2.
Qed.

(** A call adds at most its own id to the presence set. *)
Lemma isDuplicate_adds (c : OneBotChannel) (id : string) (b : bool) (c' : OneBotChannel) :
  dedupInv c → isDuplicate c id = Some (b, c') →
  ∀ z, z ∈ dedup c' → z = id ∨ z ∈ dedup c.
Proof.
  intros Hinv Hcall z Hz.
  destruct (isDuplicate_cases c id Hinv)
    as [[_ E] | [(_ & _ & E) | (_ & _ & old & _ & E)]];
    rewrite E in Hcall; injection Hcall as <- <-; try (now right).
  unfold inserted in Hz. cbn [setDedup dedup] in Hz.
  apply elem_of_union in Hz as [Hz|Hz].
  - left. now apply elem_of_singleton in Hz.
  - right. destruct (String.eqb old ""); [exact Hz|].
    now apply elem_of_difference in Hz as [Hz _].
Qed.

Lemma isDuplicateAll_adds (ys : list string) :
  ∀ (c : OneBotChannel) (bs : list bool) (c2 : OneBotChannel),
    dedupInv c → isDuplicateAll c ys = Some (bs, c2) →
    ∀ z, z ∈ dedup c2 → z ∈ ys ∨ z ∈ dedup c.
Proof.
  induction ys as [|y ys IH]; intros c bs c2 Hinv Hrun z Hz.
  - injection Hrun as _ <-. now right.
  - apply isDuplicateAll_cons in Hrun as (b & c1 & bs' & E & Hrest & _).
    destruct (IH c1 bs' c2 (dedupInv_isDuplicate _ _ _ _ Hinv E) Hrest z Hz) as [H|H].
    + left. now apply elem_of_cons; right.
    + destruct (isDuplicate_adds c y b c1 Hinv E z H) as [->|H'].
      * left. apply elem_of_cons. now left.
      * now right.
Qed.

(** Ids that are new to the window and differ from each other are all
    inserted. *)
Lemma fresh_all_inserted (ys : list string) :
  ∀ c : OneBotChannel,
    dedupInv c → NoDup ys → Forall validID ys →
    (∀ y, y ∈ ys → y ∉ dedup c) →
    ∃ c2, isDuplicateAll c ys = Some (replicate (length ys) false, c2).
Proof.
  induction ys as [|y ys IH]; intros c Hinv Hnd Hval Hfresh; [now exists c|].
  apply NoDup_cons in Hnd as [Hy Hnd]. apply Forall_cons in Hval as [Hv Hval].
  assert (Hnot : y ∉ dedup c) by (apply Hfresh, elem_of_cons; now left).
  destruct (isDuplicate_insert c y Hv Hnot Hinv) as (old & Hold & E).
  pose proof (dedupInv_isDuplicate _ _ _ _ Hinv E) as Hinv1.
  destruct (IH _ Hinv1 Hnd Hval) as [c2 E2].
  { intros z Hz Hin.
    destruct (isDuplicate_adds c y _ _ Hinv E z Hin) as [->|Hin']; [contradiction|].
    apply (Hfresh z); [apply elem_of_cons; now right | exact Hin']. }
  exists c2. cbn [isDuplicateAll length replicate]. now rewrite E, E2.
Qed.

(** An id [d] places ahead of the cursor is [d - k] places ahead after [k]
    insertions, for [k] up to [d]. *)
Lemma ahead_exact (x : string) (ys : list string) :
  ∀ (c : OneBotChannel) (d : nat) (bs : list bool) (c2 : OneBotChannel),
    dedupInv c → x ≠ "" → (d < dedupSize)%nat →
    dedupRing c !! slotAhead c d = Some x →
    Forall validID ys →
    isDuplicateAll c ys = Some (bs, c2) →
    Forall (eq false) bs →
    (length ys <= d)%nat →
    dedupRing c2 !! slotAhead c2 (d - length ys) = Some x.
Proof.
  induction ys as [|y ys IH]; intros c d bs c2 Hinv Hx Hd Hat Hval Hrun Hall Hlen.
  - injection Hrun as _ <-. now rewrite Nat.sub_0_r.
  - apply isDuplicateAll_cons in Hrun as (b & c1 & bs' & E & Hrest & ->).
    apply Forall_cons in Hval as [Hv Hval]. apply Forall_cons in Hall as [<- Hall].
    destruct (isDuplicate_cases c y Hinv)
      as [[Hnv _] | [(_ & _ & E') | (_ & Hnot & old & Hold & E')]];
      [now elim Hnv | rewrite E' in E; discriminate E |].
    rewrite E' in E. injection E as <-. cbn [length] in Hlen |- *.
    replace (d - S (length ys))%nat with (d - 1 - length ys)%nat by lia.
    apply (IH _ (d - 1)%nat bs' c2 (dedupInv_insert c y old Hinv Hv Hnot Hold));
      try assumption; try lia.
    apply insert_ahead; try assumption. lia.
Qed.

(** *** The example ids *)

Lemma freshIDs_valid (n : nat) : Forall validID (freshIDs n).
Proof.
  apply Forall_forall. intros y Hy. unfold freshIDs in Hy.
  apply list_elem_of_fmap in Hy as (k & -> & _). split; discriminate.
Qed.

Lemma freshIDs_NoDup (n : nat) : NoDup (freshIDs n).
Proof.
  unfold freshIDs. apply NoDup_fmap_2_strong; [|apply NoDup_seq].
  intros a b _ _ E. rewrite !append_cons, !append_empty in E.
  injection E as E. apply FormatInt_inj in E. lia.
Qed.

Lemma freshIDs_other (n : nat) (a : ascii) (r : string) :
  a ≠ "m"%char → String a r ∉ freshIDs n.
Proof.
  intros Ha Hin. unfold freshIDs in Hin.
  apply list_elem_of_fmap in Hin as (k & E & _).
  rewrite append_cons in E. congruence.
Qed.

Lemma freshIDs_length (n : nat) : length (freshIDs n) = n.
Proof. unfold freshIDs. now rewrite length_map, length_seq. Qed.

(** ** C4: ids that mean "no id" *)

(** C4. [isDuplicate("")] and [isDuplicate("0")] return false and give back
    the channel as it was, presence set, ring buffer and cursor included,
    in every state of the channel. *)
Theorem C4_isDuplicate_no_id (c : OneBotChannel) :
  isDuplicate c "" = Some (false, c) ∧ isDuplicate c "0" = Some (false, c).
Proof. split; reflexivity. Qed.

(** ** C3: the invariant of the window *)

Lemma NoDup_filter_once (P : string → Prop) `{!∀ x, Decision (P x)} (l : list string) :
  (∀ (i j : nat) (x : string), l !! i = Some x → l !! j = Some x → P x → i = j) →
  NoDup (filter P l).
Proof.
  induction l as [|a l IH]; intros Honce; [constructor|].
  rewrite filter_cons. assert (Hl : NoDup (filter P l)).
  { apply IH. intros i j x Hi Hj Hx.
    specialize (Honce (S i) (S j) x Hi Hj Hx). lia. }
  destruct (decide (P a)) as [Ha|_]; [|exact Hl].
  apply NoDup_cons. split; [|exact Hl].
  intros Hin. apply list_elem_of_filter in Hin as [_ Hin].
  apply list_elem_of_lookup in Hin as [j Hj].
  specialize (Honce 0%nat (S j) a eq_refl Hj Ha). lia.
Qed.

Lemma reachable_all (ys : list string) :
  ∀ (c : OneBotChannel) (bs : list bool) (c2 : OneBotChannel),
    reachable c → isDuplicateAll c ys = Some (bs, c2) → reachable c2.
Proof.
  induction ys as [|y ys IH]; intros c bs c2 Hr Hrun.
  - now injection Hrun as _ <-.
  - apply isDuplicateAll_cons in Hrun as (b & c1 & bs' & E & Hrest & _).
    exact (IH c1 bs' c2 (reach_isDuplicate c y b c1 Hr E) Hrest).
Qed.

(** C3. In every state reached from a new channel the presence set holds
    exactly the ids of the non-empty ring slots, its size is the number of
    non-empty slots and at most 1024 (the ring has 1024 slots and the cursor
    is one of them); and an insertion on a full slot returns without panic
    a state whose set has lost the evicted id and gained the new one, with
    the new id written in that slot. *)
Theorem C3_window_invariant (c : OneBotChannel) :
  reachable c →
  dedup c = list_to_set (nonEmptySlots c)
  ∧ size (dedup c) = length (nonEmptySlots c)
  ∧ (size (dedup c) <= dedupSize)%nat
  ∧ length (dedupRing c) = dedupSize
  ∧ (dedupIdx c < dedupSize)%nat
  ∧ (∀ id old : string,
       validID id → id ∉ dedup c →
       dedupRing c !! dedupIdx c = Some old → old ≠ "" →
       ∃ c', isDuplicate c id = Some (false, c')
             ∧ (old ∉ dedup c')
             ∧ dedupRing c' !! dedupIdx c = Some id
             ∧ id ∈ dedup c'
             ∧ dedup c' = list_to_set (nonEmptySlots c')).
Proof.
  intros Hreach. pose proof (reachable_dedupInv c Hreach) as Hinv.
  assert (Hset : ∀ k, dedupInv k → dedup k = list_to_set (nonEmptySlots k)).
  { intros k Hk. apply set_eq. intros x.
    rewrite elem_of_list_to_set. unfold nonEmptySlots.
    rewrite list_elem_of_filter. apply (inv_set _ Hk). }
  assert (Hnd : NoDup (nonEmptySlots c)).
  { apply NoDup_filter_once. intros i j x Hi Hj Hx. exact (inv_once _ Hinv i j x Hi Hj Hx). }
  assert (Hsize : size (dedup c) = length (nonEmptySlots c)).
  { rewrite (Hset c Hinv). now apply size_list_to_set. }
  split; [exact (Hset c Hinv)|]. split; [exact Hsize|]. split.
  { rewrite Hsize, <- (inv_len _ Hinv). apply length_filter. }
  split; [exact (inv_len _ Hinv)|]. split; [exact (inv_idx _ Hinv)|].
  intros id old Hv Hnot Hold Hne.
  destruct (isDuplicate_insert c id Hv Hnot Hinv) as (old' & Hold' & E).
  assert (old' = old) as -> by congruence.
  eexists. split; [exact E|].
  pose proof (insert_records c id old Hinv) as [Hin Hslot].
  split; [exact (insert_evicts c id old Hinv Hnot Hold Hne)|].
  split; [exact Hslot|]. split; [exact Hin|].
  apply Hset. exact (dedupInv_insert c id old Hinv Hv Hnot Hold).
Qed.

(** A new channel has an empty window; once "x" and the ids m1 ... m1023
    have gone through, the cursor is back on the slot of "x", and the next
    insertion puts "new" in its place. *)
Lemma C3_window_invariant_witness :
  size (dedup (NewOneBotChannel exampleConfig)) = 0%nat
  ∧ ∃ c c', reachable c
            ∧ dedupRing c !! dedupIdx c = Some "x"
            ∧ isDuplicate c "new" = Some (false, c')
            ∧ ("x" ∉ dedup c') ∧ "new" ∈ dedup c'.
Proof.
  split.
  - destruct (C3_window_invariant (NewOneBotChannel exampleConfig)
                (reach_new exampleConfig)) as (_ & Hsize & _).
    rewrite Hsize. reflexivity.
  - assert (Hv : validID "x") by (split; discriminate).
    pose proof (dedupInv_new exampleConfig) as Hinv.
    destruct (isDuplicate_insert (NewOneBotChannel exampleConfig) "x" Hv
                (not_elem_of_empty "x") Hinv) as (old & Hold & E1).
    pose proof (insert_written (NewOneBotChannel exampleConfig) "x" old Hinv) as Hat.
    pose proof (dedupInv_isDuplicate _ _ _ _ Hinv E1) as Hinv1.
    pose proof (reach_isDuplicate _ _ _ _ (reach_new exampleConfig) E1) as Hreach1.
    destruct (fresh_all_inserted (freshIDs 1023) _ Hinv1
                (freshIDs_NoDup 1023) (freshIDs_valid 1023)) as [c E2].
    { intros y Hy Hin.
      destruct (isDuplicate_adds _ _ _ _ Hinv E1 y Hin) as [-> | Hin'].
      - revert Hy. apply freshIDs_other; discriminate.
      - now apply not_elem_of_empty in Hin'. }
    pose proof (reachable_all _ _ _ _ Hreach1 E2) as Hreach.
    pose proof (reachable_dedupInv c Hreach) as Hinvc.
    assert (Hx : "x" ≠ "") by discriminate.
    assert (Hd : (dedupSize - 1 < dedupSize)%nat) by (unfold dedupSize; lia).
    assert (Hslot : dedupRing c !! dedupIdx c = Some "x").
    { rewrite <- (slotAhead_zero c Hinvc).
      pose proof (ahead_exact "x" (freshIDs 1023) _ (dedupSize - 1)%nat _ c
                    Hinv1 Hx Hd Hat (freshIDs_valid 1023) E2) as Hex.
      rewrite freshIDs_length in Hex.
      replace (dedupSize - 1 - 1023)%nat with 0%nat in Hex by reflexivity.
      apply Hex; [now apply Forall_replicate | unfold dedupSize; lia]. }
    destruct (C3_window_invariant c Hreach) as (_ & _ & _ & _ & _ & Hins).
    destruct (Hins "new" "x") as (c' & E & Hout & _ & Hin & _).
    + split; discriminate.
    + intros Hin.
      destruct (isDuplicateAll_adds _ _ _ _ Hinv1 E2 _ Hin) as [H | H].
      * revert H. apply freshIDs_other; discriminate.
      * destruct (isDuplicate_adds _ _ _ _ Hinv E1 _ H) as [H' | H'];
          [discriminate H' | now apply not_elem_of_empty in H'].
    + exact Hslot.
    + discriminate.
    + exists c, c'. split; [exact Hreach | split; [exact Hslot |]].
      split; [exact E | split; [exact Hout | exact Hin]].
Defined.

(** ** C2: duplicate until evicted *)

(** C2. Let a first [isDuplicate(x)] record an id x other than "" and "0"
    (x was not in the window), and let any calls [ys] follow.  No call
    panics.  If fewer than 1024 of the calls in between were answered "not
    a duplicate", which bounds the insertions, a second [isDuplicate(x)]
    returns true and changes nothing.  If the calls in between were 1024
    insertions (every one answered false) of ids that are pairwise
    distinct, different from x and none "" or "0", a further
    [isDuplicate(x)] returns false again. *)
Theorem C2_duplicate_until_evicted (c : OneBotChannel) (x : string) (ys : list string) :
  reachable c → validID x → x ∉ dedup c →
  ∃ (c1 : OneBotChannel) (bs : list bool) (c2 : OneBotChannel),
    isDuplicate c x = Some (false, c1)
    ∧ isDuplicateAll c1 ys = Some (bs, c2)
    ∧ ((notDuplicates bs < dedupSize)%nat → isDuplicate c2 x = Some (true, c2))
    ∧ (length ys = dedupSize → NoDup ys → x ∉ ys → Forall validID ys →
       Forall (eq false) bs →
       ∃ c3, isDuplicate c2 x = Some (false, c3)).
Proof.
  intros Hreach Hv Hnot. pose proof (reachable_dedupInv c Hreach) as Hinv.
  destruct (isDuplicate_insert c x Hv Hnot Hinv) as (old & Hold & E).
  pose proof (dedupInv_insert c x old Hinv Hv Hnot Hold) as Hinv1.
  pose proof (insert_written c x old Hinv) as Hat.
  eexists. destruct (isDuplicateAll_total ys _ Hinv1) as (bs & c2 & E2 & Hinv2).
  exists bs, c2. split; [exact E|]. split; [exact E2|].
  pose proof dedupSize_pos as Hpos. split.
  - intros Hcount. apply isDuplicate_present; [exact Hv|].
    apply (ahead_survives x ys _ (dedupSize - 1)%nat bs c2 Hinv1);
      try assumption; try lia. apply Hv.
  - intros Hlen _ _ Hval Hall.
    assert (Hgone : x ∉ dedup c2).
    { apply (ahead_evicted x ys _ (dedupSize - 1)%nat bs c2 Hinv1);
        try assumption; try lia. apply Hv. }
    destruct (isDuplicate_insert c2 x Hv Hgone Hinv2) as (old2 & _ & E3). eauto.
Qed.

(** The window of a new channel: "x" is a duplicate right after its first
    call, and no longer one after the 1024 ids m1 ... m1024. *)
Lemma C2_duplicate_until_evicted_witness :
  (∃ c1, isDuplicate (NewOneBotChannel exampleConfig) "x" = Some (false, c1)
         ∧ isDuplicate c1 "x" = Some (true, c1))
  ∧ (∃ c1 c2 c3,
        isDuplicate (NewOneBotChannel exampleConfig) "x" = Some (false, c1)
        ∧ isDuplicateAll c1 (freshIDs 1024) = Some (replicate 1024 false, c2)
        ∧ isDuplicate c2 "x" = Some (false, c3)).
Proof.
  assert (Hv : validID "x") by (split; discriminate).
  assert (Hnot : "x" ∉ dedup (NewOneBotChannel exampleConfig))
    by apply not_elem_of_empty.
  pose proof (dedupInv_new exampleConfig) as Hinv.
  split.
  - destruct (C2_duplicate_until_evicted (NewOneBotChannel exampleConfig) "x" []
                (reach_new exampleConfig) Hv Hnot)
      as (c1 & bs & c2 & E1 & E2 & HA & _).
    exists c1. split; [exact E1|]. injection E2 as <- <-.
    apply HA. cbn [notDuplicates]. apply dedupSize_pos.
  - destruct (C2_duplicate_until_evicted (NewOneBotChannel exampleConfig) "x"
                (freshIDs 1024) (reach_new exampleConfig) Hv Hnot)
      as (c1 & bs & c2 & E1 & E2 & _ & HB).
    pose proof (dedupInv_isDuplicate _ _ _ _ Hinv E1) as Hinv1.
    destruct (fresh_all_inserted (freshIDs 1024) c1 Hinv1
                (freshIDs_NoDup 1024) (freshIDs_valid 1024)) as [c2' E2'].
    { intros y Hy Hin.
      destruct (isDuplicate_adds _ _ _ _ Hinv E1 y Hin) as [-> | Hin'].
      - revert Hy. apply freshIDs_other; discriminate.
      - now apply not_elem_of_empty in Hin'. }
    rewrite freshIDs_length in E2'.
    remember (replicate 1024 false) as r eqn:Hr.
    rewrite E2' in E2. injection E2 as <- <-.
    destruct HB as [c3 E3].
    + apply freshIDs_length.
    + apply freshIDs_NoDup.
    + apply freshIDs_other; discriminate.
    + apply freshIDs_valid.
    + rewrite Hr. now apply Forall_replicate.
    + exists c1, c2', c3.
      split; [exact E1 | split; [exact E2' | exact E3]].
Defined.

(** ** C10: empty content is dropped after the de-duplication check *)

(** C10. On a reached channel, an event whose content is empty makes
    [handleMessage] return, without panic, the state its [isDuplicate] call
    left and no bus call; an id other than "" and "0" is in the presence
    set of that state. *)
Theorem C10_empty_content_dropped (c : OneBotChannel) (evt : oneBotEvent) :
  reachable c → evt_Content evt = "" →
  ∃ (b : bool) (c' : OneBotChannel),
    isDuplicate c (evt_MessageID evt) = Some (b, c')
    ∧ handleMessage c evt = Some (c', None)
    ∧ (validID (evt_MessageID evt) → evt_MessageID evt ∈ dedup c').
Proof.
  intros Hreach Hempty. pose proof (reachable_dedupInv c Hreach) as Hinv.
  unfold handleMessage. rewrite Hempty.
  destruct (isDuplicate_cases c (evt_MessageID evt) Hinv)
    as [[Hnv E] | [(_ & Hin & E) | (Hv & Hnot & old & Hold & E)]]; rewrite E.
  - exists false, c. repeat split. intros Hv. now elim Hnv.
  - exists true, c. repeat split. intros _. exact Hin.
  - eexists false, _. split; [reflexivity|]. split; [reflexivity|]. intros _.
    exact (proj1 (insert_records c (evt_MessageID evt) old Hinv)).
Qed.

(** An empty group message with id "77" on a new channel. *)
Lemma C10_empty_content_dropped_witness :
  ∃ c', handleMessage (NewOneBotChannel exampleConfig) (exampleEvent "77" "")
        = Some (c', None)
        ∧ "77" ∈ dedup c'.
Proof.
  destruct (C10_empty_content_dropped (NewOneBotChannel exampleConfig)
              (exampleEvent "77" "") (reach_new exampleConfig) eq_refl)
    as (b & c' & _ & E & Hin).
  exists c'. split; [exact E|]. apply Hin. split; discriminate.
Defined.

(** ** C7: the group trigger *)

Lemma triggerLoop_skip (content : string) (l1 rest : list string) :
  Forall (skipped content) l1 →
  triggerLoop content (l1 ++ rest)%list = triggerLoop content rest.
Proof.
  induction 1 as [|q l1 Hq _ IH]; [reflexivity|].
  cbn [app triggerLoop]. destruct Hq as [-> | Hq]; [exact IH|].
  rewrite Hq. destruct (String.eqb q ""); exact IH.
Qed.

(** C7. A mention triggers with the trimmed content; without a mention the
    first configured prefix that is non-empty and a prefix of the content
    triggers, with that prefix cut off and the rest trimmed; when no prefix
    fires the content comes back unchanged and untriggered.  With prefixes
    ["!bot "], "!bot hello" gives (true, "hello") and "hello" gives
    (false, "hello"). *)
Theorem C7_checkGroupTrigger (prefixes : list string) (content : string) :
  checkGroupTrigger prefixes content true = (true, TrimSpace content)
  ∧ (∀ (l1 : list string) (p : string) (l2 : list string),
        prefixes = (l1 ++ p :: l2)%list →
        Forall (skipped content) l1 →
        p ≠ "" → HasPrefix content p = true →
        checkGroupTrigger prefixes content false
        = (true, TrimSpace (drop (len p) content)))
  ∧ (Forall (skipped content) prefixes →
        checkGroupTrigger prefixes content false = (false, content))
  ∧ checkGroupTrigger ["!bot "] "!bot hello" false = (true, "hello")
  ∧ checkGroupTrigger ["!bot "] "hello" false = (false, "hello").
Proof.
  split; [reflexivity|]. split; [|split; [|split; reflexivity]].
  - intros l1 p l2 -> Hl1 Hp Hpre. unfold checkGroupTrigger.
    rewrite triggerLoop_skip by exact Hl1. cbn [triggerLoop].
    apply String.eqb_neq in Hp. rewrite Hp, Hpre.
    unfold TrimPrefix. now rewrite Hpre.
  - intros Hall. unfold checkGroupTrigger.
    rewrite <- (app_nil_r prefixes). now rewrite triggerLoop_skip.
Qed.

(** The trigger on a configuration whose second prefix fires. *)
Lemma C7_checkGroupTrigger_witness :
  checkGroupTrigger [""; "/ai"; "/a"] "/ai  ping " false = (true, "ping")
  ∧ checkGroupTrigger ["x"; ""] "hello" false = (false, "hello").
Proof.
  destruct (C7_checkGroupTrigger [""; "/ai"; "/a"] "/ai  ping ") as (_ & H & _).
  destruct (C7_checkGroupTrigger ["x"; ""] "hello") as (_ & _ & H' & _).
  split.
  - apply (H [""] "/ai" ["/a"]); [reflexivity | | discriminate | reflexivity].
    constructor; [now left | constructor].
  - apply H'. constructor; [now right|]. constructor; [now left | constructor].
Defined.

(** ** C8: destination addressing *)

Lemma guard_true (n : nat) (tag chatID : string) :
  (n <? len chatID)%nat && String.eqb (take n chatID) tag = true →
  chatID = tag ++ drop n chatID ∧ drop n chatID ≠ "".
Proof.
  intros H. apply andb_true_iff in H as [Hlen Heq].
  apply String.eqb_eq in Heq. apply Nat.ltb_lt in Hlen. split.
  - rewrite <- Heq. symmetry. apply take_drop.
  - intros E. pose proof (take_drop n chatID) as Htd.
    rewrite E in Htd. apply (f_equal len) in Htd. rewrite len_app in Htd.
    assert (len (take n chatID) <= n)%nat.
    { clear. revert chatID. induction n as [|n IH]; intros [|a r]; cbn; try lia.
      specialize (IH r). unfold len in IH. lia. }
    cbn in Htd. lia.
Qed.

Lemma guard_tagged (tag s : string) :
  s ≠ "" →
  (len tag <? len (tag ++ s))%nat && String.eqb (take (len tag) (tag ++ s)) tag = true.
Proof.
  intros Hs. apply andb_true_iff. split.
  - apply Nat.ltb_lt. rewrite len_app. destruct s; [congruence | cbn; lia].
  - apply String.eqb_eq. induction tag as [|a tag IH]; [reflexivity|].
    rewrite append_cons. cbn [len String.length take]. f_equal. exact IH.
Qed.

(** A chat id that parses as a number carries neither scope tag. *)
Lemma guard_number (n : nat) (a : ascii) (tag chatID : string) :
  97 <= byte a <= 122 →
  snd (ParseInt chatID) = None →
  (S n <? len chatID)%nat && String.eqb (take (S n) chatID) (String a tag) = false.
Proof.
  intros Ha Hp. apply andb_false_iff. right. apply String.eqb_neq. intros E.
  destruct chatID as [|b r]; [discriminate|]. cbn [take] in E.
  injection E as -> _. now apply (ParseInt_letter a r).
Qed.

(** C8. A chat id "group:<n>" whose suffix parses as an int64 gives action
    send_group_msg with group_id n; "private:<n>" with such a suffix, or a
    bare id that parses as an int64, gives send_private_msg with that user
    id; every other chat id gives an error and no request. *)
Theorem C8_buildSendRequest (chatID content : string) :
  (∀ (s : string) (n : Z),
      chatID = "group:" ++ s → ParseInt s = (n, None) →
      buildSendRequest (mkOutbound chatID content)
      = inl ("send_group_msg", GroupParams (mkGroupParams n content)))
  ∧ (∀ (s : string) (n : Z),
      chatID = "private:" ++ s → ParseInt s = (n, None) →
      buildSendRequest (mkOutbound chatID content)
      = inl ("send_private_msg", PrivateParams (mkPrivateParams n content)))
  ∧ (∀ n : Z,
      ParseInt chatID = (n, None) →
      buildSendRequest (mkOutbound chatID content)
      = inl ("send_private_msg", PrivateParams (mkPrivateParams n content)))
  ∧ ((∀ s : string, chatID = "group:" ++ s → snd (ParseInt s) ≠ None) →
     (∀ s : string, chatID = "private:" ++ s → snd (ParseInt s) ≠ None) →
     snd (ParseInt chatID) ≠ None →
     ∃ e, buildSendRequest (mkOutbound chatID content) = inr e)
  ∧ (∀ n : Z, - 2 ^ 63 <= n < 2 ^ 63 →
     buildSendRequest (mkOutbound ("group:" ++ FormatInt n) content)
     = inl ("send_group_msg", GroupParams (mkGroupParams n content))
     ∧ buildSendRequest (mkOutbound ("private:" ++ FormatInt n) content)
       = inl ("send_private_msg", PrivateParams (mkPrivateParams n content))
     ∧ buildSendRequest (mkOutbound (FormatInt n) content)
       = inl ("send_private_msg", PrivateParams (mkPrivateParams n content))).
Proof.
  assert (Hgroup : ∀ (s : string) (n : Z),
             ParseInt s = (n, None) →
             buildSendRequest (mkOutbound ("group:" ++ s) content)
             = inl ("send_group_msg", GroupParams (mkGroupParams n content))).
  { intros s n Hs. unfold buildSendRequest. cbn [out_ChatID out_Content].
    pose proof (guard_tagged "group:" s (ParseInt_ok_nonempty _ _ Hs)) as G.
    change (len "group:") with 6%nat in G. rewrite G.
    change (drop 6 ("group:" ++ s)) with s. now rewrite Hs. }
  assert (Hprivate : ∀ (s : string) (n : Z),
             ParseInt s = (n, None) →
             buildSendRequest (mkOutbound ("private:" ++ s) content)
             = inl ("send_private_msg", PrivateParams (mkPrivateParams n content))).
  { intros s n Hs. unfold buildSendRequest. cbn [out_ChatID out_Content].
    assert (G0 : (6 <? len ("private:" ++ s))%nat
                 && String.eqb (take 6 ("private:" ++ s)) "group:" = false)
      by (apply andb_false_iff; right; reflexivity).
    rewrite G0.
    pose proof (guard_tagged "private:" s (ParseInt_ok_nonempty _ _ Hs)) as G.
    change (len "private:") with 8%nat in G. rewrite G.
    change (drop 8 ("private:" ++ s)) with s. now rewrite Hs. }
  assert (Hbare : ∀ (id : string) (n : Z),
             ParseInt id = (n, None) →
             buildSendRequest (mkOutbound id content)
             = inl ("send_private_msg", PrivateParams (mkPrivateParams n content))).
  { intros id n Hn. unfold buildSendRequest. cbn [out_ChatID out_Content].
    assert (Hok : snd (ParseInt id) = None) by now rewrite Hn.
    assert (Hg : 97 <= byte "g" <= 122) by (vm_compute; split; discriminate).
    assert (Hp : 97 <= byte "p" <= 122) by (vm_compute; split; discriminate).
    rewrite (guard_number 5 "g" "roup:" id Hg Hok).
    rewrite (guard_number 7 "p" "rivate:" id Hp Hok).
    now rewrite Hn. }
  split; [intros s n ->; apply Hgroup|].
  split; [intros s n ->; apply Hprivate|].
  split; [apply Hbare|].
  split;
    [|intros n Hn; pose proof (ParseInt_FormatInt n Hn) as Hp;
      split; [now apply Hgroup | split; [now apply Hprivate | now apply Hbare]]].
  unfold buildSendRequest. cbn [out_ChatID out_Content].
  intros Hg Hp Hb.
  destruct ((6 <? len chatID)%nat && String.eqb (take 6 chatID) "group:") eqn:G1.
  { apply guard_true in G1 as [E _]. specialize (Hg _ E).
    destruct (ParseInt (drop 6 chatID)) as [v [e|]]; [eauto | now elim Hg]. }
  destruct ((8 <? len chatID)%nat && String.eqb (take 8 chatID) "private:") eqn:G2.
  { apply guard_true in G2 as [E _]. specialize (Hp _ E).
    destruct (ParseInt (drop 8 chatID)) as [v [e|]]; [eauto | now elim Hp]. }
  destruct (ParseInt chatID) as [v [e|]]; [eauto | now elim Hb].
Qed.

(** C8 on a group id, a private id, a bare number and a malformed
    suffix. *)
Lemma C8_buildSendRequest_witness :
  buildSendRequest (mkOutbound "group:456" "hi")
  = inl ("send_group_msg", GroupParams (mkGroupParams 456 "hi"))
  ∧ buildSendRequest (mkOutbound "private:-7" "hi")
    = inl ("send_private_msg", PrivateParams (mkPrivateParams (-7) "hi"))
  ∧ buildSendRequest (mkOutbound "123" "hi")
    = inl ("send_private_msg", PrivateParams (mkPrivateParams 123 "hi"))
  ∧ ∃ e, buildSendRequest (mkOutbound "group:abc" "hi") = inr e.
Proof.
  destruct (C8_buildSendRequest "group:456" "hi") as (Hg & _).
  destruct (C8_buildSendRequest "private:-7" "hi") as (_ & Hp & _).
  destruct (C8_buildSendRequest "123" "hi") as (_ & _ & Hb & _).
  destruct (C8_buildSendRequest "group:abc" "hi") as (_ & _ & _ & He & _).
  split; [|split; [|split]].
  - apply (Hg "456"); reflexivity.
  - apply (Hp "-7"); reflexivity.
  - apply Hb. reflexivity.
  - apply He.
    + intros s E. rewrite !append_cons, append_empty in E.
      injection E as <-. vm_compute. discriminate.
    + intros s E. rewrite !append_cons in E. discriminate E.
    + vm_compute. discriminate.
Defined.

(** ** C9: the echo counter *)

Lemma wrapInt64_small (n : Z) : - 2 ^ 63 <= n < 2 ^ 63 → wrapInt64 n = n.
Proof. intros H. unfold wrapInt64. rewrite Z.mod_small; lia. Qed.

(** An operation other than a send that builds a request leaves the
    counter alone; such a send adds one. *)
Lemma applyOp_echo (c : OneBotChannel) (o : op) :
  - 2 ^ 63 <= echoCounter c + 1 < 2 ^ 63 →
  match snd (applyOp c o) with
  | Some r =>
      req_Echo r = echoOf (echoCounter c + 1)
      ∧ echoCounter (fst (applyOp c o)) = echoCounter c + 1
  | None => echoCounter (fst (applyOp c o)) = echoCounter c
  end.
Proof.
  intros Hb. destruct o as [dial|dial| | |msg w]; cbn [applyOp snd fst].
  - unfold Start. destruct (String.eqb _ ""); [reflexivity|].
    destruct dial as [k|e]; cbn [connect fst];
      destruct (0 <? _); try reflexivity; destruct (conn c); reflexivity.
  - destruct dial; reflexivity.
  - reflexivity.
  - reflexivity.
  - unfold Send. destruct (negb (running c)); [reflexivity|].
    destruct (conn c); [|reflexivity].
    destruct (buildSendRequest msg) as [[a prm]|e]; [|reflexivity].
    cbn [fst snd req_Echo setEchoCounter echoCounter].
    now rewrite wrapInt64_small.
Qed.

Lemma runOps_echo (ops : list op) :
  ∀ c : OneBotChannel,
    - 2 ^ 63 <= echoCounter c →
    echoCounter c + Z.of_nat (length ops) < 2 ^ 63 →
    (∀ (i : nat) (r : oneBotAPIRequest),
        snd (runOps c ops) !! i = Some r →
        req_Echo r = echoOf (echoCounter c + Z.of_nat i + 1))
    ∧ echoCounter (fst (runOps c ops))
      = echoCounter c + Z.of_nat (length (snd (runOps c ops)))
    ∧ (length (snd (runOps c ops)) <= length ops)%nat.
Proof.
  induction ops as [|o ops IH]; intros c Hlo Hhi.
  - cbn. split; [intros i r H; discriminate H|]. split; lia.
  - cbn [runOps length] in *.
    assert (Hb : - 2 ^ 63 <= echoCounter c + 1 < 2 ^ 63) by lia.
    pose proof (applyOp_echo c o Hb) as Hop.
    destruct (applyOp c o) as [c1 r1]. cbn [fst snd] in Hop.
    destruct r1 as [q|].
    + destruct Hop as [Hq Hc1].
      assert (Hlo1 : - 2 ^ 63 <= echoCounter c1) by lia.
      assert (Hhi1 : echoCounter c1 + Z.of_nat (length ops) < 2 ^ 63) by lia.
      destruct (IH c1 Hlo1 Hhi1) as (Hreq & Hcount & Hlen).
      destruct (runOps c1 ops) as [c2 rs]. cbn [fst snd] in *.
      split; [|split; [rewrite Hcount, Hc1; cbn [length]; lia | cbn [length]; lia]].
      intros [|i] r Hr; cbn in Hr.
      * injection Hr as <-. rewrite Hq. f_equal. lia.
      * rewrite (Hreq i r Hr), Hc1. f_equal. lia.
    + assert (Hlo1 : - 2 ^ 63 <= echoCounter c1) by lia.
      assert (Hhi1 : echoCounter c1 + Z.of_nat (length ops) < 2 ^ 63) by lia.
      destruct (IH c1 Hlo1 Hhi1) as (Hreq & Hcount & Hlen).
      destruct (runOps c1 ops) as [c2 rs]. cbn [fst snd] in *.
      split; [|split; [rewrite Hcount, Hop; lia | lia]].
      intros i r Hr. rewrite (Hreq i r Hr), Hop. reflexivity.
Qed.

(** C9 (amended: the counter belongs to the channel, not to a
    connection).  Over any run of starts, connects, read errors, stops and
    sends that keeps the int64 counter below its limit, the i-th request
    built carries the echo token send_<k+i+1>, k being the counter before
    the run: the counter values behind successive tokens strictly increase;
    and neither a connect, a read error nor a stop changes the counter. *)
Theorem C9_echo_counter (c : OneBotChannel) (ops : list op) :
  - 2 ^ 63 <= echoCounter c →
  echoCounter c + Z.of_nat (length ops) < 2 ^ 63 →
  (∀ (i : nat) (r : oneBotAPIRequest),
      snd (runOps c ops) !! i = Some r →
      req_Echo r = echoOf (echoCounter c + Z.of_nat i + 1))
  ∧ (∀ (i j : nat) (ri rj : oneBotAPIRequest),
      (i < j)%nat →
      snd (runOps c ops) !! i = Some ri → snd (runOps c ops) !! j = Some rj →
      ∃ ki kj, req_Echo ri = echoOf ki ∧ req_Echo rj = echoOf kj ∧ ki < kj)
  ∧ (∀ dial, echoCounter (fst (connect c dial)) = echoCounter c)
  ∧ echoCounter (listenReadError c) = echoCounter c
  ∧ echoCounter (fst (Stop c)) = echoCounter c.
Proof.
  intros Hlo Hhi. destruct (runOps_echo ops c Hlo Hhi) as (Hreq & _ & _).
  split; [exact Hreq|]. split; [|split; [|split; reflexivity]].
  - intros i j ri rj Hij Hi Hj.
    exists (echoCounter c + Z.of_nat i + 1), (echoCounter c + Z.of_nat j + 1).
    split; [exact (Hreq i ri Hi)|]. split; [exact (Hreq j rj Hj)|]. lia.
  - intros [k|e]; reflexivity.
Qed.

(** Two sends on a started channel. *)
Lemma C9_echo_counter_witness :
  map req_Echo
    (snd (runOps (NewOneBotChannel exampleConfig)
            [ OpStart (inl 1%nat);
              OpSend (mkOutbound "group:5" "a") None;
              OpSend (mkOutbound "77" "b") None ]))
  = ["send_1"; "send_2"].
Proof.
  destruct (C9_echo_counter (NewOneBotChannel exampleConfig)
              [ OpStart (inl 1%nat);
                OpSend (mkOutbound "group:5" "a") None;
                OpSend (mkOutbound "77" "b") None ])
    as (Hreq & _); [cbn; lia | cbn; lia |].
  reflexivity.
Defined.

(** C9 as stated fails on a reconnect: the first request of the second
    connection carries send_2, the counter having stayed at 1 through the
    read error and the new connect instead of starting again. *)
Lemma C9_connection_scope_counterexample :
  map req_Echo (snd (runOps (NewOneBotChannel exampleConfig) reconnectTrace))
  = ["send_1"; "send_2"]
  ∧ conn (fst (runOps (NewOneBotChannel exampleConfig) (firstn 2 reconnectTrace))) = Some 1%nat
  ∧ conn (fst (runOps (NewOneBotChannel exampleConfig) (firstn 4 reconnectTrace))) = Some 2%nat
  ∧ echoCounter (fst (runOps (NewOneBotChannel exampleConfig) (firstn 4 reconnectTrace))) = 1.
Proof. repeat split. Qed.

(** * Further properties of the adapter *)

(** ** Dispatcher: what reaches the bus *)

(** A de-duplication check touches the window only. *)
Lemma isDuplicate_frame (c : OneBotChannel) (id : string) (b : bool) (c' : OneBotChannel) :
  isDuplicate c id = Some (b, c') →
  running c' = running c ∧ config c' = config c ∧ conn c' = conn c
  ∧ echoCounter c' = echoCounter c.
Proof.
  unfold isDuplicate. destruct (String.eqb id "" || String.eqb id "0").
  { intros [= _ <-]. repeat split. }
  destruct (bool_decide (id ∈ dedup c)).
  { intros [= _ <-]. repeat split. }
  destruct (dedupRing c !! dedupIdx c); [|discriminate].
  intros [= _ <-]. repeat split.
Qed.

Lemma metadata_message_id (evt : oneBotEvent) (senderID chatID content : string)
    (metadata : gmap string string) :
  metadata !! "message_id" = Some (evt_MessageID evt) →
  call_metadata (forward evt senderID chatID content metadata) !! "message_id"
  = Some (evt_MessageID evt).
Proof.
  intros H. unfold forward. cbn [call_metadata].
  destruct (negb _); [|exact H]. now rewrite lookup_insert_ne.
Qed.

(** What a bus call tells about the event behind it. *)
Lemma handleMessage_call (c c' : OneBotChannel) (evt : oneBotEvent) (call : busCall) :
  handleMessage c evt = Some (c', Some call) →
  isDuplicate c (evt_MessageID evt) = Some (false, c')
  ∧ evt_Content evt ≠ ""
  ∧ call_senderID call = FormatInt (evt_UserID evt)
  ∧ call_media call = []
  ∧ call_metadata call !! "message_id" = Some (evt_MessageID evt)
  ∧ ((evt_MessageType evt = "private"
      ∧ call_chatID call = "private:" ++ FormatInt (evt_UserID evt)
      ∧ call_content call = evt_Content evt)
     ∨ (evt_MessageType evt = "group"
        ∧ call_chatID call = "group:" ++ FormatInt (evt_GroupID evt)
        ∧ checkGroupTrigger (cfg_GroupTriggerPrefix (config c)) (evt_Content evt)
            (evt_IsBotMentioned evt)
          = (true, call_content call))).
Proof.
  unfold handleMessage.
  destruct (isDuplicate c (evt_MessageID evt)) as [[[|] c1]|] eqn:E; try discriminate.
  destruct (isDuplicate_frame _ _ _ _ E) as (_ & Hcfg & _). rewrite Hcfg.
  destruct (String.eqb_spec (evt_Content evt) "") as [|Hne]; [discriminate|].
  destruct (String.eqb_spec (evt_MessageType evt) "private") as [Hp|_].
  { intros [= <- <-]. split; [reflexivity|]. split; [exact Hne|].
    split; [reflexivity|]. split; [reflexivity|]. split.
    - apply metadata_message_id. apply lookup_singleton_eq.
    - left. repeat split. exact Hp. }
  destruct (String.eqb_spec (evt_MessageType evt) "group") as [Hg|_]; [|discriminate].
  destruct (checkGroupTrigger _ _ _) as [[|] stripped]; cbn [negb]; [|discriminate].
  intros [= <- <-]. split; [reflexivity|]. split; [exact Hne|].
  split; [reflexivity|]. split; [reflexivity|]. split.
  - apply metadata_message_id.
    repeat match goal with
           | |- context [if ?b then _ else _] => destruct b
           end;
      rewrite ?lookup_insert_ne by discriminate; apply lookup_singleton_eq.
  - right. repeat split. exact Hg.
Qed.

(** The check of an id that is new to the window. *)
Lemma isDuplicate_fresh (c : OneBotChannel) (id : string) :
  dedupInv c → (validID id → id ∉ dedup c) →
  ∃ c', isDuplicate c id = Some (false, c')
        ∧ config c' = config c
        ∧ (validID id → id ∈ dedup c').
Proof.
  intros Hinv Hfresh.
  destruct (isDuplicate_cases c id Hinv)
    as [[Hnv E] | [(Hv & Hin & _) | (Hv & _ & old & _ & E)]].
  - exists c. split; [exact E|]. split; [reflexivity|]. intros Hv. now elim Hnv.
  - now elim (Hfresh Hv).
  - eexists. split; [exact E|]. split; [reflexivity|]. intros _.
    exact (proj1 (insert_records c id old Hinv)).
Qed.

(** X1. Whenever [handleMessage] hands a message to the bus, the id of
    the event was answered "not a duplicate" by the check that produced
    the new state, the content of the event was not empty, the sender id
    is the user id in decimal, no media is attached, the metadata carries
    the message id, and the event was either private, forwarded verbatim to
    chat "private:<user id>", or a group message that passed the trigger,
    forwarded with the stripped content to chat "group:<group id>".  So a
    duplicate, an empty message, a message of any other type and an
    untriggered group message never reach the bus. *)
Theorem X1_forward_only_if (c c' : OneBotChannel) (evt : oneBotEvent) (call : busCall) :
  handleMessage c evt = Some (c', Some call) →
  isDuplicate c (evt_MessageID evt) = Some (false, c')
  ∧ evt_Content evt ≠ ""
  ∧ call_senderID call = FormatInt (evt_UserID evt)
  ∧ call_media call = []
  ∧ call_metadata call !! "message_id" = Some (evt_MessageID evt)
  ∧ ((evt_MessageType evt = "private"
      ∧ call_chatID call = "private:" ++ FormatInt (evt_UserID evt)
      ∧ call_content call = evt_Content evt)
     ∨ (evt_MessageType evt = "group"
        ∧ call_chatID call = "group:" ++ FormatInt (evt_GroupID evt)
        ∧ checkGroupTrigger (cfg_GroupTriggerPrefix (config c)) (evt_Content evt)
            (evt_IsBotMentioned evt)
          = (true, call_content call))).
Proof. apply handleMessage_call. Qed.

(** A private message without id on a new channel: the call made names the
    sender and carries the empty id. *)
Lemma X1_forward_only_if_witness :
  call_senderID
    (mkCall "123" "private:123" "hello" [] {["message_id" := ""]}) = "123"
  ∧ isDuplicate (NewOneBotChannel exampleConfig) ""
    = Some (false, NewOneBotChannel exampleConfig).
Proof.
  destruct (X1_forward_only_if (NewOneBotChannel exampleConfig)
              (NewOneBotChannel exampleConfig) (privateEvent "" "hello")
              (mkCall "123" "private:123" "hello" [] {["message_id" := ""]})
              eq_refl)
    as (Hdup & _ & Hsender & _).
  split; [exact Hsender | exact Hdup].
Defined.

(** X2. On a reached channel a private message with non-empty content
    whose id is new to the window (or is "" or "0") is always forwarded,
    whatever the trigger prefixes are: the content goes to the bus byte for
    byte, untrimmed, for chat "private:<user id>", with the message id and,
    when the sender has one, the nickname as the only metadata; an id other
    than "" and "0" is in the window afterwards. *)
Theorem X2_private_forwarded (c : OneBotChannel) (evt : oneBotEvent) :
  reachable c →
  evt_MessageType evt = "private" → evt_Content evt ≠ "" →
  (validID (evt_MessageID evt) → evt_MessageID evt ∉ dedup c) →
  ∃ c',
    handleMessage c evt
    = Some (c', Some (mkCall (FormatInt (evt_UserID evt))
                        ("private:" ++ FormatInt (evt_UserID evt))
                        (evt_Content evt) []
                        (if String.eqb (sender_Nickname (evt_Sender evt)) ""
                         then {["message_id" := evt_MessageID evt]}
                         else <["nickname" := sender_Nickname (evt_Sender evt)]>
                                {["message_id" := evt_MessageID evt]})))
    ∧ (validID (evt_MessageID evt) → evt_MessageID evt ∈ dedup c').
Proof.
  intros Hreach Htype Hne Hfresh.
  destruct (isDuplicate_fresh c _ (reachable_dedupInv c Hreach) Hfresh)
    as (c' & E & _ & Hin).
  exists c'. split; [|exact Hin].
  unfold handleMessage. rewrite E.
  apply String.eqb_neq in Hne. rewrite Hne, Htype. cbn [String.eqb Ascii.eqb Bool.eqb].
  unfold forward. now destruct (String.eqb (sender_Nickname (evt_Sender evt)) "").
Qed.

(** The private message "  hello " with id "77" on a new channel. *)
Lemma X2_private_forwarded_witness :
  ∃ c',
    handleMessage (NewOneBotChannel exampleConfig) (privateEvent "77" "  hello ")
    = Some (c', Some (mkCall "123" "private:123" "  hello " []
                        {["message_id" := "77"]}))
    ∧ "77" ∈ dedup c'.
Proof.
  destruct (X2_private_forwarded (NewOneBotChannel exampleConfig)
              (privateEvent "77" "  hello ") (reach_new exampleConfig) eq_refl)
    as (c' & E & Hin).
  - discriminate.
  - intros _. apply not_elem_of_empty.
  - exists c'. split; [exact E|]. apply Hin. split; discriminate.
Defined.

(** X3. On a reached channel a group message with non-empty content whose
    id is new to the window goes through the trigger: untriggered it is
    dropped, triggered it is forwarded for chat "group:<group id>" with the
    stripped content, even when the stripping left nothing, and with
    metadata group_id, sender_name (the card, or else the nickname, when
    not empty), sender_user_id (when the sender's user id decodes to a
    positive number) and nickname (when not empty).  Either way an id other
    than "" and "0" is in the window afterwards. *)
Theorem X3_group_dispatch (c : OneBotChannel) (evt : oneBotEvent)
    (triggered : bool) (stripped : string) :
  reachable c →
  evt_MessageType evt = "group" → evt_Content evt ≠ "" →
  (validID (evt_MessageID evt) → evt_MessageID evt ∉ dedup c) →
  checkGroupTrigger (cfg_GroupTriggerPrefix (config c)) (evt_Content evt)
    (evt_IsBotMentioned evt) = (triggered, stripped) →
  ∃ c' r,
    handleMessage c evt = Some (c', r)
    ∧ (validID (evt_MessageID evt) → evt_MessageID evt ∈ dedup c')
    ∧ (triggered = false → r = None)
    ∧ (triggered = true →
       ∃ call, r = Some call
         ∧ call_senderID call = FormatInt (evt_UserID evt)
         ∧ call_chatID call = "group:" ++ FormatInt (evt_GroupID evt)
         ∧ call_content call = stripped
         ∧ call_metadata call !! "group_id" = Some (FormatInt (evt_GroupID evt))
         ∧ call_metadata call !! "sender_name"
           = (if negb (String.eqb (sender_Card (evt_Sender evt)) "")
              then Some (sender_Card (evt_Sender evt))
              else if negb (String.eqb (sender_Nickname (evt_Sender evt)) "")
              then Some (sender_Nickname (evt_Sender evt))
              else None)
         ∧ call_metadata call !! "sender_user_id"
           = (if 0 <? fst (parseJSONInt64 (sender_UserID (evt_Sender evt)))
              then Some (FormatInt (fst (parseJSONInt64 (sender_UserID (evt_Sender evt)))))
              else None)
         ∧ call_metadata call !! "nickname"
           = (if negb (String.eqb (sender_Nickname (evt_Sender evt)) "")
              then Some (sender_Nickname (evt_Sender evt))
              else None)).
Proof.
  intros Hreach Htype Hne Hfresh Htrig.
  destruct (isDuplicate_fresh c _ (reachable_dedupInv c Hreach) Hfresh)
    as (c' & E & Hcfg & Hin).
  unfold handleMessage. rewrite E, Hcfg, Htrig.
  apply String.eqb_neq in Hne. rewrite Hne, Htype. cbn [String.eqb Ascii.eqb Bool.eqb].
  destruct triggered; cbn [negb].
  - eexists c', _. split; [reflexivity|]. split; [exact Hin|].
    split; [discriminate|]. intros _. eexists. split; [reflexivity|].
    unfold forward. cbn [call_senderID call_chatID call_content call_metadata].
    split; [reflexivity|]. split; [reflexivity|]. split; [reflexivity|].
    destruct (0 <? fst (parseJSONInt64 (sender_UserID (evt_Sender evt))));
      destruct (negb (String.eqb (sender_Card (evt_Sender evt)) ""));
      destruct (negb (String.eqb (sender_Nickname (evt_Sender evt)) ""));
      repeat split;
      repeat first [ rewrite lookup_insert_eq; reflexivity
                   | rewrite lookup_insert_ne by discriminate
                   | rewrite lookup_singleton_ne by discriminate; reflexivity ].
  - exists c', None. split; [reflexivity|]. split; [exact Hin|].
    split; [reflexivity | discriminate].
Qed.

(** With the prefix "!bot ", the group message "!bot " (the prefix and
    nothing else) is forwarded with empty content, and "hello" is dropped
    with its id recorded. *)
Lemma X3_group_dispatch_witness :
  (∃ c' call,
      handleMessage (NewOneBotChannel exampleConfig) (exampleEvent "78" "!bot ")
      = Some (c', Some call)
      ∧ call_content call = "" ∧ call_chatID call = "group:456")
  ∧ (∃ c',
        handleMessage (NewOneBotChannel exampleConfig) (exampleEvent "79" "hello")
        = Some (c', None)
        ∧ "79" ∈ dedup c').
Proof.
  split.
  - destruct (X3_group_dispatch (NewOneBotChannel exampleConfig)
                (exampleEvent "78" "!bot ") true "" (reach_new exampleConfig) eq_refl)
      as (c' & r & E & _ & _ & Hcall).
    + discriminate.
    + intros _. apply not_elem_of_empty.
    + reflexivity.
    + destruct (Hcall eq_refl) as (call & -> & _ & Hchat & Hcontent & _).
      exists c', call. split; [exact E|]. split; [exact Hcontent | exact Hchat].
  - destruct (X3_group_dispatch (NewOneBotChannel exampleConfig)
                (exampleEvent "79" "hello") false "hello" (reach_new exampleConfig) eq_refl)
      as (c' & r & E & Hin & Hnone & _).
    + discriminate.
    + intros _. apply not_elem_of_empty.
    + reflexivity.
    + rewrite (Hnone eq_refl) in E. exists c'. split; [exact E|].
      apply Hin. split; discriminate.
Defined.

(** ** Replies find their way back *)

Lemma parseUintLoop_range (s0 s : string) :
  ∀ n, 0 <= n <= maxUint64 → 0 <= fst (parseUintLoop s0 s n) <= maxUint64.
Proof.
  induction s as [|c r IH]; intros n Hn; cbn [parseUintLoop fst]; [exact Hn|].
  assert (Hmax : 0 <= maxUint64) by (unfold maxUint64; lia).
  destruct (digitOf (byte c)) as [d|]; [|cbn; lia].
  destruct (10 <=? d); [cbn; lia|].
  destruct (maxUint64 / 10 + 1 <=? n); [cbn; lia|].
  destruct (_ || _); [cbn; lia|].
  apply IH. pose proof (Z.mod_pos_bound (n * 10 + d) (2 ^ 64) ltac:(lia)).
  unfold maxUint64. lia.
Qed.

Lemma ParseUint_range (s : string) : 0 <= fst (ParseUint s) <= maxUint64.
Proof.
  assert (Hmax : 0 <= maxUint64) by (unfold maxUint64; lia).
  destruct s; [cbn; lia|]. unfold ParseUint. apply parseUintLoop_range. lia.
Qed.

(** ParseInt returns an int64 on every input, error or not. *)
Lemma ParseInt_range (s : string) : int64 (fst (ParseInt s)).
Proof.
  unfold int64. destruct s as [|c r]; [cbn; lia|]. unfold ParseInt.
  set (t := if (byte c =? 43) || (byte c =? 45) then r else String c r).
  pose proof (ParseUint_range t) as Hr.
  destruct (ParseUint t) as [un err]. cbn [fst] in Hr.
  assert (Hcut : ∀ neg : bool,
             int64 (fst (if negb neg && (2 ^ 63 <=? un)
                         then (2 ^ 63 - 1, Some (mkNumError "ParseInt" (String c r) ErrRange))
                         else if neg && (2 ^ 63 <? un)
                         then (- 2 ^ 63, Some (mkNumError "ParseInt" (String c r) ErrRange))
                         else (if neg then - un else un, None)))).
  { intros neg. unfold int64.
    destruct neg; cbn [negb andb].
    - destruct (2 ^ 63 <? un) eqn:E; cbn [fst]; [lia|]. apply Z.ltb_ge in E. lia.
    - destruct (2 ^ 63 <=? un) eqn:E; cbn [fst]; [lia|]. apply Z.leb_gt in E. lia. }
  destruct err as [[f nm [|]]|]; [cbn; lia | apply Hcut | apply Hcut].
Qed.

Lemma parseJSONInt64_range (raw : RawMessage) : int64 (fst (parseJSONInt64 raw)).
Proof.
  assert (H0 : int64 0) by (unfold int64; lia).
  unfold parseJSONInt64. destruct (len (bytes_of raw) =? 0)%nat; [exact H0|].
  unfold Unmarshal_int64, Unmarshal_string.
  destruct (shape_of raw) as [| |b|lit g|s|l|m]; try exact H0.
  - pose proof (ParseInt_range lit) as H.
    destruct (ParseInt lit) as [v [e|]]; [exact H0 | exact H].
  - pose proof (ParseInt_range s) as H.
    destruct (ParseInt s) as [v e]. exact H.
Qed.

(** The chat ids [handleMessage] makes are read back by
    [buildSendRequest]. *)
Lemma buildSendRequest_group (n : Z) (content : string) :
  int64 n →
  buildSendRequest (mkOutbound ("group:" ++ FormatInt n) content)
  = inl ("send_group_msg", GroupParams (mkGroupParams n content)).
Proof.
  intros Hn. pose proof (ParseInt_FormatInt n Hn) as Hs.
  unfold buildSendRequest. cbn [out_ChatID out_Content].
  pose proof (guard_tagged "group:" _ (ParseInt_ok_nonempty _ _ Hs)) as G.
  change (len "group:") with 6%nat in G. rewrite G.
  change (drop 6 ("group:" ++ FormatInt n)) with (FormatInt n). now rewrite Hs.
Qed.

Lemma buildSendRequest_private (n : Z) (content : string) :
  int64 n →
  buildSendRequest (mkOutbound ("private:" ++ FormatInt n) content)
  = inl ("send_private_msg", PrivateParams (mkPrivateParams n content)).
Proof.
  intros Hn. pose proof (ParseInt_FormatInt n Hn) as Hs.
  unfold buildSendRequest. cbn [out_ChatID out_Content].
  assert (G0 : (6 <? len ("private:" ++ FormatInt n))%nat
               && String.eqb (take 6 ("private:" ++ FormatInt n)) "group:" = false)
    by (apply andb_false_iff; right; reflexivity).
  rewrite G0.
  pose proof (guard_tagged "private:" _ (ParseInt_ok_nonempty _ _ Hs)) as G.
  change (len "private:") with 8%nat in G. rewrite G.
  change (drop 8 ("private:" ++ FormatInt n)) with (FormatInt n). now rewrite Hs.
Qed.

(** The fields of a normalised event that are decoded on their own. *)
Lemma normalize_ids (raw : oneBotRawEvent) (evt : oneBotEvent) :
  normalizeMessageEvent raw = inl evt →
  evt_MessageType evt = raw_MessageType raw
  ∧ evt_MessageID evt = parseJSONString (raw_MessageID raw)
  ∧ evt_UserID evt = fst (parseJSONInt64 (raw_UserID raw))
  ∧ evt_GroupID evt = fst (parseJSONInt64 (raw_GroupID raw))
  ∧ evt_SelfID evt = fst (parseJSONInt64 (raw_SelfID raw)).
Proof.
  unfold normalizeMessageEvent.
  destruct (parseJSONInt64 (raw_UserID raw)) as [uid [e|]]; [discriminate|].
  match goal with
  | |- context [let '(_, _) := ?x in _] => destruct x as [content m]
  end.
  intros [= <-]. repeat split.
Qed.

(** X4. The chat id of every bus call that [handleRawEvent] makes is an
    address [buildSendRequest] accepts, and it leads back to where the
    message came from: for a group message the request is send_group_msg
    with the group id the event decoded to, for a private message
    send_private_msg with its user id, whatever these ids are (they are
    int64 values, and FormatInt and ParseInt are inverse on those). *)
Theorem X4_reply_roundtrip (c c' : OneBotChannel) (raw : oneBotRawEvent) (call : busCall)
    (content : string) :
  handleRawEvent c raw = Some (c', Some call) →
  buildSendRequest (mkOutbound (call_chatID call) content)
  = inl (if String.eqb (raw_MessageType raw) "group"
         then ("send_group_msg",
               GroupParams (mkGroupParams (fst (parseJSONInt64 (raw_GroupID raw))) content))
         else ("send_private_msg",
               PrivateParams (mkPrivateParams (fst (parseJSONInt64 (raw_UserID raw))) content))).
Proof.
  unfold handleRawEvent.
  destruct (String.eqb (raw_PostType raw) "message");
    [|destruct (String.eqb (raw_PostType raw) "meta_event"); discriminate].
  destruct (normalizeMessageEvent raw) as [evt|e] eqn:En; [|discriminate].
  destruct (normalize_ids raw evt En) as (Ht & _ & Hu & Hg & _).
  intros H. apply handleMessage_call in H as (_ & _ & _ & _ & _ & Hcase).
  destruct Hcase as [(Hp & Hchat & _) | (Hgr & Hchat & _)]; rewrite Hchat.
  - rewrite <- Ht, Hp, Hu. cbn [String.eqb Ascii.eqb Bool.eqb].
    apply buildSendRequest_private, parseJSONInt64_range.
  - rewrite <- Ht, Hgr, Hg. cbn [String.eqb Ascii.eqb Bool.eqb].
    apply buildSendRequest_group, parseJSONInt64_range.
Qed.

(** The reply to a private message from user 123. *)
Lemma X4_reply_roundtrip_witness :
  buildSendRequest (mkOutbound "private:123" "pong")
  = inl ("send_private_msg", PrivateParams (mkPrivateParams 123 "pong")).
Proof.
  exact (X4_reply_roundtrip (NewOneBotChannel exampleConfig)
           (NewOneBotChannel exampleConfig) unnumberedEvent
           (mkCall "123" "private:123" "hello" [] {["message_id" := "0"]})
           "pong" eq_refl).
Defined.

(** ** Listener *)

(** [handleMessage] leaves the state its de-duplication check left, and
    makes no bus call after a hit. *)
Lemma handleMessage_state (c c' : OneBotChannel) (evt : oneBotEvent) (r : option busCall) :
  handleMessage c evt = Some (c', r) →
  ∃ b, isDuplicate c (evt_MessageID evt) = Some (b, c') ∧ (b = true → r = None).
Proof.
  unfold handleMessage.
  destruct (isDuplicate c (evt_MessageID evt)) as [[[|] c1]|]; [| |discriminate].
  - intros [= <- <-]. now exists true.
  - intros H. exists false. split; [|discriminate].
    destruct (String.eqb _ ""); [now injection H as <- _|].
    destruct (String.eqb _ "private"); [now injection H as <- _|].
    destruct (String.eqb _ "group"); [|now injection H as <- _].
    destruct (checkGroupTrigger _ _ _) as [[|] s]; now injection H as <- _.
Qed.

Lemma handleMessage_total (c : OneBotChannel) (evt : oneBotEvent) :
  dedupInv c → ∃ c' r, handleMessage c evt = Some (c', r).
Proof.
  intros Hinv. unfold handleMessage.
  destruct (isDuplicate_cases c (evt_MessageID evt) Hinv)
    as [[_ E] | [(_ & _ & E) | (_ & _ & old & _ & E)]]; rewrite E; eauto;
    destruct (String.eqb _ ""); eauto;
    destruct (String.eqb _ "private"); eauto;
    destruct (String.eqb _ "group"); eauto;
    destruct (checkGroupTrigger _ _ _) as [[|] s]; cbn [negb]; eauto.
Qed.

(** A frame is dropped, or its event goes to [handleMessage]. *)
Lemma listenFrame_frameEvent (c : OneBotChannel) (message : RawMessage) :
  listenFrame c message
  = match frameEvent message with
    | Some evt => handleMessage c evt
    | None => Some (c, None)
    end.
Proof.
  unfold listenFrame, frameEvent, handleRawEvent, handleMetaEvent.
  destruct (Unmarshal_rawEvent message zeroRawEvent) as [raw [e|]]; [reflexivity|].
  destruct (negb _ || _ || _); [reflexivity|].
  destruct (String.eqb (raw_PostType raw) "message").
  - destruct (normalizeMessageEvent raw); reflexivity.
  - destruct (String.eqb (raw_PostType raw) "meta_event"); reflexivity.
Qed.

(** What a frame can do to the channel: nothing, or one de-duplication
    check. *)
Lemma listenFrame_state (c c' : OneBotChannel) (message : RawMessage) (r : option busCall) :
  listenFrame c message = Some (c', r) →
  (c' = c ∧ r = None)
  ∨ ∃ evt b, frameEvent message = Some evt
             ∧ isDuplicate c (evt_MessageID evt) = Some (b, c')
             ∧ (b = true → r = None).
Proof.
  rewrite listenFrame_frameEvent.
  destruct (frameEvent message) as [evt|]; [|intros [= <- <-]; now left].
  intros H. apply handleMessage_state in H as (b & E & Hb). right. eauto.
Qed.

Lemma listenFrame_total (c : OneBotChannel) (message : RawMessage) :
  dedupInv c → ∃ c' r, listenFrame c message = Some (c', r).
Proof.
  intros Hinv. rewrite listenFrame_frameEvent.
  destruct (frameEvent message); [now apply handleMessage_total | eauto].
Qed.

Lemma listenFrame_reachable (c c' : OneBotChannel) (message : RawMessage) (r : option busCall) :
  reachable c → listenFrame c message = Some (c', r) →
  reachable c' ∧ running c' = running c ∧ config c' = config c
  ∧ conn c' = conn c ∧ echoCounter c' = echoCounter c.
Proof.
  intros Hreach H.
  apply listenFrame_state in H as [[-> _] | (evt & b & _ & E & _)].
  - repeat split. exact Hreach.
  - split; [exact (reach_isDuplicate _ _ _ _ Hreach E)|].
    exact (isDuplicate_frame _ _ _ _ E).
Qed.

(** A run of the listener on a reached channel. *)
Lemma listen_runs (reads : list readResult) :
  ∀ c : OneBotChannel,
    reachable c →
    ∃ c' calls,
      listen c reads = Some (c', calls)
      ∧ reachable c'
      ∧ (length calls <= length reads)%nat
      ∧ running c' = running c ∧ config c' = config c
      ∧ echoCounter c' = echoCounter c
      ∧ (conn c' = conn c ∨ conn c' = None).
Proof.
  induction reads as [|r reads IH]; intros c Hreach.
  { exists c, []. cbn. repeat split; auto. }
  cbn [listen]. destruct (conn c) as [k|] eqn:Hk.
  2:{ exists c, []. cbn. repeat split; auto; lia. }
  destruct r as [message|e].
  - destruct (listenFrame_total c message (reachable_dedupInv c Hreach))
      as (c1 & call & E). rewrite E.
    destruct (listenFrame_reachable _ _ _ _ Hreach E) as (Hr1 & Hrun & Hcfg & Hconn & Hecho).
    destruct (IH c1 Hr1) as (c2 & calls & E2 & Hr2 & Hlen & Hrun2 & Hcfg2 & Hecho2 & Hconn2).
    rewrite E2. eexists c2, _. split; [reflexivity|]. split; [exact Hr2|].
    split; [destruct call; cbn [length]; lia|].
    split; [congruence|]. split; [congruence|]. split; [congruence|].
    destruct Hconn2 as [H|H]; [left; congruence | now right].
  - exists (listenReadError c), []. split; [reflexivity|].
    split; [exact (reach_op c OpReadError Hreach)|].
    cbn. repeat split; auto; lia.
Qed.

(** X5. On a reached channel the listener never panics, whatever the
    frames are: a run returns a reached state and at most one bus call per
    frame read; it leaves the running flag, the configuration and the echo
    counter alone, and the handle is the one it started with or nil. *)
Theorem X5_listen_total (c : OneBotChannel) (reads : list readResult) :
  reachable c →
  ∃ c' calls,
    listen c reads = Some (c', calls)
    ∧ reachable c'
    ∧ (length calls <= length reads)%nat
    ∧ running c' = running c ∧ config c' = config c
    ∧ echoCounter c' = echoCounter c
    ∧ (conn c' = conn c ∨ conn c' = None).
Proof. apply listen_runs. Qed.

(** The listener of a started channel on a message, an API response and
    text that is no JSON at all. *)
Lemma X5_listen_total_witness :
  ∃ c' calls,
    listen startedChannel
      [ReadFrame (privateFrame "77" "hello"); ReadFrame responseFrame;
       ReadFrame (Raw "pong" JInvalid)]
    = Some (c', calls)
    ∧ (length calls <= 3)%nat ∧ running c' = true.
Proof.
  destruct (X5_listen_total startedChannel
              [ReadFrame (privateFrame "77" "hello"); ReadFrame responseFrame;
               ReadFrame (Raw "pong" JInvalid)]
              (reach_op _ (OpStart (inl 1%nat)) (reach_new exampleConfig)))
    as (c' & calls & E & _ & Hlen & Hrun & _).
  exists c', calls. split; [exact E|]. split; [exact Hlen | exact Hrun].
Defined.

Lemma setConn_None (c : OneBotChannel) : conn c = None → setConn c None = c.
Proof. destruct c. cbn. now intros ->. Qed.

(** X6. A read error ends the listener: the frames after it are not
    read, and the run returns the bus calls made before it and the state
    reached before it with the handle cleared, the window, the counter and
    the running flag being as they were. *)
Theorem X6_listen_read_error (reads1 : list readResult) (e : error)
    (reads2 : list readResult) (c c1 : OneBotChannel) (calls1 : list busCall) :
  listen c reads1 = Some (c1, calls1) →
  listen c (reads1 ++ ReadError e :: reads2)%list
  = Some (listenReadError c1, calls1).
Proof.
  revert c c1 calls1. induction reads1 as [|r reads1 IH]; intros c c1 calls1.
  - cbn [app listen]. intros [= <- <-]. destruct (conn c) eqn:Hk; [reflexivity|].
    unfold listenReadError. now rewrite setConn_None.
  - cbn [app listen]. destruct (conn c) eqn:Hk.
    2:{ intros [= <- <-]. unfold listenReadError. now rewrite setConn_None. }
    destruct r as [message|e'].
    2:{ intros [= <- <-]. reflexivity. }
    destruct (listenFrame c message) as [[c2 call]|]; [|discriminate].
    destruct (listen c2 reads1) as [[c3 calls3]|] eqn:E3; [|discriminate].
    intros [= <- <-]. now rewrite (IH c2 c3 calls3 E3).
Qed.

(** An API response, a read error, then a message that is never read. *)
Lemma X6_listen_read_error_witness :
  listen startedChannel
    [ReadFrame responseFrame; ReadError ErrSyntaxJSON;
     ReadFrame (privateFrame "77" "hello")]
  = Some (listenReadError startedChannel, []).
Proof.
  exact (X6_listen_read_error [ReadFrame responseFrame] ErrSyntaxJSON
           [ReadFrame (privateFrame "77" "hello")] startedChannel startedChannel []
           eq_refl).
Defined.

(** A frame whose id sits [d] places ahead of the cursor is dropped when
    it comes again after at most [d] other frames. *)
Lemma listen_held (message : RawMessage) (evt : oneBotEvent) (reads : list readResult) :
  frameEvent message = Some evt → validID (evt_MessageID evt) →
  ∀ (c : OneBotChannel) (d : nat),
    dedupInv c → (length reads <= d < dedupSize)%nat →
    dedupRing c !! slotAhead c d = Some (evt_MessageID evt) →
    listen c (reads ++ [ReadFrame message])%list = listen c reads.
Proof.
  intros Hevt Hv. induction reads as [|r reads IH]; intros c d Hinv Hd Hat.
  - cbn [app listen]. destruct (conn c); [|reflexivity].
    rewrite listenFrame_frameEvent, Hevt. unfold handleMessage.
    rewrite (isDuplicate_present c _ Hv
               (held_is_present c _ _ Hinv (proj1 Hv) Hat)).
    reflexivity.
  - cbn [app listen length] in *. destruct (conn c); [|reflexivity].
    destruct r as [m|e]; [|reflexivity].
    destruct (listenFrame c m) as [[c1 call]|] eqn:E; [|reflexivity].
    assert (Hnext : listen c1 (reads ++ [ReadFrame message])%list = listen c1 reads).
    { apply listenFrame_state in E as [[-> _] | (evt' & b & _ & E & _)].
      - apply (IH c d Hinv); [lia | exact Hat].
      - destruct (isDuplicate_cases c (evt_MessageID evt') Hinv)
          as [[_ E'] | [(_ & _ & E') | (Hv' & Hnot & old & Hold & E')]];
          rewrite E' in E; injection E as <- <-.
        + apply (IH c d Hinv); [lia | exact Hat].
        + apply (IH c d Hinv); [lia | exact Hat].
        + apply (IH _ (d - 1)%nat (dedupInv_insert c _ old Hinv Hv' Hnot Hold)); [lia|].
          apply insert_ahead; [exact Hinv | lia | exact Hat]. }
    now rewrite Hnext.
Qed.

(** X7. A message frame that comes a second time within the window is a
    no-op.  Let a frame carry a message event whose id is other than ""
    and "0" and new to the window of a reached channel; if the same frame
    is read again after fewer than 1024 other reads, frames of any kind,
    the run ends in the same state and with the same bus calls as the run
    without the second delivery: nothing is forwarded twice. *)
Theorem X7_redelivery_dropped (c : OneBotChannel) (message : RawMessage)
    (evt : oneBotEvent) (reads : list readResult) :
  reachable c →
  frameEvent message = Some evt →
  validID (evt_MessageID evt) → evt_MessageID evt ∉ dedup c →
  (length reads < dedupSize)%nat →
  ∃ c' calls,
    listen c (ReadFrame message :: reads) = Some (c', calls)
    ∧ listen c (ReadFrame message :: reads ++ [ReadFrame message])%list
      = Some (c', calls).
Proof.
  intros Hreach Hevt Hv Hnot Hlen.
  pose proof (reachable_dedupInv c Hreach) as Hinv.
  destruct (listen_runs (ReadFrame message :: reads) c Hreach)
    as (c' & calls & Erun & _).
  exists c', calls. split; [exact Erun|]. rewrite <- Erun.
  cbn [listen]. destruct (conn c); [|reflexivity].
  destruct (listenFrame c message) as [[c1 call]|] eqn:E; [|reflexivity].
  destruct (isDuplicate_insert c _ Hv Hnot Hinv) as (old & Hold & Ei).
  assert (Hc1 : c1 = inserted c (evt_MessageID evt) old).
  { rewrite listenFrame_frameEvent, Hevt in E.
    apply handleMessage_state in E as (b & E & _). congruence. }
  subst c1.
  rewrite (listen_held message evt reads Hevt Hv _ (dedupSize - 1)%nat
             (dedupInv_insert c _ old Hinv Hv Hnot Hold)).
  - reflexivity.
  - lia.
  - exact (insert_written c _ old Hinv).
Qed.

(** Message 77, message 78 and message 77 again on a started channel. *)
Lemma X7_redelivery_dropped_witness :
  ∃ c' calls,
    listen startedChannel
      [ReadFrame (privateFrame "77" "hello"); ReadFrame (privateFrame "78" "again")]
    = Some (c', calls)
    ∧ listen startedChannel
        [ReadFrame (privateFrame "77" "hello"); ReadFrame (privateFrame "78" "again");
         ReadFrame (privateFrame "77" "hello")]
      = Some (c', calls).
Proof.
  assert (Hv : validID "77") by (split; discriminate).
  assert (Hlen : (length [ReadFrame (privateFrame "78" "again")] < dedupSize)%nat)
    by (unfold dedupSize; cbn; lia).
  exact (X7_redelivery_dropped startedChannel (privateFrame "77" "hello")
           (privateEvent "77" "hello") [ReadFrame (privateFrame "78" "again")]
           (reach_op _ (OpStart (inl 1%nat)) (reach_new exampleConfig))
           eq_refl Hv (not_elem_of_empty "77") Hlen).
Defined.

(** X8. A frame leaves the channel untouched and reaches neither the
    window nor the bus when it does not decode into a raw event, when it
    is an API response (echo not empty, or a status that is online or
    good), when its post_type is not "message" (meta events, notices,
    requests, unknown types), or when its user_id cannot be coerced to an
    int64: in the last case the message id is not recorded. *)
Theorem X8_frame_dropped (c : OneBotChannel) (message : RawMessage) :
  let raw := fst (Unmarshal_rawEvent message zeroRawEvent) in
  snd (Unmarshal_rawEvent message zeroRawEvent) ≠ None
  ∨ raw_Echo raw ≠ ""
  ∨ Online (raw_Status raw) = true
  ∨ Good (raw_Status raw) = true
  ∨ raw_PostType raw ≠ "message"
  ∨ ¬ coercibleInt64 (raw_UserID raw) →
  listenFrame c message = Some (c, None).
Proof.
  intros raw H. subst raw. unfold listenFrame.
  destruct (Unmarshal_rawEvent message zeroRawEvent) as [raw [e|]]; [reflexivity|].
  cbn [fst snd] in H.
  destruct H as [H | [H | [H | [H | H]]]]; [now elim H | | | |].
  - apply String.eqb_neq in H. now rewrite H.
  - rewrite H. now rewrite orb_true_r.
  - rewrite H. now rewrite orb_true_r.
  - destruct (negb _ || _ || _); [reflexivity|]. unfold handleRawEvent.
    destruct H as [H | H].
    + apply String.eqb_neq in H. rewrite H.
      now destruct (String.eqb (raw_PostType raw) "meta_event").
    + destruct (String.eqb (raw_PostType raw) "message");
        [|now destruct (String.eqb (raw_PostType raw) "meta_event")].
      unfold normalizeMessageEvent.
      destruct (parseJSONInt64 (raw_UserID raw)) as [uid [e|]] eqn:E; [reflexivity|].
      elim H. apply parseJSONInt64_coercible. now rewrite E.
Qed.

(** The API response {"status":"ok","retcode":0,"echo":"send_1"}: its
    status is a string, which the decoder cannot put in the status
    struct. *)
Lemma X8_frame_dropped_witness :
  listenFrame startedChannel responseFrame = Some (startedChannel, None).
Proof.
  apply (X8_frame_dropped startedChannel responseFrame).
  left. assert (E : snd (Unmarshal_rawEvent responseFrame zeroRawEvent)
                    = Some ErrUnmarshalType) by reflexivity.
  rewrite E. discriminate.
Defined.

(** ** Connection handle and outbound sender *)

(** X9. [Start] returns nil exactly when a URL is configured and either
    reconnection is enabled or a connection exists after the dial (the dial
    succeeded, or a handle was there before).  After a nil return the
    channel is running, with the dialled connection when the dial
    succeeded and the old handle otherwise; after an error nothing has
    changed, so the channel is not set running. *)
Theorem X9_Start_outcome (c : OneBotChannel) (dial : Conn + error) :
  (snd (Start c dial) = None
   ↔ cfg_WSUrl (config c) ≠ ""
     ∧ (0 < cfg_ReconnectInterval (config c)
        ∨ (∃ k, dial = inl k) ∨ conn c ≠ None))
  ∧ (snd (Start c dial) = None →
     running (fst (Start c dial)) = true
     ∧ conn (fst (Start c dial))
       = match dial with inl k => Some k | inr _ => conn c end)
  ∧ (snd (Start c dial) ≠ None → fst (Start c dial) = c).
Proof.
  unfold Start.
  destruct (String.eqb_spec (cfg_WSUrl (config c)) "") as [Hu|Hu].
  { cbn [fst snd]. split; [|split; [discriminate | reflexivity]].
    split; [discriminate | intros [H _]; contradiction]. }
  destruct dial as [k|e]; cbn [connect fst].
  - change (config (setConn c (Some k))) with (config c).
    change (conn (setConn c (Some k))) with (Some k).
    destruct (0 <? cfg_ReconnectInterval (config c)); cbn [fst snd];
      (split; [|split; [intros _; split; reflexivity | intros H; now elim H]]);
      (split; [intros _; split; [exact Hu | right; left; eauto] | reflexivity]).
  - destruct (0 <? cfg_ReconnectInterval (config c)) eqn:Hi.
    + apply Z.ltb_lt in Hi. cbn [fst snd].
      split; [|split; [intros _; split; reflexivity | intros H; now elim H]].
      split; [intros _; split; [exact Hu | now left] | reflexivity].
    + apply Z.ltb_ge in Hi. destruct (conn c) as [k|] eqn:Hk; cbn [fst snd].
      * split; [|split; [intros _; split; [reflexivity | exact Hk] | intros H; now elim H]].
        split; [intros _; split; [exact Hu | right; right; discriminate] | reflexivity].
      * split; [|split; [discriminate | reflexivity]].
        split; [discriminate|]. intros [_ [H | [[k H] | H]]];
          [lia | discriminate | now elim H].
Qed.

(** A first start whose dial fails: with reconnection every 5 seconds the
    channel runs without a connection. *)
Lemma X9_Start_outcome_witness :
  snd (Start (NewOneBotChannel exampleConfig) (inr ErrSyntaxJSON)) = None
  ∧ running (fst (Start (NewOneBotChannel exampleConfig) (inr ErrSyntaxJSON))) = true
  ∧ conn (fst (Start (NewOneBotChannel exampleConfig) (inr ErrSyntaxJSON))) = None.
Proof.
  destruct (X9_Start_outcome (NewOneBotChannel exampleConfig) (inr ErrSyntaxJSON))
    as (Hiff & Hok & _).
  assert (H : snd (Start (NewOneBotChannel exampleConfig) (inr ErrSyntaxJSON)) = None).
  { apply Hiff. split; [discriminate|]. left. reflexivity. }
  split; [exact H|]. exact (Hok H).
Defined.

(** X10. [Send] builds no request exactly when the channel is not
    running, has no connection, or the chat id is not an address; it then
    returns an error and leaves the channel as it was, the echo counter
    included.  The checks come in that order: a channel that is not running
    says so whatever else is wrong, a running one without connection says
    so before it looks at the chat id.  When a request is built the counter
    has advanced by one and names the echo, and the error returned is the
    one of the write: a failed write still uses up its echo number. *)
Theorem X10_Send_rejections (c : OneBotChannel) (msg : OutboundMessage) (w : option error) :
  (snd (fst (Send c msg w)) = None
   ↔ running c = false ∨ conn c = None ∨ ∃ e, buildSendRequest msg = inr e)
  ∧ (snd (fst (Send c msg w)) = None →
     fst (fst (Send c msg w)) = c ∧ snd (Send c msg w) ≠ None)
  ∧ (running c = false →
     snd (Send c msg w) = Some (Errorf "OneBot channel not running"))
  ∧ (running c = true → conn c = None →
     snd (Send c msg w) = Some (Errorf "OneBot WebSocket not connected"))
  ∧ (∀ q, snd (fst (Send c msg w)) = Some q →
     snd (Send c msg w) = w
     ∧ echoCounter (fst (fst (Send c msg w))) = wrapInt64 (echoCounter c + 1)
     ∧ req_Echo q = echoOf (wrapInt64 (echoCounter c + 1))
     ∧ buildSendRequest msg = inl (req_Action q, req_Params q)).
Proof.
  unfold Send. destruct (running c); cbn [negb].
  2:{ repeat split; try discriminate; auto. }
  destruct (conn c) as [k|].
  2:{ repeat split; try discriminate; auto. }
  destruct (buildSendRequest msg) as [[a p]|e]; cbn [fst snd].
  - split; [|split; [discriminate|split; [discriminate|split; [discriminate|]]]].
    + split; [discriminate|]. intros [H | [H | [e H]]]; discriminate.
    + intros q [= <-]. repeat split.
  - split; [|split; [|split; [discriminate|split; [discriminate|discriminate]]]].
    + split; [eauto | reflexivity].
    + intros _. split; [reflexivity | discriminate].
Qed.

(** A send on a channel that was never started, to a chat id that is no
    address either, and a send on a started channel whose write fails. *)
Lemma X10_Send_rejections_witness :
  snd (Send (NewOneBotChannel exampleConfig) (mkOutbound "nobody" "hi") None)
  = Some (Errorf "OneBot channel not running")
  ∧ snd (Send startedChannel (mkOutbound "group:5" "hi") (Some ErrSyntaxJSON))
    = Some ErrSyntaxJSON
  ∧ echoCounter (fst (fst (Send startedChannel (mkOutbound "group:5" "hi")
                             (Some ErrSyntaxJSON)))) = 1.
Proof.
  destruct (X10_Send_rejections (NewOneBotChannel exampleConfig)
              (mkOutbound "nobody" "hi") None) as (_ & _ & Hrun & _).
  destruct (X10_Send_rejections startedChannel (mkOutbound "group:5" "hi")
              (Some ErrSyntaxJSON)) as (_ & _ & _ & _ & Hq).
  split; [exact (Hrun eq_refl)|].
  destruct (Hq (mkRequest "send_group_msg" (GroupParams (mkGroupParams 5 "hi")) "send_1")
              eq_refl) as (Hw & Hecho & _).
  split; [exact Hw | exact Hecho].
Defined.

Lemma applyOp_running (c : OneBotChannel) (o : op) :
  isStart o = false → running c = false →
  running (fst (applyOp c o)) = false ∧ snd (applyOp c o) = None.
Proof.
  intros Ho Hr. destruct o as [dial|dial| | |msg w]; try discriminate; cbn [applyOp].
  - destruct dial; cbn; auto.
  - cbn; auto.
  - cbn; auto.
  - unfold Send. rewrite Hr. cbn. auto.
Qed.

Lemma applyOp_conn (c : OneBotChannel) (o : op) :
  dials o = false → conn c = None →
  conn (fst (applyOp c o)) = None ∧ snd (applyOp c o) = None.
Proof.
  intros Ho Hc. destruct o as [[k|e]|[k|e]| | |msg w]; try discriminate; cbn [applyOp].
  - unfold Start. destruct (String.eqb _ ""); [cbn; auto|].
    cbn [connect fst]. destruct (0 <? _); [cbn; auto|]. rewrite Hc. cbn. auto.
  - cbn; auto.
  - cbn; auto.
  - cbn; auto.
  - unfold Send. destruct (negb (running c)); [cbn; auto|]. rewrite Hc. cbn. auto.
Qed.

(** X11. No request leaves a channel that is not running or has no
    connection: over any run of connects, read errors, stops and sends that
    holds no [Start], a channel that is not running builds no request and
    stays not running; over any run in which no dial succeeds, a channel
    without connection builds no request and stays without one. *)
Theorem X11_no_request_unless (c : OneBotChannel) (ops : list op) :
  (running c = false → Forall (fun o => isStart o = false) ops →
   snd (runOps c ops) = [] ∧ running (fst (runOps c ops)) = false)
  ∧ (conn c = None → Forall (fun o => dials o = false) ops →
     snd (runOps c ops) = [] ∧ conn (fst (runOps c ops)) = None).
Proof.
  split.
  - intros Hr Hall. revert c Hr. induction Hall as [|o ops Ho _ IH]; intros c Hr.
    + cbn. auto.
    + cbn [runOps]. destruct (applyOp_running c o Ho Hr) as [Hr1 Hn].
      destruct (applyOp c o) as [c1 r]. cbn [fst snd] in *. subst r.
      specialize (IH c1 Hr1). destruct (runOps c1 ops) as [c2 rs]. exact IH.
  - intros Hc Hall. revert c Hc. induction Hall as [|o ops Ho _ IH]; intros c Hc.
    + cbn. auto.
    + cbn [runOps]. destruct (applyOp_conn c o Ho Hc) as [Hc1 Hn].
      destruct (applyOp c o) as [c1 r]. cbn [fst snd] in *. subst r.
      specialize (IH c1 Hc1). destruct (runOps c1 ops) as [c2 rs]. exact IH.
Qed.

(** A stopped channel that gets a connection and two sends, and a started
    channel that loses its connection before a send. *)
Lemma X11_no_request_unless_witness :
  snd (runOps (fst (Stop startedChannel))
         [OpConnect (inl 2%nat); OpSend (mkOutbound "group:5" "a") None;
          OpSend (mkOutbound "77" "b") None]) = []
  ∧ snd (runOps (listenReadError startedChannel)
           [OpSend (mkOutbound "group:5" "a") None; OpConnect (inr ErrSyntaxJSON);
            OpSend (mkOutbound "77" "b") None]) = [].
Proof.
  split.
  - destruct (X11_no_request_unless (fst (Stop startedChannel))
                [OpConnect (inl 2%nat); OpSend (mkOutbound "group:5" "a") None;
                 OpSend (mkOutbound "77" "b") None]) as (H & _).
    apply H; [reflexivity|]. repeat constructor.
  - destruct (X11_no_request_unless (listenReadError startedChannel)
                [OpSend (mkOutbound "group:5" "a") None; OpConnect (inr ErrSyntaxJSON);
                 OpSend (mkOutbound "77" "b") None]) as (_ & H).
    apply H; [reflexivity|]. repeat constructor.
Defined.

Lemma runOps_dedup (ops : list op) :
  ∀ c, dedup (fst (runOps c ops)) = dedup c
       ∧ dedupRing (fst (runOps c ops)) = dedupRing c
       ∧ dedupIdx (fst (runOps c ops)) = dedupIdx c.
Proof.
  induction ops as [|o ops IH]; intros c; [cbn; auto|].
  cbn [runOps]. destruct (applyOp_dedup c o) as (H1 & H2 & H3).
  destruct (applyOp c o) as [c1 r]. cbn [fst] in *.
  destruct (IH c1) as (I1 & I2 & I3).
  destruct (runOps c1 ops) as [c2 rs]. cbn [fst] in *.
  repeat split; congruence.
Qed.

(** The answer of a check depends on the window only. *)
Lemma isDuplicate_window (c1 c2 : OneBotChannel) (id : string) :
  dedup c1 = dedup c2 → dedupRing c1 = dedupRing c2 → dedupIdx c1 = dedupIdx c2 →
  match isDuplicate c1 id, isDuplicate c2 id with
  | Some (b1, k1), Some (b2, k2) =>
      b1 = b2 ∧ dedup k1 = dedup k2 ∧ dedupRing k1 = dedupRing k2
      ∧ dedupIdx k1 = dedupIdx k2
  | None, None => True
  | _, _ => False
  end.
Proof.
  intros Hd Hr Hi. unfold isDuplicate. rewrite Hd, Hr, Hi.
  destruct (String.eqb id "" || String.eqb id "0"); [auto|].
  destruct (bool_decide (id ∈ dedup c2)); [auto|].
  destruct (dedupRing c2 !! dedupIdx c2); [|exact I].
  cbn [setDedup dedup dedupRing dedupIdx]. auto.
Qed.

(** X12. The window outlives the connection: no run of starts, connects,
    read errors, stops and sends changes the presence set, the ring or the
    cursor, so after a reconnect or a restart [isDuplicate] gives every id
    the answer it would have given before. *)
Theorem X12_window_survives_ops (c : OneBotChannel) (ops : list op) (id : string) :
  dedup (fst (runOps c ops)) = dedup c
  ∧ dedupRing (fst (runOps c ops)) = dedupRing c
  ∧ dedupIdx (fst (runOps c ops)) = dedupIdx c
  ∧ fst <$> isDuplicate (fst (runOps c ops)) id = fst <$> isDuplicate c id.
Proof.
  destruct (runOps_dedup ops c) as (Hd & Hr & Hi).
  split; [exact Hd|]. split; [exact Hr|]. split; [exact Hi|].
  pose proof (isDuplicate_window _ _ id Hd Hr Hi) as H.
  destruct (isDuplicate (fst (runOps c ops)) id) as [[b1 k1]|],
           (isDuplicate c id) as [[b2 k2]|]; cbn; try contradiction; [|reflexivity].
  destruct H as [-> _]. reflexivity.
Qed.

(** ** ConnectionSupervisor: the reconnect loop *)

(** X13. The reconnect loop never ticks faster than every five seconds:
    its interval is at least 5 s and a valid int64 duration whatever is
    configured, the configured number of seconds from 5 up to
    9223372036 (above, the int64 product wraps), and 5 s for every smaller
    value down to -9223372036.  A tick dials only when the handle is nil:
    it leaves a connected channel as it is, and on a channel without
    connection it stores the connection of a dial that succeeds. *)
Theorem X13_reconnect_loop (c : OneBotChannel) (dial : Conn + error) :
  5 * Second <= reconnectInterval (config c) < 2 ^ 63
  ∧ (5 <= cfg_ReconnectInterval (config c) <= 9223372036 →
     reconnectInterval (config c) = cfg_ReconnectInterval (config c) * Second)
  ∧ (- 9223372036 <= cfg_ReconnectInterval (config c) < 5 →
     reconnectInterval (config c) = 5 * Second)
  ∧ (conn c ≠ None → reconnectTick c dial = c)
  ∧ (conn c = None →
     reconnectTick c dial
     = match dial with inl k => setConn c (Some k) | inr _ => c end).
Proof.
  unfold reconnectInterval, Second.
  assert (Hw : ∀ n, - 2 ^ 63 <= wrapInt64 n < 2 ^ 63).
  { intros n. unfold wrapInt64.
    pose proof (Z.mod_pos_bound (n + 2 ^ 63) (2 ^ 64) ltac:(lia)). lia. }
  split; [|split; [|split; [|split]]].
  - specialize (Hw (cfg_ReconnectInterval (config c) * 1000000000)).
    destruct (_ <? _) eqn:E; [lia|]. apply Z.ltb_ge in E. lia.
  - intros H. rewrite wrapInt64_small by lia.
    destruct (_ <? _) eqn:E; [apply Z.ltb_lt in E; lia | reflexivity].
  - intros H. rewrite wrapInt64_small by lia.
    destruct (_ <? _) eqn:E; [reflexivity | apply Z.ltb_ge in E; lia].
  - unfold reconnectTick. destruct (conn c); [reflexivity | intros H; now elim H].
  - unfold reconnectTick. intros ->. destruct dial; reflexivity.
Qed.

(** The loop of the example configuration ticks every 5 s; after a read
    error on a started channel the next tick reconnects. *)
Lemma X13_reconnect_loop_witness :
  reconnectInterval exampleConfig = 5 * Second
  ∧ conn (reconnectTick (listenReadError startedChannel) (inl 2%nat)) = Some 2%nat
  ∧ reconnectTick startedChannel (inl 2%nat) = startedChannel.
Proof.
  destruct (X13_reconnect_loop startedChannel (inl 2%nat)) as (_ & Hi & _ & Hlive & _).
  destruct (X13_reconnect_loop (listenReadError startedChannel) (inl 2%nat))
    as (_ & _ & _ & _ & Hnil).
  split; [apply Hi; cbn; lia|]. split.
  - rewrite (Hnil eq_refl). reflexivity.
  - apply Hlive. discriminate.
Defined.

(** ** Message content *)














(** ** White space *)

Lemma len_drop (n : nat) (s : string) : len (drop n s) = (len s - n)%nat.
Proof.
  revert s. induction n as [|n IH]; intros [|a r]; cbn [drop len String.length];
    try lia. apply IH.
Qed.

Lemma leadingSpace_le (s : string) : (leadingSpace s <= len s)%nat.
Proof.
  unfold leadingSpace, len. destruct s as [|a [|b [|c r]]]; cbn [String.length];
    repeat match goal with
           | |- context [if ?b then _ else _] => destruct b
           end; lia.
Qed.

Lemma trailingSpace_le (s : string) : (trailingSpace s <= len s)%nat.
Proof.
  unfold trailingSpace, len. destruct s as [|a [|b [|c r]]]; cbn [String.length];
    repeat match goal with
           | |- context [if ?b then _ else _] => destruct b
           end; lia.
Qed.

Section TrimWhile.
Variable width : string → nat.
Hypothesis width_le : ∀ s, (width s <= len s)%nat.

(** With fuel for every byte the loop stops on a string that starts
    with no white space. *)
Lemma trimWhile_done (fuel : nat) :
  ∀ s, (len s <= fuel)%nat → width (trimWhile width fuel s) = 0%nat.
Proof using width_le.
  induction fuel as [|fuel IH]; intros s Hs; cbn [trimWhile].
  - pose proof (width_le s). lia.
  - destruct (width s) as [|n] eqn:E; [exact E|].
    apply IH. rewrite len_drop. pose proof (width_le s). lia.
Qed.

Lemma trimWhile_fixed (fuel : nat) (s : string) :
  width s = 0%nat → trimWhile width fuel s = s.
Proof using Type.
  intros E. destruct fuel; cbn [trimWhile]; [reflexivity|]. now rewrite E.
Qed.

Lemma string_drop_drop (n m : nat) (s : string) : drop n (drop m s) = drop (m + n) s.
Proof using Type.
  revert s. induction m as [|m IH]; intros s; [reflexivity|].
  destruct s as [|a r]; cbn [drop Nat.add]; [now destruct n | apply IH].
Qed.

Lemma trimWhile_suffix (fuel : nat) :
  ∀ s, ∃ k, trimWhile width fuel s = drop k s.
Proof using Type.
  induction fuel as [|fuel IH]; intros s; cbn [trimWhile]; [now exists 0%nat|].
  destruct (width s) as [|n]; [now exists 0%nat|].
  destruct (IH (drop (S n) s)) as [k ->]. rewrite string_drop_drop. eauto.
Qed.
End TrimWhile.

Lemma list_of_drop (n : nat) (s : string) :
  list_ascii_of_string (drop n s) = skipn n (list_ascii_of_string s).
Proof.
  revert s. induction n as [|n IH]; intros [|a r]; cbn; try reflexivity. apply IH.
Qed.

Lemma string_of_app (l1 l2 : list ascii) :
  string_of_list_ascii (l1 ++ l2)%list
  = string_of_list_ascii l1 ++ string_of_list_ascii l2.
Proof.
  induction l1 as [|a l1 IH]; [reflexivity|].
  cbn [app string_of_list_ascii]. now rewrite append_cons, IH.
Qed.

Lemma rev_involutive_string (s : string) : rev (rev s) = s.
Proof.
  unfold rev. rewrite list_ascii_of_string_of_list_ascii, List.rev_involutive.
  apply string_of_list_ascii_of_string.
Qed.

Lemma len_rev (s : string) : len (rev s) = len s.
Proof.
  unfold rev, len.
  rewrite <- (string_of_list_ascii_of_string s) at 2.
  generalize (list_ascii_of_string s). intros l.
  rewrite <- (List.rev_involutive l) at 2.
  generalize (List.rev l). clear. intros l.
  assert (H : ∀ l, String.length (string_of_list_ascii l) = length l).
  { clear. induction l; cbn; congruence. }
  now rewrite !H, length_rev.
Qed.

(** What is left after cutting from the right is a prefix. *)
Lemma rev_drop_prefix (k : nat) (t : string) :
  ∃ q, t = rev (drop k (rev t)) ++ q.
Proof.
  unfold rev. rewrite list_of_drop, list_ascii_of_string_of_list_ascii.
  exists (string_of_list_ascii
            (List.rev (firstn k (List.rev (list_ascii_of_string t))))).
  rewrite <- string_of_app, <- List.rev_app_distr, firstn_skipn.
  rewrite List.rev_involutive. symmetry. apply string_of_list_ascii_of_string.
Qed.

Lemma leadingSpace_prefix (p q : string) :
  leadingSpace (p ++ q) = 0%nat → leadingSpace p = 0%nat.
Proof.
  destruct p as [|a [|b [|c p]]]; [reflexivity | | |].
  - rewrite append_cons, append_empty. unfold leadingSpace.
    destruct (asciiSpace (byte a)); [discriminate | reflexivity].
  - rewrite !append_cons, append_empty. unfold leadingSpace.
    destruct (asciiSpace (byte a)); [discriminate|].
    destruct (space2 (byte a) (byte b)); [discriminate | reflexivity].
  - rewrite !append_cons. unfold leadingSpace. tauto.
Qed.

(** The result of TrimSpace starts and ends with no white space. *)
Lemma TrimSpace_trimmed (s : string) :
  leadingSpace (TrimSpace s) = 0%nat ∧ trailingSpace (rev (TrimSpace s)) = 0%nat.
Proof.
  unfold TrimSpace, TrimRightSpace. set (t := TrimLeftSpace s).
  assert (Ht : leadingSpace t = 0%nat).
  { unfold t, TrimLeftSpace. apply trimWhile_done; [apply leadingSpace_le | lia]. }
  split.
  - destruct (trimWhile_suffix trailingSpace (len t) (rev t)) as [k ->].
    destruct (rev_drop_prefix k t) as [q Hq].
    apply (leadingSpace_prefix _ q). now rewrite <- Hq.
  - rewrite rev_involutive_string. apply trimWhile_done; [apply trailingSpace_le|].
    rewrite len_rev. lia.
Qed.

Lemma TrimSpace_fixed (s : string) :
  leadingSpace s = 0%nat → trailingSpace (rev s) = 0%nat → TrimSpace s = s.
Proof.
  intros Hl Hr. unfold TrimSpace, TrimRightSpace, TrimLeftSpace.
  rewrite (trimWhile_fixed leadingSpace _ s Hl).
  rewrite (trimWhile_fixed trailingSpace _ (rev s) Hr). apply rev_involutive_string.
Qed.

Lemma TrimSpace_idem (s : string) : TrimSpace (TrimSpace s) = TrimSpace s.
Proof.
  destruct (TrimSpace_trimmed s) as [Hl Hr]. now apply TrimSpace_fixed.
Qed.

Lemma triggerLoop_trimmed (content : string) (prefixes : list string) (stripped : string) :
  triggerLoop content prefixes = (true, stripped) →
  ∃ p, p ∈ prefixes ∧ p ≠ "" ∧ HasPrefix content p = true
       ∧ stripped = TrimSpace (drop (len p) content).
Proof.
  induction prefixes as [|p rest IH]; cbn [triggerLoop]; [discriminate|].
  destruct (String.eqb_spec p "") as [->|Hp].
  { intros H. destruct (IH H) as (q & Hin & Hq). exists q. split; [|exact Hq].
    apply elem_of_cons. now right. }
  destruct (HasPrefix content p) eqn:E.
  - intros [= <-]. exists p. split; [apply elem_of_cons; now left|].
    split; [exact Hp|]. split; [exact E|]. unfold TrimPrefix. now rewrite E.
  - intros H. destruct (IH H) as (q & Hin & Hq). exists q. split; [|exact Hq].
    apply elem_of_cons. now right.
Qed.

(** X16. What the trigger hands on is trimmed: whenever
    [checkGroupTrigger] fires, by mention or by prefix, the stripped content
    starts and ends with no white space, so trimming it again changes
    nothing; and whenever [parseMessageContentEx] reports a mention, in the
    text form or the segment form, its text is trimmed as well. *)
Theorem X16_stripped_is_trimmed (prefixes : list string) (content : string)
    (isBotMentioned : bool) (stripped : string) (raw : RawMessage) (selfID : Z) :
  (checkGroupTrigger prefixes content isBotMentioned = (true, stripped) →
   TrimSpace stripped = stripped
   ∧ leadingSpace stripped = 0%nat ∧ trailingSpace (rev stripped) = 0%nat)
  ∧ (IsBotMentioned (parseMessageContentEx raw selfID) = true →
     TrimSpace (Text (parseMessageContentEx raw selfID))
     = Text (parseMessageContentEx raw selfID)).
Proof.
  split.
  - unfold checkGroupTrigger. intros H.
    assert (E : ∃ t, stripped = TrimSpace t).
    { destruct isBotMentioned.
      - injection H as <-. eauto.
      - apply triggerLoop_trimmed in H as (p & _ & _ & _ & ->). eauto. }
    destruct E as [t ->]. split; [apply TrimSpace_idem | apply TrimSpace_trimmed].
  - unfold parseMessageContentEx.
    destruct (len (bytes_of raw) =? 0)%nat; [discriminate|].
    destruct (Unmarshal_string raw "") as [s [e|]].
    + destruct (Unmarshal_segments raw) as [segs [e'|]]; [discriminate|].
      destruct (fold_left _ segs ("", false)) as [text m]. cbn [Text].
      intros _. apply TrimSpace_idem.
    + destruct (0 <? selfID); [|discriminate].
      destruct (Contains s (cqAtToken selfID)); [|discriminate].
      cbn [Text]. intros _. apply TrimSpace_idem.
Qed.

(** The prefix "!bot " on "!bot   hi  ". *)
Lemma X16_stripped_is_trimmed_witness :
  checkGroupTrigger ["!bot "] "!bot   hi  " false = (true, "hi")
  ∧ TrimSpace "hi" = "hi".
Proof.
  destruct (X16_stripped_is_trimmed ["!bot "] "!bot   hi  " false "hi" nilRaw 0)
    as [H _].
  split; [reflexivity|]. exact (proj1 (H eq_refl)).
Defined.

(** ** Runes and [truncate] *)

Lemma runesFrom_length (fuel : nat) :
  ∀ s, (length (runesFrom fuel s) <= fuel)%nat.
Proof.
  induction fuel as [|fuel IH]; intros s; cbn [runesFrom length]; [lia|].
  destruct s as [|a r]; cbn [length]; [lia|].
  destruct (DecodeRuneInString (String a r)) as [x w]. cbn [length].
  specialize (IH (drop w (String a r))). lia.
Qed.

Lemma byte_range (a : ascii) : 0 <= byte a < 256.
Proof.
  unfold byte. pose proof (N_ascii_bounded a). lia.
Qed.

Lemma chr_byte (a : ascii) : chr (byte a) = a.
Proof. unfold chr, byte. rewrite N2Z.id. apply ascii_N_embedding. Qed.

Lemma EncodeRune_ascii (a : ascii) : byte a < 0x80 → EncodeRune (byte a) = String a "".
Proof.
  intros Ha. pose proof (byte_range a). unfold EncodeRune.
  replace ((0 <=? byte a) && (byte a <=? 127)) with true by lia.
  now rewrite chr_byte.
Qed.

Lemma runesFrom_ascii (fuel : nat) :
  ∀ s, asciiOnly s → (len s <= fuel)%nat →
       runesFrom fuel s = map byte (list_ascii_of_string s).
Proof.
  induction fuel as [|fuel IH]; intros s Hs Hlen.
  - destruct s; [reflexivity | unfold len in Hlen; cbn [String.length] in Hlen; lia].
  - destruct s as [|a r]; [reflexivity|].
    unfold asciiOnly in Hs. cbn [list_ascii_of_string] in Hs.
    apply Forall_cons in Hs as [Ha Hr]. cbv beta in Ha.
    cbn [runesFrom DecodeRuneInString list_ascii_of_string map]. cbv zeta.
    assert (E : (byte a <? 128) = true) by (apply Z.ltb_lt; exact Ha).
    rewrite E. cbn [drop]. f_equal.
    apply IH; [exact Hr | unfold len in *; cbn [String.length] in Hlen; lia].
Qed.

Lemma stringOfRunes_ascii (l : list ascii) :
  Forall (fun a => byte a < 0x80) l →
  stringOfRunes (map byte l) = string_of_list_ascii l.
Proof.
  induction 1 as [|a l Ha _ IH]; [reflexivity|]. cbv beta in Ha.
  cbn [map stringOfRunes fold_right string_of_list_ascii].
  rewrite EncodeRune_ascii by exact Ha. unfold stringOfRunes in IH.
  now rewrite IH.
Qed.

Lemma take_firstn (k : nat) (s : string) :
  take k s = string_of_list_ascii (firstn k (list_ascii_of_string s)).
Proof.
  revert s. induction k as [|k IH]; intros [|a r]; cbn; try reflexivity.
  now rewrite IH.
Qed.

Lemma EncodeRune_len (r : Z) : (len (EncodeRune r) <= 4)%nat.
Proof.
  unfold EncodeRune.
  repeat match goal with
         | |- context [if ?b then _ else _] => destruct b
         end; cbn; lia.
Qed.

Lemma stringOfRunes_len (rs : list Z) : (len (stringOfRunes rs) <= 4 * length rs)%nat.
Proof.
  induction rs as [|r rs IH]; [cbn; lia|].
  cbn [stringOfRunes fold_right length]. rewrite len_app.
  pose proof (EncodeRune_len r). unfold stringOfRunes in IH. lia.
Qed.

(** X17. [truncate] returns every string of at most [n] bytes as it is
    (such a string has at most [n] runes) and panics on a negative [n],
    the empty string included; it cuts a string of ASCII characters that is
    longer than [n] to its first [n] characters followed by "..."; and
    whatever it returns is the string itself or some text of at most 4n
    bytes followed by "...". *)
Theorem X17_truncate_spec (s : string) (n : Z) :
  (Z.of_nat (len s) <= n → truncate s n = Some s)
  ∧ (n < 0 → truncate s n = None)
  ∧ (asciiOnly s → 0 <= n < Z.of_nat (len s) →
     truncate s n = Some (take (Z.to_nat n) s ++ "..."))
  ∧ (∀ t, truncate s n = Some t →
          t = s ∨ ∃ u, t = u ++ "..." ∧ (len u <= 4 * Z.to_nat n)%nat).
Proof.
  pose proof (runesFrom_length (len s) s) as Hlen. fold (runes s) in Hlen.
  unfold truncate. split; [|split; [|split]].
  - intros H. replace (Z.of_nat (length (runes s)) <=? n) with true by lia.
    reflexivity.
  - intros H. replace (Z.of_nat (length (runes s)) <=? n) with false by lia.
    now replace (n <? 0) with true by lia.
  - intros Hs Hn. unfold runes. rewrite (runesFrom_ascii _ s Hs) by lia.
    rewrite length_map.
    assert (Hl : length (list_ascii_of_string s) = len s).
    { unfold len. clear. induction s; cbn; congruence. }
    rewrite Hl. replace (Z.of_nat (len s) <=? n) with false by lia.
    replace (n <? 0) with false by lia.
    rewrite firstn_map. rewrite stringOfRunes_ascii.
    + now rewrite take_firstn.
    + apply Forall_take. exact Hs.
  - intros t. destruct (Z.of_nat (length (runes s)) <=? n); [intros [= <-]; now left|].
    destruct (n <? 0) eqn:E; [discriminate|]. intros [= <-]. right.
    eexists. split; [reflexivity|].
    pose proof (stringOfRunes_len (firstn (Z.to_nat n) (runes s))) as H.
    pose proof (firstn_le_length (Z.to_nat n) (runes s)). lia.
Qed.

(** The log form of "hello" cut at 4. *)
Lemma X17_truncate_spec_witness :
  truncate "hello" 4 = Some "hell..." ∧ truncate "hello" 5 = Some "hello".
Proof.
  destruct (X17_truncate_spec "hello" 4) as (_ & _ & Hcut & _).
  destruct (X17_truncate_spec "hello" 5) as (Hshort & _).
  split.
  - apply Hcut; [|cbn; lia]. unfold asciiOnly. cbn [list_ascii_of_string].
    repeat constructor.
  - apply Hshort. cbn. lia.
Defined.

(** ** Requests with retry *)

Section RetryFacts.
Import Utils.
Variable do : nat → doResult.
Variable sleep : nat → sleepResult.

(** One turn of the loop, in the words of the statements. *)
Lemma retryLoop_turn (n i : nat) (resp : option Response) (err : option error)
    (closed : list Response) (slept : list Z) :
  retryLoop do sleep (S n) i resp err closed slept
  = let closed1 :=
      match resp with
      | Some r => if (0 <? i)%nat then (closed ++ [r])%list else closed
      | None => closed
      end in
    if isFinal (do i)
    then mkRun (responseOf (do i)) None (S i) closed1 slept
    else if (i <? maxRetries - 1)%nat then
      match sleep i with
      | CtxDone e =>
          mkRun None (Some (ErrorfWrap "failed to sleep: " e "")) (S i) closed1
            (slept ++ [1000000000 * Z.of_nat (i + 1)])%list
      | TimerFired =>
          retryLoop do sleep n (S i) (responseOf (do i)) None closed1
            (slept ++ [1000000000 * Z.of_nat (i + 1)])%list
      end
    else retryLoop do sleep n (S i) (responseOf (do i)) (errorOf (do i)) closed1 slept.
Proof using Type.
  cbn [retryLoop]. cbv zeta.
  destruct (do i) as [r|[r|] e]; cbn [isFinal responseOf errorOf];
    try destruct (_ || _); try destruct (i <? maxRetries - 1)%nat;
    try destruct (sleep i); reflexivity.
Qed.



(** X19. The loop ends on the first attempt that gives a response
    without error whose status is 200 or not worth a retry (neither 429 nor
    500 and above): when the attempts before attempt [k] all fail and their
    sleeps run to the end, the run returns the response of attempt [k] with
    a nil error after [k + 1] calls, having slept 1 s, ..., [k] s and
    closed the earlier bodies. *)
Theorem X19_retry_stops_at_final (k : nat) :
  (k < maxRetries)%nat →
  (∀ i, (i < k)%nat → isFinal (do i) = false ∧ sleep i = TimerFired) →
  isFinal (do k) = true →
  DoRequestWithRetry do sleep
  = mkRun (responseOf (do k)) None (S k)
      (omap (fun i => responseOf (do i)) (seq 0 k))
      (map (fun i => 1000000000 * Z.of_nat (i + 1)) (seq 0 k)).
Proof using Type.
  unfold maxRetries. intros Hk Hbefore Hfinal.
  unfold DoRequestWithRetry, maxRetries.
  destruct k as [|[|[|k]]]; [| | |lia].
  - rewrite retryLoop_turn, Hfinal. reflexivity.
  - destruct (Hbefore 0%nat ltac:(lia)) as [H0 S0].
    rewrite retryLoop_turn, H0, S0. cbv zeta. change (maxRetries - 1)%nat with 2%nat. cbn [Nat.ltb Nat.leb Nat.sub app].
    rewrite retryLoop_turn, Hfinal. cbv zeta. change (maxRetries - 1)%nat with 2%nat. cbn [Nat.ltb Nat.leb seq omap list_omap map].
    destruct (responseOf (do 0%nat)); reflexivity.
  - destruct (Hbefore 0%nat ltac:(lia)) as [H0 S0].
    destruct (Hbefore 1%nat ltac:(lia)) as [H1 S1].
    rewrite retryLoop_turn, H0, S0. cbv zeta. change (maxRetries - 1)%nat with 2%nat. cbn [Nat.ltb Nat.leb Nat.sub app].
    rewrite retryLoop_turn, H1, S1. cbv zeta. change (maxRetries - 1)%nat with 2%nat. cbn [Nat.ltb Nat.leb Nat.sub app].
    rewrite retryLoop_turn, Hfinal. cbv zeta. change (maxRetries - 1)%nat with 2%nat. cbn [Nat.ltb Nat.leb seq omap list_omap map].
    destruct (responseOf (do 0%nat)), (responseOf (do 1%nat)); reflexivity.
Qed.

(** X20. When all three attempts fail and both sleeps run to the end,
    the run returns what the third attempt gave, response and error as they
    came: after three 5xx answers the caller gets the last response with a
    nil error, its body still open. *)
Theorem X20_retry_exhausted :
  (∀ i, (i < maxRetries)%nat → isFinal (do i) = false) →
  sleep 0%nat = TimerFired → sleep 1%nat = TimerFired →
  DoRequestWithRetry do sleep
  = mkRun (responseOf (do 2%nat)) (errorOf (do 2%nat)) 3
      (omap (fun i => responseOf (do i)) (seq 0 2))
      [1000000000; 2000000000].
Proof using Type.
  unfold maxRetries. intros Hall S0 S1. unfold DoRequestWithRetry, maxRetries.
  rewrite retryLoop_turn, (Hall 0%nat) by lia. rewrite S0.
  cbv zeta. change (maxRetries - 1)%nat with 2%nat. cbn [Nat.ltb Nat.leb Nat.sub app].
  rewrite retryLoop_turn, (Hall 1%nat) by lia. rewrite S1.
  cbv zeta. change (maxRetries - 1)%nat with 2%nat. cbn [Nat.ltb Nat.leb Nat.sub app].
  rewrite retryLoop_turn, (Hall 2%nat) by lia.
  cbv zeta. change (maxRetries - 1)%nat with 2%nat. cbn [Nat.ltb Nat.leb Nat.sub app retryLoop seq omap list_omap].
  destruct (responseOf (do 0%nat)), (responseOf (do 1%nat)); reflexivity.
Qed.

(** X21. When the context ends during the sleep after failed attempt
    [k], the run returns no response and the context's error wrapped in
    "failed to sleep: "; no further call is made, and the body of the
    response attempt [k] got is not closed, only the earlier ones are. *)
Theorem X21_retry_cancelled (k : nat) (e : error) :
  (k < maxRetries - 1)%nat →
  (∀ i, (i <= k)%nat → isFinal (do i) = false) →
  (∀ i, (i < k)%nat → sleep i = TimerFired) →
  sleep k = CtxDone e →
  DoRequestWithRetry do sleep
  = mkRun None (Some (ErrorfWrap "failed to sleep: " e "")) (S k)
      (omap (fun i => responseOf (do i)) (seq 0 k))
      (map (fun i => 1000000000 * Z.of_nat (i + 1)) (seq 0 (S k))).
Proof using Type.
  unfold maxRetries. intros Hk Hnot Hfired Hdone.
  unfold DoRequestWithRetry, maxRetries.
  destruct k as [|[|k]]; [| |lia].
  - rewrite retryLoop_turn, (Hnot 0%nat) by lia. rewrite Hdone.
    cbv zeta. change (maxRetries - 1)%nat with 2%nat. reflexivity.
  - rewrite retryLoop_turn, (Hnot 0%nat) by lia. rewrite (Hfired 0%nat) by lia.
    cbv zeta. change (maxRetries - 1)%nat with 2%nat. cbn [Nat.ltb Nat.leb Nat.sub app].
    rewrite retryLoop_turn, (Hnot 1%nat) by lia. rewrite Hdone.
    cbv zeta. change (maxRetries - 1)%nat with 2%nat. cbn [Nat.ltb Nat.leb Nat.sub seq omap list_omap map].
    destruct (responseOf (do 0%nat)); reflexivity.
Qed.
End RetryFacts.

(** A server that answers 503 once and 200 afterwards. *)
Lemma X19_retry_stops_at_final_witness :
  Utils.DoRequestWithRetry recovering (fun _ => Utils.TimerFired)
  = Utils.mkRun (Some (Utils.mkResponse 1 200)) None 2 [Utils.mkResponse 0 503]
      [1000000000].
Proof.
  apply (X19_retry_stops_at_final recovering (fun _ => Utils.TimerFired) 1).
  - unfold Utils.maxRetries. lia.
  - intros i Hi. assert (i = 0%nat) as -> by lia. split; reflexivity.
  - reflexivity.
Defined.

(** A server that always answers 500. *)
Lemma X20_retry_exhausted_witness :
  Utils.DoRequestWithRetry (alwaysStatus 500) (fun _ => Utils.TimerFired)
  = Utils.mkRun (Some (Utils.mkResponse 2 500)) None 3
      [Utils.mkResponse 0 500; Utils.mkResponse 1 500] [1000000000; 2000000000].
Proof.
  apply (X20_retry_exhausted (alwaysStatus 500) (fun _ => Utils.TimerFired));
    [|reflexivity|reflexivity].
  intros i _. reflexivity.
Defined.

(** A request cancelled during its first sleep, after a 429. *)
Lemma X21_retry_cancelled_witness :
  Utils.DoRequestWithRetry (alwaysStatus 429) (fun _ => Utils.CtxDone ErrSyntaxJSON)
  = Utils.mkRun None (Some (ErrorfWrap "failed to sleep: " ErrSyntaxJSON "")) 1 []
      [1000000000].
Proof.
  apply (X21_retry_cancelled (alwaysStatus 429) (fun _ => Utils.CtxDone ErrSyntaxJSON) 0).
  - unfold Utils.maxRetries. lia.
  - intros i _. reflexivity.
  - intros i Hi. lia.
  - reflexivity.
Defined.
